(** * Release-notes pipeline: classification, grouping, drafting, checkpoint

    A shallow embedding of [changelog_bot.py], of the generic flow and the
    command line of [customer_release_notes.py], and of the ticket listing
    of [fetch_tickets.py].

    The program is dynamically typed: tickets, decisions, groups and the
    classifier's result are Python dicts, lists and strings decoded from
    JSON, and several behaviours of the pipeline are the exceptions Python
    raises when a value has another type than the code expects.  The
    embedding therefore works over one type [value] of Python values, with
    the operations of the language ([v[k]], [v.get(k, d)], truth value,
    slicing, iteration, ...) returning an [outcome]: a result or the
    exception raised.

    Conventions.
    - A Python [str] is a Rocq [string] holding its UTF-8 encoding; lengths
      and slices count code points, as Python does.
    - A Python [float] is an IEEE double, kept as its exact value
      [m * 2^e] (or an infinity, or NaN); a decimal text is rounded to the
      nearest double when it is read.
    - The text of a prompt is not kept: the reply of the inference service
      is an input of the model, whatever the prompt.  Building a prompt is
      modelled by the expressions it evaluates, which can raise. *)

From Stdlib Require Import String Ascii List ZArith Bool Lia.
Import ListNotations.
Local Open Scope string_scope.
Set Warnings "-register-all".

(* ================================================================== *)
(** * Python values and the operations the code uses *)
(* ================================================================== *)

Module Py.

(** The exceptions that occur in the modelled code. [ServiceError] stands
    for whatever a network client raises (the inference client, [requests]). *)
Inductive exn : Type :=
| KeyError
| TypeError
| AttributeError
| StopIteration
| OSError
| JSONDecodeError
| ServiceError.

Inductive outcome (A : Type) : Type :=
| Ok (a : A)
| Raise (e : exn).
Arguments Ok {A} a.
Arguments Raise {A} e.

Definition obind {A B : Type} (c : outcome A) (k : A -> outcome B) : outcome B :=
  match c with
  | Ok a => k a
  | Raise e => Raise e
  end.

Declare Scope py_scope.
Delimit Scope py_scope with py.
Notation "x <- c ;; k" := (obind c (fun x => k))
  (at level 61, c at next level, right associativity) : py_scope.
Notation "c ;;; k" := (obind c (fun _ => k))
  (at level 61, right associativity) : py_scope.

(** [for x in xs: body] where the body only computes a value or raises. *)
Fixpoint omap {A B : Type} (f : A -> outcome B) (xs : list A) : outcome (list B) :=
  match xs with
  | [] => Ok []
  | x :: rest =>
      obind (f x) (fun y => obind (omap f rest) (fun ys => Ok (y :: ys)))
  end.

(** A Python [float] is an IEEE double: a finite one is kept as its exact
    value [m * 2^e] (0.0 and -0.0 are not told apart: they are equal, hash
    alike and are both falsy). *)
Inductive pyfloat : Type :=
| FBin (m e : Z)          (* m * 2^e *)
| FInf (negative : bool)
| FNaN.

(** [num / den] rounded to the nearest integer, ties to the even one. *)
Definition round_half_even (num den : Z) : Z :=
  let q := (num / den)%Z in
  match (2 * (num mod den) ?= den)%Z with
  | Lt => q
  | Gt => (q + 1)%Z
  | Eq => if Z.even q then q else (q + 1)%Z
  end.

(** [float(s)] for the decimal text of value [m * 10^e]: the double nearest
    to it, ties to even; subnormal below 2^-1022, infinite from
    2^1024 - 2^970 on. *)
Definition float_of_decimal (m e : Z) : pyfloat :=
  (if m =? 0 then FBin 0 0
   else
     let p := if 0 <=? e then Z.abs m * 10 ^ e else Z.abs m in
     let q := if 0 <=? e then 1 else 10 ^ (- e) in
     let scaled (k : Z) : Z :=
       if 0 <=? k then p / (q * 2 ^ k) else (p * 2 ^ (- k)) / q in
     let k1 := Z.log2 p - Z.log2 q - 52 in
     let k2 := if scaled k1 <? 2 ^ 52 then k1 - 1 else k1 in
     let k := Z.max k2 (-1074) in
     let mantissa :=
       if 0 <=? k then round_half_even p (q * 2 ^ k)
       else round_half_even (p * 2 ^ (- k)) q in
     if orb (971 <? k) (andb (k =? 971) (mantissa =? 2 ^ 53))
     then FInf (m <? 0)
     else FBin (Z.sgn m * mantissa) k)%Z.

Inductive value : Type :=
| PNone
| PBool (b : bool)
| PInt (z : Z)
| PFloat (f : pyfloat)
| PStr (s : string)
| PList (l : list value)
| PDict (d : list (string * value)).   (* a dict with str keys, in insertion order *)

(** ** Dicts with string keys *)

Fixpoint dict_lookup (k : string) (d : list (string * value)) : option value :=
  match d with
  | [] => None
  | (k', v) :: rest => if String.eqb k k' then Some v else dict_lookup k rest
  end.

(** [d[k] = v]: an existing key keeps its position, a new one goes last. *)
Fixpoint dict_set (k : string) (v : value) (d : list (string * value))
  : list (string * value) :=
  match d with
  | [] => [(k, v)]
  | (k', v') :: rest =>
      if String.eqb k k' then (k, v) :: rest else (k', v') :: dict_set k v rest
  end.

(** [v[k]] for a str [k]. *)
Definition getitem (v : value) (k : string) : outcome value :=
  match v with
  | PDict d =>
      match dict_lookup k d with
      | Some x => Ok x
      | None => Raise KeyError
      end
  | _ => Raise TypeError
  end.

(** [v.get(k, default)]; only dicts have the method. *)
Definition get (v : value) (k : string) (default : value) : outcome value :=
  match v with
  | PDict d =>
      Ok (match dict_lookup k d with
          | Some x => x
          | None => default
          end)
  | _ => Raise AttributeError
  end.

(** ** Truth value, [or], [==] against a str *)

Definition truthy (v : value) : bool :=
  match v with
  | PNone => false
  | PBool b => b
  | PInt z => negb (Z.eqb z 0)
  | PFloat (FBin m _) => negb (Z.eqb m 0)
  | PFloat _ => true
  | PStr s => negb (String.eqb s "")
  | PList l => match l with [] => false | _ => true end
  | PDict d => match d with [] => false | _ => true end
  end.

Definition or_ (a b : value) : value := if truthy a then a else b.

Definition eq_str (v : value) (s : string) : bool :=
  match v with
  | PStr t => String.eqb t s
  | _ => false
  end.

(** ** Strings as sequences of code points *)

(** A continuation byte of UTF-8: 10xxxxxx. *)
Definition is_cont (c : ascii) : bool :=
  match c with
  | Ascii _ _ _ _ _ _ false true => true
  | _ => false
  end.

Fixpoint take_conts (s : string) : string :=
  match s with
  | String c r => if is_cont c then String c (take_conts r) else ""
  | EmptyString => ""
  end.

Fixpoint drop_conts (s : string) : string :=
  match s with
  | String c r => if is_cont c then drop_conts r else s
  | EmptyString => ""
  end.

(** [len(s)] *)
Fixpoint cp_len (s : string) : nat :=
  match s with
  | String c r => if is_cont c then cp_len r else S (cp_len r)
  | EmptyString => 0
  end.

(** The code points of a string, each as a string; [fuel] bounds their number. *)
Fixpoint cp_chars_aux (fuel : nat) (s : string) : list string :=
  match fuel, s with
  | S n, String c r => String c (take_conts r) :: cp_chars_aux n (drop_conts r)
  | _, _ => []
  end.

Definition cp_chars (s : string) : list string := cp_chars_aux (String.length s) s.

(** [s[:n]] *)
Definition cp_take (n : nat) (s : string) : string :=
  String.concat "" (firstn n (cp_chars s)).

(** [v[:n]].  A dict has no slices: [TypeError] up to Python 3.11 (the
    slice is not hashable), [KeyError] since; the model has the former. *)
Definition slice_to (n : nat) (v : value) : outcome value :=
  match v with
  | PStr s => Ok (PStr (cp_take n s))
  | PList l => Ok (PList (firstn n l))
  | _ => Raise TypeError
  end.

(** [len(v)] *)
Definition len (v : value) : outcome nat :=
  match v with
  | PStr s => Ok (cp_len s)
  | PList l => Ok (List.length l)
  | PDict d => Ok (List.length d)
  | _ => Raise TypeError
  end.

(** [for x in v]: the elements of a list, the characters of a str, the
    keys of a dict. *)
Definition iter (v : value) : outcome (list value) :=
  match v with
  | PList l => Ok l
  | PStr s => Ok (map PStr (cp_chars s))
  | PDict d => Ok (map (fun kv => PStr (fst kv)) d)
  | _ => Raise TypeError
  end.

(** [sep.join(xs)]: every item must be a str. *)
Fixpoint join (sep : string) (xs : list value) : outcome string :=
  match xs with
  | [] => Ok ""
  | PStr s :: rest =>
      match rest with
      | [] => Ok s
      | _ => obind (join sep rest) (fun t => Ok (s ++ sep ++ t))
      end
  | _ :: _ => Raise TypeError
  end.

(** ** Dicts keyed by ticket ids

    [decision_map] and [all_by_id] are keyed by whatever value sits under
    ['id'].  A key must be hashable, which lists and dicts are not, and two
    keys are the same when they are the same object or Python's [==] says
    so: strings by content, numbers by value whatever their type
    ([True == 1 == 1.0], an int against the exact value of a double).  NaN
    equals nothing, itself included, but [json.loads] gives the one object
    [json.decoder.NaN] for every NaN it reads, and a dict finds a key that
    is the same object: the NaN of one decoded text is the key that the
    NaN of another is.  A [key] is a hashable value up to the type of a
    number. *)

Inductive key : Type :=
| KNone
| KStr (s : string)
| KNum (f : pyfloat).

Definition key_of (v : value) : option key :=
  match v with
  | PNone => Some KNone
  | PBool b => Some (KNum (FBin (if b then 1 else 0) 0))
  | PInt z => Some (KNum (FBin z 0))
  | PFloat f => Some (KNum f)
  | PStr s => Some (KStr s)
  | PList _ | PDict _ => None
  end.

(** Whether [m1 * 2^e1] and [m2 * 2^e2] are the same number. *)
Definition bin_eqb (m1 e1 m2 e2 : Z) : bool :=
  let e := Z.min e1 e2 in
  Z.eqb (m1 * 2 ^ (e1 - e)) (m2 * 2 ^ (e2 - e)).

Definition key_eqb (a b : key) : bool :=
  match a, b with
  | KNone, KNone => true
  | KStr s, KStr t => String.eqb s t
  | KNum (FBin m1 e1), KNum (FBin m2 e2) => bin_eqb m1 e1 m2 e2
  | KNum (FInf n1), KNum (FInf n2) => Bool.eqb n1 n2
  | KNum FNaN, KNum FNaN => true
  | _, _ => false
  end.

Definition idmap : Type := list (key * value).

Fixpoint idmap_find (k : key) (m : idmap) : option value :=
  match m with
  | [] => None
  | (k', v) :: rest => if key_eqb k k' then Some v else idmap_find k rest
  end.

Fixpoint idmap_put (k : key) (v : value) (m : idmap) : idmap :=
  match m with
  | [] => [(k, v)]
  | (k', v') :: rest =>
      if key_eqb k k' then (k', v) :: rest else (k', v') :: idmap_put k v rest
  end.

(** [m[k] = v] *)
Definition idmap_set (k v : value) (m : idmap) : outcome idmap :=
  match key_of k with
  | Some k' => Ok (idmap_put k' v m)
  | None => Raise TypeError
  end.

(** [m.get(k, default)] *)
Definition idmap_get (k : value) (m : idmap) (default : value) : outcome value :=
  match key_of k with
  | Some k' =>
      Ok (match idmap_find k' m with
          | Some v => v
          | None => default
          end)
  | None => Raise TypeError
  end.

(** ** Methods of str *)

Definition ascii_lower (c : ascii) : ascii :=
  let n := nat_of_ascii c in
  if andb (Nat.leb 65 n) (Nat.leb n 90) then ascii_of_nat (n + 32) else c.

(** [s.lower()], on the encoding.  Besides A-Z, two code points have a
    lowercase form that contains an ASCII letter: U+0130 becomes [i] and
    U+0307, and U+212A (the Kelvin sign) becomes [k].  Every other code
    point outside ASCII lowers to code points outside ASCII, and the bytes
    of those are left as they are: the code only searches the result for
    ASCII keywords, and no byte of a multi-byte sequence is an ASCII byte. *)
Fixpoint lower_string (s : string) : string :=
  match s with
  | String "196" (String "176" r) =>
      String "i" (String "204" (String "135" (lower_string r)))
  | String "226" (String "132" (String "170" r)) => String "k" (lower_string r)
  | String c r => String (ascii_lower c) (lower_string r)
  | EmptyString => ""
  end.

Definition lower (v : value) : outcome string :=
  match v with
  | PStr s => Ok (lower_string s)
  | _ => Raise AttributeError
  end.

(** [kw in s] for two strs. *)
Fixpoint contains (kw s : string) : bool :=
  orb (String.prefix kw s)
      (match s with
       | String _ r => contains kw r
       | EmptyString => false
       end).

(** The one-byte characters for which [str.isspace] holds. *)
Definition is_space (c : ascii) : bool :=
  let n := nat_of_ascii c in
  orb (andb (Nat.leb 9 n) (Nat.leb n 13))
      (orb (andb (Nat.leb 28 n) (Nat.leb n 31)) (Nat.eqb n 32)).

(** [s.lstrip()]: the other whitespace code points are U+0085, U+00A0,
    U+1680, U+2000..U+200A, U+2028, U+2029, U+202F, U+205F and U+3000. *)
Fixpoint lstrip (s : string) : string :=
  match s with
  | String c1 r1 =>
      if is_space c1 then lstrip r1
      else
        match r1 with
        | String c2 r2 =>
            let n1 := nat_of_ascii c1 in
            let n2 := nat_of_ascii c2 in
            if andb (Nat.eqb n1 194) (orb (Nat.eqb n2 133) (Nat.eqb n2 160))
            then lstrip r2
            else
              match r2 with
              | String c3 r3 =>
                  let n3 := nat_of_ascii c3 in
                  let three a b c :=
                    andb (Nat.eqb n1 a) (andb (Nat.eqb n2 b) (Nat.eqb n3 c)) in
                  if orb (three 225 154 128)
                     (orb (andb (Nat.eqb n1 226)
                             (andb (Nat.eqb n2 128)
                                (orb (andb (Nat.leb 128 n3) (Nat.leb n3 138))
                                   (orb (Nat.eqb n3 168)
                                      (orb (Nat.eqb n3 169) (Nat.eqb n3 175))))))
                        (orb (three 226 129 159) (three 227 128 128)))
                  then lstrip r3
                  else s
              | EmptyString => s
              end
        | EmptyString => s
        end
  | EmptyString => ""
  end.

Definition rev_string (s : string) : string :=
  string_of_list_ascii (rev (list_ascii_of_string s)).

(** [lstrip] on a reversed string: the multi-byte sequences read backwards. *)
Fixpoint lstrip_rev (s : string) : string :=
  match s with
  | String c1 r1 =>
      if is_space c1 then lstrip_rev r1
      else
        match r1 with
        | String c2 r2 =>
            let n1 := nat_of_ascii c1 in
            let n2 := nat_of_ascii c2 in
            if andb (Nat.eqb n2 194) (orb (Nat.eqb n1 133) (Nat.eqb n1 160))
            then lstrip_rev r2
            else
              match r2 with
              | String c3 r3 =>
                  let n3 := nat_of_ascii c3 in
                  let three a b c :=
                    andb (Nat.eqb n3 a) (andb (Nat.eqb n2 b) (Nat.eqb n1 c)) in
                  if orb (three 225 154 128)
                     (orb (andb (Nat.eqb n3 226)
                             (andb (Nat.eqb n2 128)
                                (orb (andb (Nat.leb 128 n1) (Nat.leb n1 138))
                                   (orb (Nat.eqb n1 168)
                                      (orb (Nat.eqb n1 169) (Nat.eqb n1 175))))))
                        (orb (three 226 129 159) (three 227 128 128)))
                  then lstrip_rev r3
                  else s
              | EmptyString => s
              end
        | EmptyString => s
        end
  | EmptyString => ""
  end.

(** [s.strip()] *)
Definition strip (s : string) : string :=
  rev_string (lstrip_rev (rev_string (lstrip s))).

End Py.


(* ================================================================== *)
(** * The [json] module: [loads], and [dumps] of the checkpoint record *)
(* ================================================================== *)

Module json.
Import Py.

(** Whitespace between tokens: space, tab, line feed, carriage return. *)
Definition is_ws (c : ascii) : bool :=
  match c with
  | " "%char | "009"%char | "010"%char | "013"%char => true
  | _ => false
  end.

Fixpoint skip_ws (s : string) : string :=
  match s with
  | String c r => if is_ws c then skip_ws r else s
  | EmptyString => ""
  end.

Definition digit (c : ascii) : option Z :=
  let n := nat_of_ascii c in
  if andb (Nat.leb 48 n) (Nat.leb n 57) then Some (Z.of_nat (n - 48)) else None.

Definition hex_digit (c : ascii) : option Z :=
  let n := nat_of_ascii c in
  if andb (Nat.leb 48 n) (Nat.leb n 57) then Some (Z.of_nat (n - 48))
  else if andb (Nat.leb 97 n) (Nat.leb n 102) then Some (Z.of_nat (n - 87))
  else if andb (Nat.leb 65 n) (Nat.leb n 70) then Some (Z.of_nat (n - 55))
  else None.

(** The longest run of digits at the head of [s]: its value after [acc],
    how many digits it has, and the rest. *)
Fixpoint digits (s : string) (acc : Z) (count : Z) : Z * Z * string :=
  match s with
  | String c r =>
      match digit c with
      | Some d => digits r (10 * acc + d)%Z (count + 1)%Z
      | None => (acc, count, s)
      end
  | EmptyString => (acc, count, s)
  end.

(** A number: an optional minus sign, an integer part (a single 0, or
    digits that do not start with 0), an optional fraction (a dot and at
    least one digit) and an optional exponent (e or E, an optional sign, at
    least one digit); the longest such text at the head is taken.  It is an
    int when it has neither fraction nor exponent, and otherwise the float
    nearest to its value. *)
Definition integer (s : string) : option (Z * string) :=
  match s with
  | String "0" r => Some (0%Z, r)
  | String c _ =>
      match digit c with
      | Some _ => let '(n, _, r) := digits s 0%Z 0%Z in Some (n, r)
      | None => None
      end
  | EmptyString => None
  end.

Definition fraction (s : string) : option (Z * Z * string) :=
  match s with
  | String "." r =>
      let '(f, k, r') := digits r 0%Z 0%Z in
      if Z.eqb k 0 then None else Some (f, k, r')
  | _ => None
  end.

Definition exponent (s : string) : option (Z * string) :=
  match s with
  | String c r =>
      if orb (Ascii.eqb c "e") (Ascii.eqb c "E") then
        let '(neg, r1) :=
          match r with
          | String "-" r' => (true, r')
          | String "+" r' => (false, r')
          | _ => (false, r)
          end in
        let '(x, k, r2) := digits r1 0%Z 0%Z in
        if Z.eqb k 0 then None else Some (if neg then (- x)%Z else x, r2)
      else None
  | EmptyString => None
  end.

Definition number (s : string) : option (value * string) :=
  let '(neg, s1) :=
    match s with
    | String "-" r => (true, r)
    | _ => (false, s)
    end in
  let sign (z : Z) : Z := if neg then (- z)%Z else z in
  match integer s1 with
  | None => None
  | Some (n, s2) =>
      match fraction s2 with
      | Some (f, k, s3) =>
          match exponent s3 with
          | Some (x, s4) =>
              Some (PFloat (float_of_decimal (sign (n * 10 ^ k + f)%Z) (x - k)%Z), s4)
          | None =>
              Some (PFloat (float_of_decimal (sign (n * 10 ^ k + f)%Z) (- k)%Z), s3)
          end
      | None =>
          match exponent s2 with
          | Some (x, s4) => Some (PFloat (float_of_decimal (sign n) x), s4)
          | None => Some (PInt (sign n), s2)
          end
      end
  end.

(** ** Strings *)

Definition byte (z : Z) : ascii := ascii_of_N (Z.to_N z).

(** The UTF-8 encoding of a code point (a lone surrogate is encoded like
    any other code point of its range). *)
Definition utf8 (u : Z) : string :=
  (if u <? 128 then String (byte u) ""
   else if u <? 2048 then
     String (byte (192 + u / 64)) (String (byte (128 + u mod 64)) "")
   else if u <? 65536 then
     String (byte (224 + u / 4096))
       (String (byte (128 + (u / 64) mod 64)) (String (byte (128 + u mod 64)) ""))
   else
     String (byte (240 + u / 262144))
       (String (byte (128 + (u / 4096) mod 64))
          (String (byte (128 + (u / 64) mod 64))
             (String (byte (128 + u mod 64)) ""))))%Z.

Definition hex4 (a b c d : ascii) : option Z :=
  match hex_digit a, hex_digit b, hex_digit c, hex_digit d with
  | Some x, Some y, Some z, Some w => Some (((x * 16 + y) * 16 + z) * 16 + w)%Z
  | _, _, _, _ => None
  end.

Definition simple_escape (c : ascii) : option ascii :=
  match c with
  | "034"%char => Some "034"%char
  | "\"%char => Some "\"%char
  | "/"%char => Some "/"%char
  | "b"%char => Some "008"%char
  | "f"%char => Some "012"%char
  | "n"%char => Some "010"%char
  | "r"%char => Some "013"%char
  | "t"%char => Some "009"%char
  | _ => None
  end.

(** The text after an opening quote: the string it denotes and what
    follows the closing quote.  Control characters must be escaped; a high
    surrogate escape followed by a low surrogate escape is one code point. *)
Fixpoint scanstring (s : string) : option (string * string) :=
  let emit (t : string) (rest : option (string * string)) :=
    match rest with
    | Some (u, r) => Some (t ++ u, r)
    | None => None
    end in
  match s with
  | EmptyString => None
  | String "034" r => Some ("", r)
  | String "\" EmptyString => None
  | String "\" (String "u" r1) =>
      match r1 with
      | String h1 (String h2 (String h3 (String h4 r2))) =>
          match hex4 h1 h2 h3 h4 with
          | None => None
          | Some u =>
              if andb (55296 <=? u)%Z (u <=? 56319)%Z then
                match r2 with
                | String "\" (String "u"
                    (String g1 (String g2 (String g3 (String g4 r3))))) =>
                    match hex4 g1 g2 g3 g4 with
                    | None => None
                    | Some u2 =>
                        if andb (56320 <=? u2)%Z (u2 <=? 57343)%Z then
                          emit (utf8 (65536 + (u - 55296) * 1024 + (u2 - 56320)))
                               (scanstring r3)
                        else emit (utf8 u) (scanstring r2)
                    end
                | _ => emit (utf8 u) (scanstring r2)
                end
              else emit (utf8 u) (scanstring r2)
          end
      | _ => None
      end
  | String "\" (String e r1) =>
      match simple_escape e with
      | Some c => emit (String c "") (scanstring r1)
      | None => None
      end
  | String c r =>
      if Nat.ltb (nat_of_ascii c) 32 then None
      else emit (String c "") (scanstring r)
  end.

Fixpoint drop (n : nat) (s : string) : string :=
  match n, s with
  | S n', String _ r => drop n' r
  | _, _ => s
  end.

(** ** Values

    [scan_once] reads one value at the head of the text; [elements] and
    [members] read the items of an array and of an object after the opening
    bracket.  Each call hands a smaller [fuel] to the calls it makes, and
    of two nested calls at least one consumes a character, so that twice the
    length of the text is enough fuel. *)
Fixpoint scan_once (fuel : nat) (s : string) : option (value * string) :=
  match fuel with
  | O => None
  | S n =>
      match s with
      | String "034" r =>
          match scanstring r with
          | Some (t, r') => Some (PStr t, r')
          | None => None
          end
      | String "{" r =>
          match skip_ws r with
          | String "}" r' => Some (PDict [], r')
          | r' => members n r' []
          end
      | String "[" r =>
          match skip_ws r with
          | String "]" r' => Some (PList [], r')
          | r' => elements n r' []
          end
      | _ =>
          if String.prefix "null" s then Some (PNone, drop 4 s)
          else if String.prefix "true" s then Some (PBool true, drop 4 s)
          else if String.prefix "false" s then Some (PBool false, drop 5 s)
          else
            match number s with
            | Some r => Some r
            | None =>
                if String.prefix "NaN" s then Some (PFloat FNaN, drop 3 s)
                else if String.prefix "Infinity" s
                then Some (PFloat (FInf false), drop 8 s)
                else if String.prefix "-Infinity" s
                then Some (PFloat (FInf true), drop 9 s)
                else None
            end
      end
  end

with elements (fuel : nat) (s : string) (acc : list value)
  : option (value * string) :=
  match fuel with
  | O => None
  | S n =>
      match scan_once n s with
      | None => None
      | Some (v, r) =>
          match skip_ws r with
          | String "," r' => elements n (skip_ws r') (acc ++ [v])%list
          | String "]" r' => Some (PList (acc ++ [v])%list, r')
          | _ => None
          end
      end
  end

with members (fuel : nat) (s : string) (acc : list (string * value))
  : option (value * string) :=
  match fuel with
  | O => None
  | S n =>
      match s with
      | String "034" r =>
          match scanstring r with
          | None => None
          | Some (k, r1) =>
              match skip_ws r1 with
              | String ":" r2 =>
                  match scan_once n (skip_ws r2) with
                  | None => None
                  | Some (v, r3) =>
                      match skip_ws r3 with
                      | String "," r' => members n (skip_ws r') (dict_set k v acc)
                      | String "}" r' => Some (PDict (dict_set k v acc), r')
                      | _ => None
                      end
                  end
              | _ => None
              end
          end
      | _ => None
      end
  end.

(** The decoder: one value, with whitespace around it and nothing else.
    [None] stands for [json.JSONDecodeError].  Two limits of the
    interpreter are left out: the recursion limit on deeply nested texts
    and the limit on the number of digits of an int. *)
Definition decode (s : string) : option value :=
  match scan_once (2 * String.length s + 2) (skip_ws s) with
  | Some (v, r) =>
      match skip_ws r with
      | EmptyString => Some v
      | _ => None
      end
  | None => None
  end.

Definition loads (s : string) : outcome value :=
  match decode s with
  | Some v => Ok v
  | None => Raise JSONDecodeError
  end.

(** ** Encoding a str ([ensure_ascii] is on by default)

    Printable ASCII other than the quote and the backslash stands for
    itself; the rest is escaped, code points above U+FFFF as a surrogate
    pair. *)

Definition hex_char (z : Z) : ascii :=
  (if z <? 10 then byte (48 + z) else byte (87 + z))%Z.

Definition u_escape (u : Z) : string :=
  String "\" (String "u"
    (String (hex_char (u / 4096)%Z)
       (String (hex_char ((u / 256) mod 16)%Z)
          (String (hex_char ((u / 16) mod 16)%Z)
             (String (hex_char (u mod 16)%Z) ""))))).

(** The code point that a UTF-8 sequence encodes. *)
Definition code_point (cp : string) : Z :=
  let cont (c : ascii) : Z := (Z.of_nat (nat_of_ascii c) mod 64)%Z in
  match cp with
  | String a EmptyString => Z.of_nat (nat_of_ascii a)
  | String a (String b EmptyString) =>
      ((Z.of_nat (nat_of_ascii a) mod 32) * 64 + cont b)%Z
  | String a (String b (String c EmptyString)) =>
      (((Z.of_nat (nat_of_ascii a) mod 16) * 64 + cont b) * 64 + cont c)%Z
  | String a (String b (String c (String d _))) =>
      ((((Z.of_nat (nat_of_ascii a) mod 8) * 64 + cont b) * 64 + cont c) * 64
       + cont d)%Z
  | EmptyString => 0%Z
  end.

Definition escape_char (cp : string) : string :=
  let u := code_point cp in
  if (u =? 34)%Z then String "\" (String "034" "")
  else if (u =? 92)%Z then "\\"
  else if (u =? 10)%Z then "\n"
  else if (u =? 13)%Z then "\r"
  else if (u =? 9)%Z then "\t"
  else if (u =? 12)%Z then "\f"
  else if (u =? 8)%Z then "\b"
  else if andb (32 <=? u)%Z (u <=? 126)%Z then cp
  else if (u <? 65536)%Z then u_escape u
  else
    let v := (u - 65536)%Z in
    u_escape (55296 + v / 1024)%Z ++ u_escape (56320 + v mod 1024)%Z.

Definition dumps_str (s : string) : string :=
  String "034" (String.concat "" (map escape_char (cp_chars s))) ++ String "034" "".

End json.

(* ================================================================== *)
(** * [re.search] for the two patterns of the program *)
(* ================================================================== *)

Module re.

(** The text that follows the first [c]. *)
Fixpoint after_first (c : ascii) (s : string) : option string :=
  match s with
  | EmptyString => None
  | String a r => if Ascii.eqb a c then Some r else after_first c r
  end.

(** The text up to and including the last [c]. *)
Fixpoint upto_last (c : ascii) (s : string) : option string :=
  match s with
  | EmptyString => None
  | String a r =>
      match upto_last c r with
      | Some m => Some (String a m)
      | None => if Ascii.eqb a c then Some (String a "") else None
      end
  end.

(** [re.search(p, s)] with [p] an opening character, then any characters
    (line breaks too, and as many as possible), then a closing character:
    the patterns [\[[\s\S]*\]] and [\{[\s\S]*\}].  The match starts at the
    first opening character (if no closing one follows it, none follows a
    later one either) and ends at the last closing character of the text.
    [None] when nothing matches, else the matched text ([match.group()]). *)
Definition search_delimited (opening closing : ascii) (s : string) : option string :=
  match after_first opening s with
  | Some r =>
      match upto_last closing r with
      | Some m => Some (String opening m)
      | None => None
      end
  | None => None
  end.

End re.

(* ================================================================== *)
(** * The calendar: [datetime.now()], [timedelta(days=n)], [strftime] *)
(* ================================================================== *)

Module datetime.

Record date : Type := { year : Z; month : Z; day : Z }.

Local Open Scope Z_scope.

Definition is_leap (y : Z) : bool :=
  andb (y mod 4 =? 0) (orb (negb (y mod 100 =? 0)) (y mod 400 =? 0)).

Definition days_in_month (y m : Z) : Z :=
  if m =? 2 then (if is_leap y then 29 else 28)
  else if orb (orb (m =? 4) (m =? 6)) (orb (m =? 9) (m =? 11)) then 30
  else 31.

Definition yesterday (d : date) : date :=
  if 1 <? day d then {| year := year d; month := month d; day := day d - 1 |}
  else if 1 <? month d then
    {| year := year d; month := month d - 1;
       day := days_in_month (year d) (month d - 1) |}
  else {| year := year d - 1; month := 12; day := 31 |}.

(** [d - timedelta(days=n)] *)
Fixpoint days_before (n : nat) (d : date) : date :=
  match n with
  | O => d
  | S k => days_before k (yesterday d)
  end.

Definition digit_char (z : Z) : ascii := ascii_of_N (Z.to_N (48 + z mod 10)).

(** [d.strftime("%Y-%m-%d")], for the years 1000 to 9999. *)
Definition strftime_Ymd (d : date) : string :=
  let y := year d in
  let m := month d in
  let n := day d in
  String (digit_char (y / 1000)) (String (digit_char (y / 100))
    (String (digit_char (y / 10)) (String (digit_char y)
      (String "-" (String (digit_char (m / 10)) (String (digit_char m)
        (String "-" (String (digit_char (n / 10)) (String (digit_char n) ""))))))))).

End datetime.

(* ================================================================== *)
(** * The world outside the program *)
(* ================================================================== *)

Module World.
Import Py.

(** The prompts the pipeline sends; their text is left out. *)
Inductive prompt : Type :=
| ClassifyPrompt
| GroupPrompt
| DraftPrompt.

(** A content block of a reply of the inference service: a reasoning
    block has another [type] than ["text"]. *)
Record block : Type := { type : string; text : string }.

(** What the program does to the outside, in order. *)
Inductive event : Type :=
| Query (since : value)          (* the POST to the tracker *)
| Create (p : prompt)            (* [client.messages.create] *)
| Post (url : string)            (* the POST to the chat webhook *)
| OpenForWriting.                (* [open(STATE_FILE, "w")] *)

(** What opening STATE_FILE for writing and writing to it come to. *)
Inductive write_outcome : Type :=
| Written                 (* [open], the write and the close succeed *)
| Refused                 (* [open] raises: the file is as it was *)
| Torn (n : nat).         (* [open] empties the file, and the write or the close
                             raises when [n] bytes of the new text are in it *)

(** What the run finds and cannot change.  The date is the same at the
    two places where [main] asks for it. *)
Record environment : Type := {
  START_DATE : option string;           (* [os.getenv("START_DATE")] *)
  SLACK_WEBHOOK_URL : option string;    (* [os.getenv("SLACK_WEBHOOK_URL")] *)
  state_file_write : write_outcome;     (* the fate of a write to STATE_FILE *)
  now : datetime.date;                  (* the date of [datetime.now()] *)
  tracker : outcome value;              (* [requests.post(...).json()] of the tracker *)
  webhook : outcome Z                   (* [requests.post(...).status_code] of the webhook *)
}.

Record world : Type := {
  env : environment;
  state_file : option string;           (* the text of STATE_FILE, if it exists *)
  inference : list (outcome (list block));
      (* [response.content] of the calls to come, or the exception raised *)
  trace : list event
}.

(** Whether STATE_FILE can be written: opened, written and closed. *)
Definition state_file_writable (e : environment) : bool :=
  match state_file_write e with
  | Written => true
  | Refused | Torn _ => false
  end.

Definition M (A : Type) : Type := world -> outcome A * world.

Definition ret {A : Type} (a : A) : M A := fun w => (Ok a, w).

Definition bind {A B : Type} (c : M A) (k : A -> M B) : M B :=
  fun w =>
    match c w with
    | (Ok a, w') => k a w'
    | (Raise e, w') => (Raise e, w')
    end.

Definition lift {A : Type} (c : outcome A) : M A := fun w => (c, w).

Definition ask {A : Type} (f : environment -> A) : M A := fun w => (Ok (f (env w)), w).

Definition logged (e : event) (w : world) : world :=
  {| env := env w; state_file := state_file w; inference := inference w;
     trace := (trace w ++ [e])%list |}.

Definition answered (w : world) : world :=
  {| env := env w; state_file := state_file w; inference := tl (inference w);
     trace := trace w |}.

Definition written (content : string) (w : world) : world :=
  {| env := env w; state_file := Some content; inference := inference w;
     trace := trace w |}.

Definition log (e : event) : M unit := fun w => (Ok tt, logged e w).

(** The next reply of the inference service; a service that has no reply
    left is unreachable. *)
Definition next_reply : M (list block) :=
  fun w =>
    match inference w with
    | r :: _ => (r, answered w)
    | [] => (Raise ServiceError, w)
    end.

Definition write_state_file (content : string) : M unit :=
  fun w => (Ok tt, written content w).

Declare Scope world_scope.
Delimit Scope world_scope with world.
Notation "x <- c ;; k" := (bind c (fun x => k))
  (at level 61, c at next level, right associativity) : world_scope.
Notation "c ;;; k" := (bind c (fun _ => k))
  (at level 61, right associativity) : world_scope.

(** [next(block.text for block in response.content if block.type == "text")] *)
Definition first_text (blocks : list block) : outcome string :=
  match find (fun b => String.eqb (type b) "text") blocks with
  | Some b => Ok (text b)
  | None => Raise StopIteration
  end.

(** [client.messages.create(...)] with the prompt [p], and the text of the
    first text block of the response. *)
Definition create_message (p : prompt) : M string :=
  (log (Create p) ;;;
   blocks <- next_reply ;;
   lift (first_text blocks))%world.

End World.

(* ================================================================== *)
(** * changelog_bot.py *)
(* ================================================================== *)

Module changelog_bot.
Import Py World.
Local Open Scope py_scope.

(** ** Checkpoint store *)

Definition load_last_run : M value :=
  fun w =>
    match state_file w with
    | Some content =>
        ((state <- json.loads content ;; get state "last_run" PNone)%py, w)
    | None => (Ok PNone, w)
    end.

(** [json.dump({"last_run": timestamp}, f)] within
    [with open(STATE_FILE, "w") as f].  Nothing catches an error: of
    [open], which leaves the file as it was, or of the write or the close,
    which come after [open] has emptied the file and leave in it the part
    of the new text that was written. *)
Definition save_last_run (timestamp : string) : M unit :=
  (let text :=
     "{" ++ json.dumps_str "last_run" ++ ": " ++ json.dumps_str timestamp ++ "}" in
   log OpenForWriting ;;;
   fate <- ask state_file_write ;;
   match fate with
   | Written => write_state_file text
   | Refused => lift (Raise OSError)
   | Torn n => write_state_file (String.substring 0 n text) ;;; lift (Raise OSError)
   end)%world.

(** ** Tracker *)

Definition fetch_completed_issues (since_date : value) : M value :=
  (log (Query since_date) ;;;
   body <- (fun w => (tracker (env w), w)) ;;
   lift (data <- get body "data" (PDict []) ;;
         issues <- get data "issues" (PDict []) ;;
         get issues "nodes" (PList []))%py)%world.

Definition get_initiative_names (issue : value) : outcome (list value) :=
  project <- get issue "project" PNone ;;
  if negb (truthy project) then Ok []
  else
    initiatives <- get project "initiatives" (PDict []) ;;
    nodes <- get initiatives "nodes" (PList []) ;;
    inits <- iter nodes ;;
    omap (fun init => getitem init "name") inits.

(** ** Classifier *)

(** The helpers that render a ticket into the prompt.  The rendered text is
    not kept, so they return nothing; what remains is the evaluation of the
    interpolated expressions, in the order of the source. *)

Definition get_assignee (issue : value) : outcome unit :=
  assignee <- get issue "assignee" PNone ;;
  if negb (truthy assignee) then Ok tt
  else
    _ <- get assignee "name" (PStr "Unknown") ;;
    _ <- get assignee "email" (PStr "") ;;
    Ok tt.

(** The loop of [get_comments] over [comments[:5]]. *)
Fixpoint get_comments_loop (max_chars : nat) (comments : list value)
    (total_chars : nat) : outcome unit :=
  match comments with
  | [] => Ok tt
  | c :: rest =>
      user_obj <- get c "user" PNone ;;
      _ <- (if truthy user_obj then get user_obj "name" (PStr "Unknown")
            else Ok (PStr "Unknown")) ;;
      b <- get c "body" PNone ;;
      body <- slice_to 300 (or_ b (PStr "")) ;;
      if negb (truthy body) then get_comments_loop max_chars rest total_chars
      else
        n <- len body ;;
        if Nat.ltb max_chars (total_chars + n) then Ok tt
        else get_comments_loop max_chars rest (total_chars + n)
  end.

Definition get_comments (issue : value) : outcome unit :=
  comments_obj <- get issue "comments" (PDict []) ;;
  comments <- get comments_obj "nodes" (PList []) ;;
  if negb (truthy comments) then Ok tt
  else
    first5 <- slice_to 5 comments ;;
    cs <- iter first5 ;;
    get_comments_loop 800 cs 0.

(** One item of [issues_text]. *)
Definition issue_text (i : value) : outcome unit :=
  _ <- getitem i "id" ;;
  _ <- getitem i "title" ;;
  _ <- get_assignee i ;;
  names <- get_initiative_names i ;;
  _ <- join ", " names ;;
  p <- get i "project" PNone ;;
  _ <- (if truthy p
        then (q <- get i "project" (PDict []) ;; get q "name" (PStr "None"))
        else Ok (PStr "None")) ;;
  labels <- get i "labels" (PDict []) ;;
  nodes <- get labels "nodes" (PList []) ;;
  ls <- iter nodes ;;
  label_names <- omap (fun l => getitem l "name") ls ;;
  _ <- join ", " label_names ;;
  d <- get i "description" PNone ;;
  _ <- slice_to 1500 (or_ d (PStr "No description")) ;;
  get_comments i.

(** The two-tier decoding of the reply: [json.loads] of the whole text and,
    when that raises [JSONDecodeError], of the match of the bracket pattern.
    [None] is the case of the warning, where the caller returns empty
    partitions. *)
Definition decode_decisions (response_text : string) : option value :=
  match json.decode response_text with
  | Some decisions => Some decisions
  | None =>
      match re.search_delimited "[" "]" response_text with
      | Some m => json.decode m
      | None => None
      end
  end.

(** [{x['id']: x for x in xs}], continuing from the dict [m]: the
    comprehension that builds [decision_map] from the decisions and
    [all_by_id] from the candidate tickets. *)
Fixpoint dict_by_id (xs : list value) (m : idmap) : outcome idmap :=
  match xs with
  | [] => Ok m
  | x :: rest =>
      k <- getitem x "id" ;;
      m' <- idmap_set k x m ;;
      dict_by_id rest m'
  end.

(** [{**issue, 'reason': reason}] *)
Definition with_reason (issue reason : value) : outcome value :=
  match issue with
  | PDict d => Ok (PDict (dict_set "reason" reason d))
  | _ => Raise TypeError
  end.

(** The loop [for issue in issues] that fills the three lists. *)
Fixpoint partition_loop (decision_map : idmap) (issues : list value)
    (features fixes excluded : list value)
  : outcome (list value * list value * list value) :=
  match issues with
  | [] => Ok (features, fixes, excluded)
  | issue :: rest =>
      id <- getitem issue "id" ;;
      d <- idmap_get id decision_map (PDict []) ;;
      decision <- get d "decision" (PStr "exclude") ;;
      reason <- get d "reason" (PStr "No reason given") ;;
      issue_with_reason <- with_reason issue reason ;;
      if eq_str decision "feature" then
        partition_loop decision_map rest (features ++ [issue_with_reason])%list fixes excluded
      else if eq_str decision "fix" then
        partition_loop decision_map rest features (fixes ++ [issue_with_reason])%list excluded
      else
        partition_loop decision_map rest features fixes (excluded ++ [issue_with_reason])%list
  end.

Definition categorized (features fixes excluded : list value) (decisions : value)
  : value :=
  PDict [("features", PList features); ("fixes", PList fixes);
         ("excluded", PList excluded); ("decisions", decisions)].

Definition filter_customer_worthy (issues : value) : M value :=
  if negb (truthy issues) then ret (PList [])
  else
    (lift (items <- iter issues ;; omap issue_text items)%py ;;;
     reply <- create_message ClassifyPrompt ;;
     let response_text := strip reply in
     match decode_decisions response_text with
     | None => ret (categorized [] [] [] (PList []))
     | Some decisions =>
         lift (ds <- iter decisions ;;
               decision_map <- dict_by_id ds [] ;;
               items <- iter issues ;;
               parts <- partition_loop decision_map items [] [] [] ;;
               let '(features, fixes, excluded) := parts in
               Ok (categorized features fixes excluded decisions))%py
     end)%world.

(** ** Grouper *)

Definition backend_keywords : list string := ["backend"; "endpoint"; "api"; "schema"].

(** [any(keyword in e.get('reason', '').lower() for keyword in [...])] *)
Definition is_potential_backend (e : value) : outcome bool :=
  reason <- get e "reason" (PStr "") ;;
  lowered <- lower reason ;;
  Ok (existsb (fun keyword => contains keyword lowered) backend_keywords).

Fixpoint ofilter (f : value -> outcome bool) (xs : list value) : outcome (list value) :=
  match xs with
  | [] => Ok []
  | x :: rest =>
      keep <- f x ;;
      kept <- ofilter f rest ;;
      Ok (if keep : bool then x :: kept else kept)
  end.

(** [features + fixes + potential_backend], the last a list: the sum of
    two values that are not both lists either raises or is no list, and
    then the second sum raises; [TypeError] in both cases. *)
Definition all_tickets_of (features fixes : value) (potential_backend : list value)
  : outcome (list value) :=
  match features, fixes with
  | PList fs, PList xs => Ok (fs ++ xs ++ potential_backend)%list
  | _, _ => Raise TypeError
  end.

(** [format_ticket] of the grouper; the tests [t in features] and
    [t in fixes] of its last line compare values and do not raise. *)
Definition group_format_ticket (t : value) : outcome unit :=
  assignee <- get t "assignee" (PDict []) ;;
  _ <- (if truthy assignee then get assignee "name" (PStr "Unassigned")
        else Ok (PStr "Unassigned")) ;;
  p <- get t "project" PNone ;;
  _ <- (if truthy p
        then (q <- get t "project" (PDict []) ;; get q "name" (PStr "None"))
        else Ok (PStr "None")) ;;
  updatedAt <- get t "updatedAt" (PStr "Unknown") ;;
  _ <- slice_to 10 updatedAt ;;
  _ <- getitem t "id" ;;
  _ <- getitem t "title" ;;
  Ok tt.

(** Same discipline as [decode_decisions], with the brace pattern. *)
Definition decode_grouping (response_text : string) : option value :=
  match json.decode response_text with
  | Some result => Some result
  | None =>
      match re.search_delimited "{" "}" response_text with
      | Some m => json.decode m
      | None => None
      end
  end.

Definition placeholder (tid : value) : value :=
  PDict [("id", tid); ("title", PStr "Unknown")].

(** [all_by_id.get(tid, {"id": tid, "title": "Unknown"})] *)
Definition resolve (all_by_id : idmap) (tid : value) : outcome value :=
  idmap_get tid all_by_id (placeholder tid).

Definition enrich_group (all_by_id : idmap) (group : value) : outcome value :=
  name <- getitem group "name" ;;
  summary <- get group "summary" (PStr "") ;;
  members <- get group "tickets" (PList []) ;;
  tids <- iter members ;;
  tickets <- omap (resolve all_by_id) tids ;;
  Ok (PDict [("name", name); ("summary", summary); ("tickets", PList tickets)]).

Definition grouped (groups ungrouped_fixes : list value) : value :=
  PDict [("groups", PList groups); ("ungrouped_fixes", PList ungrouped_fixes)].

(** Lines 299 to 320: the candidate tickets, each rendered into the prompt. *)
Definition candidate_tickets (features fixes excluded : value) : outcome (list value) :=
  es <- iter excluded ;;
  potential_backend <- ofilter is_potential_backend es ;;
  all_tickets <- all_tickets_of features fixes potential_backend ;;
  _ <- omap group_format_ticket all_tickets ;;
  Ok all_tickets.

(** Lines 386 and 388: what is returned when neither tier decodes the reply. *)
Definition ungrouped_fallback (fixes : value) : outcome value :=
  xs <- iter fixes ;;
  ids <- omap (fun t => getitem t "id") xs ;;
  Ok (grouped [] ids).

(** Lines 390 to 406: the groups and the ungrouped fixes of the decoded
    [result], with their ticket ids resolved. *)
Definition enrich (all_tickets : list value) (result : value) : outcome value :=
  all_by_id <- dict_by_id all_tickets [] ;;
  groups <- get result "groups" (PList []) ;;
  gs <- iter groups ;;
  enriched_groups <- omap (enrich_group all_by_id) gs ;;
  ungrouped_ids <- get result "ungrouped_fixes" (PList []) ;;
  tids <- iter ungrouped_ids ;;
  ungrouped <- omap (resolve all_by_id) tids ;;
  Ok (grouped enriched_groups ungrouped).

Definition group_related_tickets (categorized_issues : value) : M value :=
  (features <- lift (get categorized_issues "features" (PList [])) ;;
   fixes <- lift (get categorized_issues "fixes" (PList [])) ;;
   excluded <- lift (get categorized_issues "excluded" (PList [])) ;;
   if andb (negb (truthy features)) (negb (truthy fixes)) then ret (grouped [] [])
   else
     all_tickets <- lift (candidate_tickets features fixes excluded) ;;
     reply <- create_message GroupPrompt ;;
     let response_text := strip reply in
     match decode_grouping response_text with
     | None => lift (ungrouped_fallback fixes)
     | Some result => lift (enrich all_tickets result)
     end)%world.

(** ** Drafter *)

Definition format_group (group : value) : outcome unit :=
  members <- get group "tickets" (PList []) ;;
  ts <- iter members ;;
  _ <- omap (fun t =>
               _ <- getitem t "title" ;;
               d <- get t "description" PNone ;;
               slice_to 800 (or_ d (PStr "No description"))) ts ;;
  _ <- getitem group "name" ;;
  _ <- get group "summary" (PStr "N/A") ;;
  Ok tt.

Definition draft_format_ticket (t : value) : outcome unit :=
  _ <- getitem t "title" ;;
  d <- get t "description" PNone ;;
  _ <- slice_to 1000 (or_ d (PStr "No description")) ;;
  Ok tt.

Definition draft_release_notes (categorized_issues grouped_data : value) : M string :=
  (groups <- lift (get grouped_data "groups" (PList [])) ;;
   ungrouped_fixes <- lift (get grouped_data "ungrouped_fixes" (PList [])) ;;
   features <- lift (get categorized_issues "features" (PList [])) ;;
   fixes <- lift (get categorized_issues "fixes" (PList [])) ;;
   if andb (negb (truthy features)) (negb (truthy fixes)) then ret ""
   else
     lift (if truthy groups
           then (gs <- iter groups ;; _ <- omap format_group gs ;; Ok tt)
           else if truthy features
           then (fs <- iter features ;; _ <- omap draft_format_ticket fs ;; Ok tt)
           else Ok tt)%py ;;;
     lift (if truthy ungrouped_fixes
           then (us <- iter ungrouped_fixes ;; _ <- omap draft_format_ticket us ;; Ok tt)
           else if truthy fixes
           then (xs <- iter fixes ;; _ <- omap draft_format_ticket xs ;; Ok tt)
           else Ok tt)%py ;;;
     reply <- create_message DraftPrompt ;;
     ret (strip reply))%world.

(** ** Delivery *)

(** Returns whether the notes were delivered; every exception of the
    request is caught. *)
Definition send_to_slack (release_notes : string) (since_date : value)
    (end_date : string) : M bool :=
  (url <- ask SLACK_WEBHOOK_URL ;;
   match url with
   | None => ret false
   | Some u =>
       if String.eqb u "" then ret false
       else
         log (Post u) ;;;
         status <- ask webhook ;;
         ret (match status with
              | Ok code => Z.eqb code 200
              | Raise _ => false
              end)
   end)%world.

(** ** The run *)

(** The start boundary: lines 599 to 612 of [main].  An unset variable
    and an empty one both fail the test [if start_date_override]. *)
Definition main_since : M value :=
  (start_date_override <- ask START_DATE ;;
   match start_date_override with
   | Some (String _ _ as s) => ret (PStr (strip s))
   | _ =>
       last_run <- load_last_run ;;
       if truthy last_run then ret last_run
       else
         today <- ask now ;;
         ret (PStr (datetime.strftime_Ymd (datetime.days_before 7 today)))
   end)%world.

Definition get_assignee_name (issue : value) : outcome value :=
  assignee <- get issue "assignee" PNone ;;
  if negb (truthy assignee) then Ok (PStr "Unassigned")
  else
    email <- get assignee "email" (PStr "Unknown") ;;
    get assignee "name" email.

(** What the three stage listings evaluate: the length of the list, then
    for each item its title, assignee and reason. *)
Definition print_stage (items : value) : outcome unit :=
  _ <- len items ;;
  its <- iter items ;;
  _ <- omap (fun item =>
               _ <- getitem item "title" ;;
               _ <- get_assignee_name item ;;
               get item "reason" (PStr "N/A")) its ;;
  Ok tt.

Definition print_group (group : value) : outcome unit :=
  _ <- getitem group "name" ;;
  _ <- get group "summary" (PStr "N/A") ;;
  members <- get group "tickets" (PList []) ;;
  ts <- iter members ;;
  _ <- omap (fun ticket =>
               assignee <- get ticket "assignee" (PDict []) ;;
               _ <- (if truthy assignee then get assignee "name" (PStr "Unassigned")
                     else Ok (PStr "Unassigned")) ;;
               getitem ticket "title") ts ;;
  Ok tt.

Definition print_ungrouped (ticket : value) : outcome value :=
  default <- get ticket "id" (PStr "Unknown") ;;
  get ticket "title" default.

Definition is_empty (v : value) : outcome bool :=
  n <- len v ;; Ok (Nat.eqb n 0).

Definition main : M unit :=
  (since <- main_since ;;
   issues <- fetch_completed_issues since ;;
   lift (len issues) ;;;
   if negb (truthy issues) then ret tt
   else
     categorized <- filter_customer_worthy issues ;;
     features <- lift (get categorized "features" (PList [])) ;;
     fixes <- lift (get categorized "fixes" (PList [])) ;;
     excluded <- lift (get categorized "excluded" (PList [])) ;;
     lift (print_stage features) ;;;
     lift (print_stage fixes) ;;;
     lift (print_stage excluded) ;;;
     no_features <- lift (is_empty features) ;;
     no_fixes <- lift (if no_features : bool then is_empty fixes else Ok false) ;;
     if andb no_features no_fixes then ret tt
     else
       grouped_data <- group_related_tickets categorized ;;
       groups <- lift (get grouped_data "groups" (PList [])) ;;
       ungrouped_fixes <- lift (get grouped_data "ungrouped_fixes" (PList [])) ;;
       lift (if truthy groups
             then (_ <- len groups ;; gs <- iter groups ;;
                   _ <- omap print_group gs ;; Ok tt)
             else Ok tt)%py ;;;
       lift (if truthy ungrouped_fixes
             then (_ <- len ungrouped_fixes ;; us <- iter ungrouped_fixes ;;
                   _ <- omap print_ungrouped us ;; Ok tt)
             else Ok tt)%py ;;;
       release_notes <- draft_release_notes categorized grouped_data ;;
       today <- ask now ;;
       let today := datetime.strftime_Ymd today in
       send_to_slack release_notes since today ;;;
       save_last_run today)%world.

End changelog_bot.

(* ================================================================== *)
(** * customer_release_notes.py: the generic flow and the command line *)
(* ================================================================== *)

Module customer_release_notes.
Import Py World.

Definition generate_generic_release_notes (features fixes : value) : M string :=
  (let categorized :=
     PDict [("features", features); ("fixes", fixes); ("excluded", PList [])] in
   grouped <- changelog_bot.group_related_tickets categorized ;;
   changelog_bot.draft_release_notes categorized grouped)%world.

(** The start boundary: lines 270 to 275 of [main], [since_date] being the
    argument of [--since]. *)
Definition main_since (since_date : option string) : M value :=
  (match since_date with
   | Some (String _ _ as s) => ret (PStr s)
   | _ =>
       last_run <- changelog_bot.load_last_run ;;
       if truthy last_run then ret last_run
       else
         today <- ask now ;;
         ret (PStr (datetime.strftime_Ymd (datetime.days_before 7 today)))
   end)%world.

(** [main] without a customer name, the generic flow: lines 270 to 295 and
    331 to 375.  It returns [None] where it returns early, the release
    notes at the end; the exceptions of the webhook request are caught. *)
Definition main (since_date : option string) (send_to_slack : bool) : M value :=
  (since <- main_since since_date ;;
   issues <- changelog_bot.fetch_completed_issues since ;;
   lift (len issues) ;;;
   if negb (truthy issues) then ret PNone
   else
     categorized <- changelog_bot.filter_customer_worthy issues ;;
     features <- lift (get categorized "features" (PList [])) ;;
     fixes <- lift (get categorized "fixes" (PList [])) ;;
     lift (len features) ;;;
     lift (len fixes) ;;;
     if andb (negb (truthy features)) (negb (truthy fixes)) then ret PNone
     else
       release_notes <- generate_generic_release_notes features fixes ;;
       (if send_to_slack then
          slack_webhook <- ask SLACK_WEBHOOK_URL ;;
          match slack_webhook with
          | Some (String _ _ as u) => log (Post u) ;;; ask webhook ;;; ret tt
          | _ => ret tt
          end
        else ret tt) ;;;
       ret (PStr release_notes))%world.

(** The command line: lines 382 to 408.  [int] is the conversion of the
    value of [--days], which raises on a text that is no integer. *)
Record options : Type := {
  customer : option string;
  days : Z;
  since : option string;
  send_slack : bool
}.

Definition defaults : options :=
  {| customer := None; days := 30; since := None; send_slack := false |}.

Section arguments.

Variable int : string -> outcome Z.

(** The loop [while i < len(args)] from the position of [args] on: a
    flag that takes a value takes the next argument, whatever it is, and
    is skipped like an unknown flag when it is the last argument. *)
Fixpoint parse_args (args : list string) (o : options) : outcome options :=
  match args with
  | [] => Ok o
  | arg :: rest =>
      let otherwise :=
        if String.eqb arg "--slack" then
          parse_args rest {| customer := customer o; days := days o;
                             since := since o; send_slack := true |}
        else if negb (String.prefix "--" arg) then
          parse_args rest {| customer := Some arg; days := days o;
                             since := since o; send_slack := send_slack o |}
        else parse_args rest o in
      match rest with
      | next :: rest' =>
          if String.eqb arg "--customer" then
            parse_args rest' {| customer := Some next; days := days o;
                                since := since o; send_slack := send_slack o |}
          else if String.eqb arg "--days" then
            obind (int next) (fun d =>
              parse_args rest' {| customer := customer o; days := d;
                                  since := since o; send_slack := send_slack o |})
          else if String.eqb arg "--since" then
            parse_args rest' {| customer := customer o; days := days o;
                                since := Some next; send_slack := send_slack o |}
          else otherwise
      | [] => otherwise
      end
  end.

End arguments.

End customer_release_notes.

(* ================================================================== *)
(** * fetch_tickets.py *)
(* ================================================================== *)

Module fetch_tickets.
Import Py World.
Local Open Scope py_scope.

(** [run_query(query, {"since": since_date})]: the POST to the tracker and
    the JSON of its response. *)
Definition run_query (since_date : value) : M value :=
  (log (Query since_date) ;;; (fun w => (tracker (env w), w)))%world.

Definition fetch_completed_issues (since_date : value) : M value :=
  (result <- run_query since_date ;;
   lift (data <- get result "data" (PDict []) ;;
         issues <- get data "issues" (PDict []) ;;
         get issues "nodes" (PList []))%py)%world.

(** [desc += "..."]: three dots after a str; a list is extended by the
    three characters. *)
Definition add_dots (desc : value) : outcome value :=
  match desc with
  | PStr s => Ok (PStr (s ++ "..."))
  | PList l => Ok (PList (l ++ [PStr "."; PStr "."; PStr "."])%list)
  | _ => Raise TypeError
  end.

(** Lines 87 to 91: the description that is printed, if there is one. *)
Definition description_line (issue : value) : outcome (option value) :=
  d <- get issue "description" PNone ;;
  if truthy d then
    description <- getitem issue "description" ;;
    desc <- slice_to 150 description ;;
    description <- getitem issue "description" ;;
    n <- len description ;;
    if Nat.ltb 150 n then (desc <- add_dots desc ;; Ok (Some desc))
    else Ok (Some desc)
  else Ok None.

(** The body of the loop of [main]: what it evaluates, in order, and the
    description line. *)
Definition print_issue (issue : value) : outcome (option value) :=
  project <- get issue "project" (PDict []) ;;
  _ <- (if truthy project then get project "name" PNone
        else Ok (PStr "No Project")) ;;
  team <- get issue "team" (PDict []) ;;
  _ <- get team "name" (PStr "Unknown") ;;
  labels_obj <- get issue "labels" (PDict []) ;;
  nodes <- get labels_obj "nodes" (PList []) ;;
  ls <- iter nodes ;;
  labels <- omap (fun l => getitem l "name") ls ;;
  _ <- getitem issue "title" ;;
  _ <- (match labels with
        | [] => Ok ""%string
        | _ => join ", " labels
        end) ;;
  updatedAt <- getitem issue "updatedAt" ;;
  _ <- slice_to 10 updatedAt ;;
  description_line issue.

(** [main] returns the description lines it has printed. *)
Definition main : M (list (option value)) :=
  (today <- ask now ;;
   let since := PStr (datetime.strftime_Ymd (datetime.days_before 30 today)) in
   issues <- fetch_completed_issues since ;;
   if negb (truthy issues) then ret []
   else
     lift (_ <- len issues ;;
           items <- iter issues ;;
           omap print_issue items)%py)%world.

End fetch_tickets.

(* ================================================================== *)
(** * Notions used in the statements *)
(* ================================================================== *)

Module Spec.
Import Py World changelog_bot.
Local Open Scope py_scope.

Inductive category : Type := Feature | Fix | Excluded.

Definition category_eqb (a b : category) : bool :=
  match a, b with
  | Feature, Feature | Fix, Fix | Excluded, Excluded => true
  | _, _ => false
  end.

(** Where one ticket goes, and with which reason attached: the body of the
    loop of the classifier, for one ticket. *)
Definition placement (decision_map : idmap) (issue : value)
  : outcome (category * value) :=
  id <- getitem issue "id" ;;
  d <- idmap_get id decision_map (PDict []) ;;
  decision <- get d "decision" (PStr "exclude") ;;
  reason <- get d "reason" (PStr "No reason given") ;;
  issue_with_reason <- with_reason issue reason ;;
  Ok (if eq_str decision "feature" then Feature
      else if eq_str decision "fix" then Fix
      else Excluded,
      issue_with_reason).

Definition select (c : category) (ps : list (category * value)) : list value :=
  map snd (filter (fun p => category_eqb (fst p) c) ps).

(** Whether the decision or the ticket [d] has the id [id]: whether
    [d['id']] and [id] are hashable and the same key of a dict. *)
Definition matches (id d : value) : bool :=
  match key_of id, getitem d "id" with
  | Some k, Ok i =>
      match key_of i with
      | Some k' => key_eqb k k'
      | None => false
      end
  | _, _ => false
  end.

(** The entry that the classifier reads for a ticket id:
    [decision_map.get(id, {})]. *)
Definition decision_for (decisions id : value) : outcome value :=
  ds <- iter decisions ;;
  decision_map <- dict_by_id ds [] ;;
  idmap_get id decision_map (PDict []).

(** The items of the list under a key of a dict: of a result of the
    classifier or of the grouper, or of a decoded reply. *)
Definition part (result : value) (k : string) : list value :=
  match (x <- get result k (PList []) ;; iter x) with
  | Ok l => l
  | Raise _ => []
  end.

(** What an id resolves to among the candidate tickets: a candidate with
    that id, or the placeholder object when no candidate has it. *)
Definition resolved (all_tickets : list value) (tid t : value) : Prop :=
  (In t all_tickets /\ matches tid t = true) \/
  (t = PDict [("id", tid); ("title", PStr "Unknown")] /\
   forall c, In c all_tickets -> matches tid c = false).




(** Whether the character [c] occurs in [s]. *)
Fixpoint mentions (c : ascii) (s : string) : bool :=
  match s with
  | EmptyString => false
  | String a r => orb (Ascii.eqb a c) (mentions c r)
  end.

(** [w'] is a later world than [w] in which the state file is as in [w]
    and was not opened for writing in between. *)
Definition quiet (w w' : world) : Prop :=
  env w' = env w /\
  state_file w' = state_file w /\
  exists events,
    trace w' = (trace w ++ events)%list /\
    Forall (fun e => e <> OpenForWriting) events.

Definition quiet_action {A : Type} (c : M A) : Prop :=
  forall w r w', c w = (r, w') -> quiet w w'.

(** A run of [main] that reaches the checkpoint update: it has fetched
    tickets, classified them with a feature or a fix among them, grouped,
    drafted and delivered, all of it without touching the state file, and
    ends with [save_last_run] of today's date. *)
Definition delivered_run (w : world) (r : outcome unit) (w' : world) : Prop :=
  let today := datetime.strftime_Ymd (now (env w)) in
  exists since issues w2 categorized w3 grouped_data w4 notes w5 sent w6,
    main_since w = (Ok since, w) /\
    fetch_completed_issues since w = (Ok issues, w2) /\
    truthy issues = true /\
    filter_customer_worthy issues w2 = (Ok categorized, w3) /\
    (part categorized "features" <> [] \/ part categorized "fixes" <> []) /\
    group_related_tickets categorized w3 = (Ok grouped_data, w4) /\
    draft_release_notes categorized grouped_data w4 = (Ok notes, w5) /\
    send_to_slack notes since today w5 = (Ok sent, w6) /\
    quiet w w6 /\
    save_last_run today w6 = (r, w').

(** What [main] evaluates to list a ticket of a stage: its title, the name
    of its assignee, its reason. *)
Definition listed (item : value) : outcome value :=
  _ <- getitem item "title" ;;
  _ <- get_assignee_name item ;;
  get item "reason" (PStr "N/A").

(** The events of [w'] that [w] does not have yet include [e]. *)
Definition happened (e : event) (w w' : world) : Prop :=
  exists events, trace w' = (trace w ++ events)%list /\ In e events.

(** The text that the inference service gives to the next call. *)
Definition next_text (w : world) : outcome string :=
  match inference w with
  | Ok blocks :: _ => first_text blocks
  | Raise e :: _ => Raise e
  | [] => Raise ServiceError
  end.

End Spec.

(* ================================================================== *)
(** * Sample data *)
(* ================================================================== *)

Module Sample.
Import Py World.

(** A JSON text written with apostrophes in place of its double quotes. *)
Definition dq (s : string) : string :=
  string_of_list_ascii
    (map (fun c => if Ascii.eqb c "'" then "034"%char else c)
       (list_ascii_of_string s)).

Definition ticket (id title : string) : value :=
  PDict [("id", PStr id); ("title", PStr title)].

Definition csv_export : value := ticket "A" "Add CSV export".
Definition typo : value := ticket "B" "Fix typo in error toast".
Definition auth_schema : value := ticket "C" "Refactor internal auth schema".

Definition three_tickets : list value := [csv_export; typo; auth_schema].

(** A reply with a reasoning block and then the text [s]. *)
Definition says (s : string) : outcome (list block) :=
  Ok [ {| type := "thinking"; text := "" |}; {| type := "text"; text := s |} ].

Definition march_4 : datetime.date :=
  {| datetime.year := 2026; datetime.month := 3; datetime.day := 4 |}.

Definition tracker_body (tickets : list value) : value :=
  PDict [("data", PDict [("issues", PDict [("nodes", PList tickets)])])].

Definition plain_env : environment :=
  {| START_DATE := None; SLACK_WEBHOOK_URL := None; state_file_write := Written;
     now := march_4; tracker := Ok (tracker_body three_tickets);
     webhook := Ok 200%Z |}.

(** A first run (no state file) in which the service gives [replies]. *)
Definition world_with (replies : list (outcome (list block))) : world :=
  {| env := plain_env; state_file := None; inference := replies; trace := [] |}.

Definition decisions_text : string :=
  dq "[{'id': 'A', 'decision': 'feature', 'reason': 'New export capability'},
       {'id': 'B', 'decision': 'fix', 'reason': 'Copy fix'},
       {'id': 'C', 'decision': 'exclude', 'reason': 'Backend schema work'}]".

(** A later run: the state file holds a checkpoint. *)
Definition checkpoint_text : string := dq "{'last_run': '2026-02-20'}".

Definition later_run : world :=
  {| env := plain_env; state_file := Some checkpoint_text;
     inference := []; trace := [] |}.

(** The same, with START_DATE set by the operator. *)
Definition overridden_run : world :=
  {| env := {| START_DATE := Some " 2026-01-15 "; SLACK_WEBHOOK_URL := None;
               state_file_write := Written; now := march_4;
               tracker := Ok (tracker_body three_tickets); webhook := Ok 200%Z |};
     state_file := Some checkpoint_text; inference := []; trace := [] |}.

(** Decisions for the tickets A and B only. *)
Definition two_decisions_text : string :=
  dq "[{'id': 'A', 'decision': 'feature', 'reason': 'New export capability'},
       {'id': 'B', 'decision': 'fix'}]".

Definition decoded (text : string) : value :=
  match json.decode text with
  | Some v => v
  | None => PNone
  end.

Definition items_of (v : value) : list value :=
  match v with
  | PList l => l
  | _ => []
  end.

(** The ticket B as the classifier returns it among the fixes. *)
Definition typo_fix : value :=
  PDict [("id", PStr "B"); ("title", PStr "Fix typo in error toast");
         ("reason", PStr "Copy fix")].

(** The classification in which B is the only customer-worthy ticket. *)
Definition one_fix : value := changelog_bot.categorized [] [typo_fix] [] (PList []).

(** A grouping reply that neither tier can decode. *)
Definition no_grouping : outcome (list block) := says "I could not group these tickets.".

(** A run that goes through to delivery, on a state file that cannot be
    opened for writing. *)
Definition grouping_text : string :=
  dq "{'groups': [{'name': 'Data export', 'tickets': ['A'], 'summary': 'Export'}],
       'ungrouped_fixes': ['B']}".

Definition full_replies : list (outcome (list block)) :=
  [says decisions_text; says grouping_text; says "*New features*"].

Definition read_only_run : world :=
  {| env := {| START_DATE := None; SLACK_WEBHOOK_URL := None;
               state_file_write := Refused; now := march_4;
               tracker := Ok (tracker_body three_tickets); webhook := Ok 200%Z |};
     state_file := Some checkpoint_text; inference := full_replies; trace := [] |}.

(** The same run on a state file that is opened, and emptied, but whose
    write fails after five bytes. *)
Definition torn_run : world :=
  {| env := {| START_DATE := None; SLACK_WEBHOOK_URL := None;
               state_file_write := Torn 5; now := march_4;
               tracker := Ok (tracker_body three_tickets); webhook := Ok 200%Z |};
     state_file := Some checkpoint_text; inference := full_replies; trace := [] |}.

(** A run in which the tracker has no completed ticket. *)
Definition idle_run : world :=
  {| env := {| START_DATE := None; SLACK_WEBHOOK_URL := None;
               state_file_write := Written; now := march_4;
               tracker := Ok (tracker_body []); webhook := Ok 200%Z |};
     state_file := Some checkpoint_text; inference := full_replies; trace := [] |}.

Definition index_of (tickets : list value) : idmap :=
  match changelog_bot.dict_by_id tickets [] with
  | Ok m => m
  | Raise _ => []
  end.

Definition value_of (r : outcome value * world) : value :=
  match fst r with
  | Ok v => v
  | Raise _ => PNone
  end.

End Sample.

(* ================================================================== *)
(** * Notions used in the further statements *)
(* ================================================================== *)

Module Further.
Import Py World changelog_bot Spec.
Local Open Scope py_scope.

(** The world in which the webhook answers [answer]. *)
Definition with_webhook (answer : outcome Z) (w : world) : world :=
  {| env := {| START_DATE := START_DATE (env w);
               SLACK_WEBHOOK_URL := SLACK_WEBHOOK_URL (env w);
               state_file_write := state_file_write (env w);
               now := now (env w); tracker := tracker (env w);
               webhook := answer |};
     state_file := state_file w; inference := inference w; trace := trace w |}.

Definition is_create (e : event) : bool :=
  match e with
  | Create _ => true
  | _ => false
  end.

(** The number of calls to the inference service among the events. *)
Definition creations (events : list event) : nat := length (filter is_create events).

(** [w'] comes after [w] in the same environment, the program having done
    [events] in between, each call to the inference service taking one of
    the replies to come. *)
Definition extends (w w' : world) (events : list event) : Prop :=
  env w' = env w /\
  trace w' = (trace w ++ events)%list /\
  inference w' = skipn (creations events) (inference w).

(** What a run does up to the draft, and the post of a configured webhook. *)
Definition pipeline_events (since : value) : list event :=
  [Query since; Create ClassifyPrompt; Create GroupPrompt; Create DraftPrompt].

Definition posts (url : option string) : list event :=
  match url with
  | Some (String _ _ as u) => [Post u]
  | _ => []
  end.

(** An action that runs the same whatever the webhook answers. *)
Definition webhook_blind {A : Type} (c : M A) : Prop :=
  forall answer w,
    c (with_webhook answer w) = (fst (c w), with_webhook answer (snd (c w))).

(** A run whose state file is not JSON, and one whose tracker answers with
    errors and no data. *)
Definition garbled_run : world :=
  {| env := Sample.plain_env; state_file := Some "last_run=2026-02-20";
     inference := Sample.full_replies; trace := [] |}.

Definition refused_run : world :=
  {| env := {| START_DATE := None; SLACK_WEBHOOK_URL := None;
               state_file_write := Written; now := Sample.march_4;
               tracker := Ok (PDict [("errors", PList [PStr "Authentication required"])]);
               webhook := Ok 200%Z |};
     state_file := None; inference := Sample.full_replies; trace := [] |}.

(** A ticket that the drafter can render: a dict with a title, whose
    description, if it has one that is not empty, is a str (or a list). *)
Definition renderable (t : value) : Prop :=
  exists d,
    t = PDict d /\
    dict_lookup "title" d <> None /\
    match dict_lookup "description" d with
    | Some (PStr _) | Some (PList _) | Some PNone | None => True
    | Some v => truthy v = false
    end.

(** A str of ASCII characters. *)
Fixpoint is_ascii (s : string) : bool :=
  match s with
  | EmptyString => true
  | String c r => andb (Nat.ltb (nat_of_ascii c) 128) (is_ascii r)
  end.

(** What [save_last_run] writes for a timestamp. *)
Definition checkpoint_record (timestamp : string) : string :=
  "{" ++ json.dumps_str "last_run" ++ ": " ++ json.dumps_str timestamp ++ "}".

(** The classification has no feature and no fix: the test
    [not features and not fixes] of the grouper and of the drafter. *)
Definition nothing_worthy (categorized_issues : value) : Prop :=
  exists features fixes,
    get categorized_issues "features" (PList []) = Ok features /\
    get categorized_issues "fixes" (PList []) = Ok fixes /\
    truthy features = false /\ truthy fixes = false.

(** [get_comments] with what it collects: the list [comment_texts], each
    item as the user and the body that its line is formatted from. *)
Fixpoint comment_texts_loop (max_chars : nat) (comments : list value)
    (total_chars : nat) (comment_texts : list (value * value))
  : outcome (list (value * value)) :=
  match comments with
  | [] => Ok comment_texts
  | c :: rest =>
      user_obj <- get c "user" PNone ;;
      user <- (if truthy user_obj then get user_obj "name" (PStr "Unknown")
               else Ok (PStr "Unknown")) ;;
      b <- get c "body" PNone ;;
      body <- slice_to 300 (or_ b (PStr "")) ;;
      if negb (truthy body)
      then comment_texts_loop max_chars rest total_chars comment_texts
      else
        n <- len body ;;
        if Nat.ltb max_chars (total_chars + n) then Ok comment_texts
        else comment_texts_loop max_chars rest (total_chars + n)
               (comment_texts ++ [(user, body)])%list
  end.

Definition comment_texts (issue : value) : outcome (list (value * value)) :=
  comments_obj <- get issue "comments" (PDict []) ;;
  comments <- get comments_obj "nodes" (PList []) ;;
  if negb (truthy comments) then Ok []
  else
    first5 <- slice_to 5 comments ;;
    cs <- iter first5 ;;
    comment_texts_loop 800 cs 0 [].

(** [len(v)], 0 where there is none. *)
Definition size (v : value) : nat :=
  match len v with
  | Ok n => n
  | Raise _ => 0
  end.

Definition total_size (texts : list (value * value)) : nat :=
  list_sum (map (fun t => size (snd t)) texts).

(** The options [o] come from [o0] and the arguments [args]: each one is
    as in [o0] or was taken from the arguments, the start date from right
    after a [--since]. *)
Definition drawn_from (args : list string) (o0 o : customer_release_notes.options)
  : Prop :=
  let customer := customer_release_notes.customer in
  let since := customer_release_notes.since in
  let send_slack := customer_release_notes.send_slack in
  let days := customer_release_notes.days in
  (customer o = customer o0 \/ exists c, customer o = Some c /\ In c args) /\
  (since o = since o0 \/
   exists s before after,
     since o = Some s /\ args = (before ++ "--since"%string :: s :: after)%list) /\
  (send_slack o = send_slack o0 \/ In "--slack"%string args) /\
  (days o = days o0 \/ In "--days"%string args).

(** A str that does not begin in the middle of a character, as every
    encoded str does. *)
Definition whole (s : string) : Prop :=
  match s with
  | String c _ => is_cont c = false
  | EmptyString => True
  end.

(** A decoded reply that holds something to iterate over or nothing
    iterable, and is no array: an object with a key, a str with a
    character, a number, a boolean, null. *)
Definition no_array (v : value) : Prop :=
  match v with
  | PList _ | PDict [] | PStr EmptyString => False
  | _ => True
  end.

End Further.

(* ================================================================== *)
(** * Properties *)
(* ================================================================== *)

Import Py World changelog_bot Spec Further.
Local Open Scope py_scope.

Lemma partition_loop_spec (dm : idmap) (issues fs xs es : list value) :
  partition_loop dm issues fs xs es =
  (ps <- omap (placement dm) issues ;;
   Ok ((fs ++ select Feature ps)%list, (xs ++ select Fix ps)%list,
       (es ++ select Excluded ps)%list)).
Proof.
  revert fs xs es.
  induction issues as [|issue rest IH]; intros fs xs es.
  - cbn. now rewrite !app_nil_r.
  - cbn [partition_loop omap]. unfold placement at 1.
    destruct (getitem issue "id") as [id|]; [|reflexivity]. cbn [obind].
    destruct (idmap_get id dm (PDict [])) as [d|]; [|reflexivity]. cbn [obind].
    destruct (get d "decision" (PStr "exclude")) as [decision|]; [|reflexivity].
    cbn [obind].
    destruct (get d "reason" (PStr "No reason given")) as [reason|]; [|reflexivity].
    cbn [obind].
    destruct (with_reason issue reason) as [iwr|]; [|reflexivity]. cbn [obind].
    destruct (eq_str decision "feature");
      [|destruct (eq_str decision "fix")];
      rewrite IH; destruct (omap (placement dm) rest) as [ps|]; cbn [obind];
      try reflexivity;
      unfold select; cbn [filter fst snd category_eqb map];
      now rewrite <- ?app_assoc.
Qed.

(** ** The monad of the world *)

Lemma bind_Ok {A B : Type} (c : M A) (k : A -> M B) (w : world) (b : B) (w' : world) :
  bind c k w = (Ok b, w') ->
  exists a w1, c w = (Ok a, w1) /\ k a w1 = (Ok b, w').
Proof.
  unfold bind. destruct (c w) as [[a|e] w1]; [|discriminate].
  intros H. now exists a, w1.
Qed.

Lemma lift_run {A : Type} (c : outcome A) (w : world) (r : outcome A) (w' : world) :
  lift c w = (r, w') -> r = c /\ w' = w.
Proof. unfold lift. intros H. now inversion H. Qed.

Lemma create_message_run (p : prompt) (w : world) :
  exists w',
    create_message p w = (next_text w, w') /\
    env w' = env w /\ state_file w' = state_file w /\
    trace w' = (trace w ++ [Create p])%list.
Proof.
  unfold create_message, bind, log, next_reply, next_text, lift.
  cbn [inference logged].
  destruct (inference w) as [|[blocks|e] rest]; eexists; repeat split; reflexivity.
Qed.

Lemma filter_customer_worthy_inv (issues : value) (w : world) (r : value) (w' : world) :
  truthy issues = true ->
  filter_customer_worthy issues w = (Ok r, w') ->
  exists reply,
    next_text w = Ok reply /\
    match decode_decisions (strip reply) with
    | None => r = categorized [] [] [] (PList [])
    | Some decisions =>
        exists ds dm items ps,
          iter decisions = Ok ds /\
          dict_by_id ds [] = Ok dm /\
          iter issues = Ok items /\
          omap (placement dm) items = Ok ps /\
          r = categorized (select Feature ps) (select Fix ps) (select Excluded ps)
                decisions
    end.
Proof.
  intros Hne Hrun. unfold filter_customer_worthy in Hrun. rewrite Hne in Hrun.
  cbn [negb] in Hrun.
  apply bind_Ok in Hrun as (u & w1 & Hprompt & Hrun).
  apply lift_run in Hprompt as [_ ->].
  apply bind_Ok in Hrun as (reply & w2 & Hcall & Hrun).
  destruct (create_message_run ClassifyPrompt w) as (w2' & Hc & _).
  rewrite Hc in Hcall. inversion Hcall as [[Hreply Hw2]].
  exists reply. split; [exact Hreply|].
  destruct (decode_decisions (strip reply)) as [decisions|].
  - apply lift_run in Hrun as [Hr _]. symmetry in Hr.
    destruct (iter decisions) as [ds|] eqn:Hds; [|discriminate]. cbn [obind] in Hr.
    destruct (dict_by_id ds []) as [dm|] eqn:Hdm; [|discriminate].
    cbn [obind] in Hr.
    destruct (iter issues) as [items|] eqn:Hitems; [|discriminate]. cbn [obind] in Hr.
    rewrite partition_loop_spec in Hr.
    destruct (omap (placement dm) items) as [ps|] eqn:Hps; [|discriminate].
    cbn [obind app] in Hr. inversion Hr.
    now exists ds, dm, items, ps.
  - unfold ret in Hrun. now inversion Hrun.
Qed.

(** ** Classifier *)

Lemma omap_length {A B : Type} (f : A -> outcome B) (xs : list A) (ys : list B) :
  omap f xs = Ok ys -> length ys = length xs.
Proof.
  revert ys. induction xs as [|x rest IH]; intros ys H; cbn in H.
  - now inversion H.
  - destruct (f x) as [y|]; [|discriminate]. cbn in H.
    destruct (omap f rest) as [ys'|]; [|discriminate]. cbn in H.
    inversion H. cbn. now rewrite (IH ys').
Qed.

Lemma omap_In {A B : Type} (f : A -> outcome B) (xs : list A) (ys : list B) (x : A) :
  omap f xs = Ok ys -> In x xs -> exists y, f x = Ok y /\ In y ys.
Proof.
  revert ys. induction xs as [|x' rest IH]; intros ys H Hin; [contradiction|].
  cbn in H.
  destruct (f x') as [y'|] eqn:Hfx; [|discriminate]. cbn in H.
  destruct (omap f rest) as [ys'|]; [|discriminate]. cbn in H.
  inversion H; subst ys.
  destruct Hin as [->|Hin].
  - exists y'. split; [assumption | now left].
  - destruct (IH ys' eq_refl Hin) as (y & Hy & Hiny).
    exists y. split; [assumption | now right].
Qed.

Lemma omap_all_Ok {A B : Type} (f : A -> outcome B) (xs : list A) :
  Forall (fun x => exists y, f x = Ok y) xs -> exists ys, omap f xs = Ok ys.
Proof.
  induction 1 as [|x rest [y Hy] _ [ys Hys]]; cbn.
  - now exists [].
  - rewrite Hy. cbn. rewrite Hys. cbn. now eexists.
Qed.

Lemma omap_from {A B : Type} (f : A -> outcome B) (xs : list A) (ys : list B) (y : B) :
  omap f xs = Ok ys -> In y ys -> exists x, In x xs /\ f x = Ok y.
Proof.
  revert ys. induction xs as [|x rest IH]; intros ys H Hin; cbn in H.
  - inversion H; subst. contradiction.
  - destruct (f x) as [y'|] eqn:Hfx; [|discriminate]. cbn in H.
    destruct (omap f rest) as [ys'|]; [|discriminate]. cbn in H.
    inversion H; subst ys. destruct Hin as [<-|Hin].
    + exists x. split; [now left | assumption].
    + destruct (IH ys' eq_refl Hin) as (x0 & Hx0 & Hf). exists x0.
      split; [now right | assumption].
Qed.

Lemma select_lengths (ps : list (category * value)) :
  length (select Feature ps) + length (select Fix ps) + length (select Excluded ps)
  = length ps.
Proof.
  unfold select. induction ps as [|[[ | | ] d] rest IH]; cbn in *; lia.
Qed.

Lemma select_In (c : category) (d : value) (ps : list (category * value)) :
  In (c, d) ps -> In d (select c ps).
Proof.
  intros H. unfold select. apply in_map_iff. exists (c, d).
  split; [reflexivity|]. apply filter_In. split; [assumption | now destruct c].
Qed.

Lemma placement_decorates (dm : idmap) (issue : value) (c : category) (d : value) :
  placement dm issue = Ok (c, d) -> exists reason, with_reason issue reason = Ok d.
Proof.
  unfold placement. intros H.
  destruct (getitem issue "id") as [id|]; [|discriminate]. cbn [obind] in H.
  destruct (idmap_get id dm (PDict [])) as [e|]; [|discriminate]. cbn [obind] in H.
  destruct (get e "decision" (PStr "exclude")) as [decision|]; [|discriminate].
  cbn [obind] in H.
  destruct (get e "reason" (PStr "No reason given")) as [reason|]; [|discriminate].
  cbn [obind] in H.
  destruct (with_reason issue reason) as [iwr|] eqn:Hw; [|discriminate].
  cbn [obind] in H. inversion H; subst. now exists reason.
Qed.

(** C1 (amended).  Partition completeness of the classifier on a non-empty
    list of tickets: when the call returns, the service has given a reply
    text, and
    - if the two-tier decoding of the reply yields a decision list, the
      sizes of the three partitions add up to the number of tickets, and
      every ticket is, with a reason attached, in one of the partitions;
    - if both tiers fail, the three partitions are empty. *)
Theorem partition_completeness
    (issues : list value) (w : world) (r : value) (w' : world) :
  issues <> [] ->
  filter_customer_worthy (PList issues) w = (Ok r, w') ->
  exists reply,
    next_text w = Ok reply /\
    match decode_decisions (strip reply) with
    | Some _ =>
        length (part r "features") + length (part r "fixes")
          + length (part r "excluded") = length issues
        /\ forall issue, In issue issues ->
             exists reason d,
               with_reason issue reason = Ok d /\
               (In d (part r "features") \/ In d (part r "fixes")
                \/ In d (part r "excluded"))
    | None =>
        part r "features" = [] /\ part r "fixes" = [] /\ part r "excluded" = []
    end.
Proof.
  intros Hne Hrun.
  destruct (filter_customer_worthy_inv (PList issues) w r w') as (reply & Hreply & H);
    [now destruct issues | assumption |].
  exists reply. split; [assumption|].
  destruct (decode_decisions (strip reply)) as [decisions|].
  - destruct H as (ds & dm & items & ps & _ & _ & Hitems & Hps & ->).
    cbn in Hitems. inversion Hitems; subst items.
    change (part (categorized (select Feature ps) (select Fix ps)
                    (select Excluded ps) decisions) "features")
      with (select Feature ps).
    change (part (categorized (select Feature ps) (select Fix ps)
                    (select Excluded ps) decisions) "fixes")
      with (select Fix ps).
    change (part (categorized (select Feature ps) (select Fix ps)
                    (select Excluded ps) decisions) "excluded")
      with (select Excluded ps).
    split.
    + rewrite select_lengths. now apply omap_length in Hps.
    + intros issue Hin.
      destruct (omap_In _ _ _ issue Hps Hin) as ([c d] & Hplace & Hd).
      destruct (placement_decorates _ _ _ _ Hplace) as (reason & Hreason).
      exists reason, d. split; [assumption|].
      apply select_In in Hd. destruct c; auto.
  - subst r. now cbn.
Qed.

(** The theorem on the three sample tickets and a reply that wraps the
    decisions in prose. *)
Lemma partition_completeness_witness :
  let w := Sample.world_with [Sample.says ("Here you go: " ++ Sample.decisions_text)] in
  let run := filter_customer_worthy (PList Sample.three_tickets) w in
  Sample.three_tickets <> [] /\
  run = (Ok (Sample.value_of run), snd run) /\
  exists reply,
    next_text w = Ok reply /\
    match decode_decisions (strip reply) with
    | Some _ =>
        length (part (Sample.value_of run) "features")
          + length (part (Sample.value_of run) "fixes")
          + length (part (Sample.value_of run) "excluded")
        = length Sample.three_tickets
        /\ forall issue, In issue Sample.three_tickets ->
             exists reason d,
               with_reason issue reason = Ok d /\
               (In d (part (Sample.value_of run) "features")
                \/ In d (part (Sample.value_of run) "fixes")
                \/ In d (part (Sample.value_of run) "excluded"))
    | None =>
        part (Sample.value_of run) "features" = [] /\
        part (Sample.value_of run) "fixes" = [] /\
        part (Sample.value_of run) "excluded" = []
    end.
Proof.
  intros w run.
  assert (H1 : Sample.three_tickets <> []) by discriminate.
  assert (H2 : run = (Ok (Sample.value_of run), snd run)) by (vm_compute; reflexivity).
  split; [exact H1|]. split; [exact H2|].
  exact (partition_completeness Sample.three_tickets w (Sample.value_of run) (snd run)
           H1 H2).
Defined.

(** C1, as stated, fails: a reply that neither tier can decode leaves a
    ticket in no partition. *)
Lemma partition_completeness_fails_on_undecodable_reply :
  exists r w',
    filter_customer_worthy (PList [Sample.csv_export])
      (Sample.world_with [Sample.says "I could not classify these tickets."])
    = (Ok r, w') /\
    length (part r "features") + length (part r "fixes") + length (part r "excluded")
    <> length [Sample.csv_export].
Proof.
  eexists. eexists. split; [vm_compute; reflexivity|]. cbn. discriminate.
Qed.

(** ** The decision of a ticket *)

Lemma idmap_find_In (k : key) (m : idmap) (v : value) :
  idmap_find k m = Some v -> exists k', In (k', v) m /\ key_eqb k k' = true.
Proof.
  induction m as [|[k0 v0] rest IH]; cbn; [discriminate|].
  destruct (key_eqb k k0) eqn:E.
  - intros H. inversion H; subst. exists k0. split; [now left | assumption].
  - intros H. destruct (IH H) as (k' & Hin & Hk). exists k'.
    split; [now right | assumption].
Qed.

Lemma idmap_put_keys (k : key) (x : value) (m : idmap) (k' : key) (v : value) :
  In (k', v) (idmap_put k x m) -> (exists v0, In (k', v0) m) \/ k' = k.
Proof.
  induction m as [|[k0 v0] rest IH]; cbn.
  - intros [H|[]]. inversion H. now right.
  - destruct (key_eqb k k0).
    + intros [H|H].
      * inversion H; subst. left. exists v0. now left.
      * left. exists v. now right.
    + intros [H|H].
      * inversion H; subst. left. exists v. now left.
      * destruct (IH H) as [[v1 H1]| ->]; [left; exists v1; now right | now right].
Qed.

(** Every key of the decision map is the id of an entry of the list. *)
Lemma decision_map_keys (ds : list value) (m dm : idmap) (k : key) (v : value) :
  dict_by_id ds m = Ok dm ->
  In (k, v) dm ->
  (exists v0, In (k, v0) m) \/
  (exists d i, In d ds /\ getitem d "id" = Ok i /\ key_of i = Some k).
Proof.
  revert m. induction ds as [|d rest IH]; intros m Hdm Hin; cbn in Hdm.
  - inversion Hdm; subst. left. now exists v.
  - destruct (getitem d "id") as [i|] eqn:Hi; [|discriminate]. cbn [obind] in Hdm.
    unfold idmap_set in Hdm.
    destruct (key_of i) as [ki|] eqn:Hki; [|discriminate]. cbn [obind] in Hdm.
    destruct (IH _ Hdm Hin) as [[v0 H0]|(d' & i' & Hd' & Hi' & Hk')].
    + destruct (idmap_put_keys _ _ _ _ _ H0) as [H1| ->]; [now left|].
      right. exists d, i. split; [now left | now split].
    + right. exists d', i'. split; [now right | now split].
Qed.

Lemma decision_for_absent (ds : list value) (dm : idmap) (id : value) (k : key) :
  dict_by_id ds [] = Ok dm ->
  key_of id = Some k ->
  (forall d, In d ds -> matches id d = false) ->
  idmap_find k dm = None.
Proof.
  intros Hdm Hk Habsent.
  destruct (idmap_find k dm) as [v|] eqn:Hfind; [|reflexivity].
  exfalso. destruct (idmap_find_In _ _ _ Hfind) as (k' & Hin & Heq).
  destruct (decision_map_keys _ _ _ _ _ Hdm Hin) as [[v0 []]|(d & i & Hd & Hi & Hki)].
  specialize (Habsent d Hd). unfold matches in Habsent.
  rewrite Hk, Hi, Hki in Habsent. congruence.
Qed.

Lemma dict_lookup_set_same (k : string) (v : value) (d : list (string * value)) :
  dict_lookup k (dict_set k v d) = Some v.
Proof.
  induction d as [|[k0 v0] rest IH]; cbn.
  - now rewrite String.eqb_refl.
  - destruct (String.eqb k k0) eqn:E; cbn; [now rewrite String.eqb_refl|].
    now rewrite E.
Qed.

(** C2 (amended).  The default decision.  In a run of the classifier that
    returns with a decoded decision list, every ticket of the input is
    placed by the entry [e] that [decision_map.get(id, {})] finds for its
    id: the ticket, with the reason [e.get('reason', 'No reason given')]
    attached, is in [features] if [e.get('decision', 'exclude')] is
    'feature', in [fixes] if it is 'fix', and in [excluded] otherwise.
    Hence
    - if no entry of the decision list has the id of the ticket, the ticket
      is in [excluded] and its reason is the sentinel 'No reason given';
    - if the decision value of the entry is neither 'feature' nor 'fix', the
      ticket is in [excluded], with the reason of the entry (the sentinel
      only when the entry has no reason). *)
Theorem default_decision
    (issues : list value) (w : world) (r : value) (w' : world)
    (reply : string) (decisions : value) (ds : list value) (issue id : value) :
  filter_customer_worthy (PList issues) w = (Ok r, w') ->
  next_text w = Ok reply ->
  decode_decisions (strip reply) = Some decisions ->
  iter decisions = Ok ds ->
  In issue issues ->
  getitem issue "id" = Ok id ->
  exists e decision reason d,
    decision_for decisions id = Ok e /\
    get e "decision" (PStr "exclude") = Ok decision /\
    get e "reason" (PStr "No reason given") = Ok reason /\
    with_reason issue reason = Ok d /\
    getitem d "reason" = Ok reason /\
    In d (part r (if eq_str decision "feature" then "features"
                  else if eq_str decision "fix" then "fixes"
                  else "excluded")) /\
    ((forall x, In x ds -> matches id x = false) ->
     reason = PStr "No reason given" /\ In d (part r "excluded")) /\
    (eq_str decision "feature" = false ->
     eq_str decision "fix" = false ->
     In d (part r "excluded")).
Proof.
  intros Hrun Hreply Hdec Hds Hin Hid.
  destruct (filter_customer_worthy_inv (PList issues) w r w') as (reply' & Hreply' & H);
    [now destruct issues | assumption |].
  rewrite Hreply in Hreply'. inversion Hreply'; subst reply'. rewrite Hdec in H.
  destruct H as (ds' & dm & items & ps & Hds' & Hdm & Hitems & Hps & ->).
  rewrite Hds in Hds'. inversion Hds'; subst ds'.
  cbn in Hitems. inversion Hitems; subst items.
  destruct (omap_In _ _ _ issue Hps Hin) as ([c d] & Hplace & Hd).
  apply select_In in Hd.
  unfold placement in Hplace. rewrite Hid in Hplace. cbn [obind] in Hplace.
  destruct (idmap_get id dm (PDict [])) as [e|] eqn:He; [|discriminate].
  cbn [obind] in Hplace.
  destruct (get e "decision" (PStr "exclude")) as [decision|] eqn:Hdecision;
    [|discriminate].
  cbn [obind] in Hplace.
  destruct (get e "reason" (PStr "No reason given")) as [reason|] eqn:Hreason;
    [|discriminate].
  cbn [obind] in Hplace.
  destruct (with_reason issue reason) as [iwr|] eqn:Hiwr; [|discriminate].
  cbn [obind] in Hplace. inversion Hplace as [[Hc Hiwr']]. subst iwr.
  exists e, decision, reason, d.
  split; [unfold decision_for; rewrite Hds; cbn [obind]; rewrite Hdm; exact He|].
  split; [exact Hdecision|]. split; [exact Hreason|]. split; [exact Hiwr|].
  split.
  { unfold with_reason in Hiwr. destruct issue; try discriminate.
    inversion Hiwr. cbn [getitem]. now rewrite dict_lookup_set_same. }
  assert (Hplaced : In d (part (categorized (select Feature ps) (select Fix ps)
                                  (select Excluded ps) decisions)
                             (if eq_str decision "feature" then "features"
                              else if eq_str decision "fix" then "fixes"
                              else "excluded"))).
  { destruct (eq_str decision "feature"); [|destruct (eq_str decision "fix")];
      subst c; exact Hd. }
  split; [exact Hplaced|].
  change (part (categorized (select Feature ps) (select Fix ps) (select Excluded ps)
                  decisions) "excluded")
    with (select Excluded ps).
  split.
  - intros Habsent. unfold idmap_get in He.
    destruct (key_of id) as [k|] eqn:Hk; [|discriminate].
    rewrite (decision_for_absent ds dm id k Hdm Hk Habsent) in He.
    inversion He; subst e. cbn in Hreason, Hdecision.
    inversion Hreason; subst reason. inversion Hdecision; subst decision.
    cbn in Hc. subst c. now split.
  - intros Hfeature Hfix. rewrite Hfeature, Hfix in Hc. now subst c.
Qed.

(** The theorem on the ticket C, which the decisions of the reply do not
    mention. *)
Lemma default_decision_witness :
  let w := Sample.world_with [Sample.says Sample.two_decisions_text] in
  let run := filter_customer_worthy (PList Sample.three_tickets) w in
  let decisions := Sample.decoded Sample.two_decisions_text in
  exists e decision reason d,
    decision_for decisions (PStr "C") = Ok e /\
    get e "decision" (PStr "exclude") = Ok decision /\
    get e "reason" (PStr "No reason given") = Ok reason /\
    with_reason Sample.auth_schema reason = Ok d /\
    getitem d "reason" = Ok reason /\
    In d (part (Sample.value_of run)
            (if eq_str decision "feature" then "features"
             else if eq_str decision "fix" then "fixes"
             else "excluded")) /\
    ((forall x, In x (Sample.items_of decisions) -> matches (PStr "C") x = false) ->
     reason = PStr "No reason given" /\ In d (part (Sample.value_of run) "excluded")) /\
    (eq_str decision "feature" = false ->
     eq_str decision "fix" = false ->
     In d (part (Sample.value_of run) "excluded")).
Proof.
  intros w run decisions.
  apply (default_decision Sample.three_tickets w (Sample.value_of run) (snd run)
           Sample.two_decisions_text decisions (Sample.items_of decisions)
           Sample.auth_schema (PStr "C")).
  - vm_compute. reflexivity.
  - vm_compute. reflexivity.
  - vm_compute. reflexivity.
  - vm_compute. reflexivity.
  - cbn. auto.
  - reflexivity.
Defined.

(** C2, as stated, fails: a ticket whose decision value is 'exclude' keeps
    the reason of its entry, here an empty one, and not the sentinel. *)
Lemma excluded_reason_is_not_always_the_sentinel :
  exists r w' d,
    filter_customer_worthy (PList [Sample.auth_schema])
      (Sample.world_with
         [Sample.says (Sample.dq "[{'id': 'C', 'decision': 'exclude', 'reason': ''}]")])
    = (Ok r, w') /\
    part r "excluded" = [d] /\
    getitem d "reason" = Ok (PStr "") /\
    getitem d "reason" <> Ok (PStr "No reason given").
Proof.
  eexists. eexists. eexists.
  split; [vm_compute; reflexivity|].
  split; [reflexivity|]. split; [reflexivity | discriminate].
Qed.

(** A ticket and a decision whose ids are both read as NaN have the same
    id: [json.loads] gives one object for every NaN, and a dict finds a
    key that is the same object although NaN equals nothing. *)
Example nan_id_is_found :
  let ticket := Sample.decoded (Sample.dq "{'id': NaN, 'title': 'Export'}") in
  let reply := Sample.dq "[{'id': NaN, 'decision': 'feature', 'reason': 'r'}]" in
  let r := Sample.value_of
             (filter_customer_worthy (PList [ticket])
                (Sample.world_with [Sample.says reply])) in
  map (fun t => getitem t "reason") (part r "features") = [Ok (PStr "r")] /\
  part r "excluded" = [].
Proof. split; vm_compute; reflexivity. Qed.

(** Two decimal texts of one double are one id, and an int is the id that
    a double is only if it is the value of the double. *)
Example ids_are_doubles :
  matches (Sample.decoded "0.1")
    (Sample.decoded (Sample.dq "{'id': 0.1000000000000000055}")) = true /\
  matches (Sample.decoded "9007199254740993")
    (Sample.decoded (Sample.dq "{'id': 9007199254740993.0}")) = false /\
  matches (Sample.decoded "9007199254740992")
    (Sample.decoded (Sample.dq "{'id': 9007199254740993.0}")) = true /\
  matches (Sample.decoded "1e400") (Sample.decoded (Sample.dq "{'id': Infinity}")) = true.
Proof. repeat split; vm_compute; reflexivity. Qed.

(** ** Start boundary *)

Lemma load_last_run_world (w : world) : snd (load_last_run w) = w.
Proof. unfold load_last_run. now destruct (state_file w). Qed.

(** C3.  Three-tier precedence of the start boundary, in [changelog_bot.main]
    (override: the variable START_DATE) and in [customer_release_notes.main]
    (override: the argument [since_date]):
    - a non-empty override is the boundary, whatever the state file holds
      (the bot strips the blanks around it);
    - without one, a checkpoint that [load_last_run] returns and that is
      not empty is the boundary;
    - without either, the boundary is the date 7 days before today.
    The choice changes nothing in the world. *)
Theorem start_boundary_precedence (w : world) :
  (forall s, s <> "" ->
     (START_DATE (env w) = Some s ->
      changelog_bot.main_since w = (Ok (PStr (strip s)), w)) /\
     customer_release_notes.main_since (Some s) w = (Ok (PStr s), w))
  /\
  (forall o checkpoint,
     o = None \/ o = Some "" ->
     fst (load_last_run w) = Ok checkpoint ->
     truthy checkpoint = true ->
     (START_DATE (env w) = o -> changelog_bot.main_since w = (Ok checkpoint, w)) /\
     customer_release_notes.main_since o w = (Ok checkpoint, w))
  /\
  (forall o checkpoint,
     o = None \/ o = Some "" ->
     fst (load_last_run w) = Ok checkpoint ->
     truthy checkpoint = false ->
     let default := PStr (datetime.strftime_Ymd (datetime.days_before 7 (now (env w)))) in
     (START_DATE (env w) = o -> changelog_bot.main_since w = (Ok default, w)) /\
     customer_release_notes.main_since o w = (Ok default, w)).
Proof.
  split; [|split].
  - intros s Hs. split.
    + intros Ho. unfold main_since, bind, ask. rewrite Ho.
      destruct s; [contradiction | reflexivity].
    + unfold customer_release_notes.main_since.
      destruct s; [contradiction | reflexivity].
  - intros o checkpoint Ho Hload Htruthy.
    pose proof (load_last_run_world w) as Hw.
    destruct (load_last_run w) as [r w1] eqn:Hrun. cbn in Hload, Hw. subst r w1.
    split.
    + intros Hstart. unfold main_since, bind, ask. rewrite Hstart.
      destruct Ho as [-> | ->]; rewrite Hrun, Htruthy; reflexivity.
    + unfold customer_release_notes.main_since, bind.
      destruct Ho as [-> | ->]; rewrite Hrun, Htruthy; reflexivity.
  - intros o checkpoint Ho Hload Htruthy default.
    pose proof (load_last_run_world w) as Hw.
    destruct (load_last_run w) as [r w1] eqn:Hrun. cbn in Hload, Hw. subst r w1.
    split.
    + intros Hstart. unfold main_since, bind, ask. rewrite Hstart.
      destruct Ho as [-> | ->]; rewrite Hrun, Htruthy; reflexivity.
    + unfold customer_release_notes.main_since, bind, ask.
      destruct Ho as [-> | ->]; rewrite Hrun, Htruthy; reflexivity.
Qed.

(** The three tiers on sample worlds: override and checkpoint both
    present, checkpoint only, neither. *)
Lemma start_boundary_precedence_witness :
  (changelog_bot.main_since Sample.overridden_run
     = (Ok (PStr "2026-01-15"), Sample.overridden_run) /\
   customer_release_notes.main_since (Some "2026-01-15") Sample.later_run
     = (Ok (PStr "2026-01-15"), Sample.later_run))
  /\
  (changelog_bot.main_since Sample.later_run
     = (Ok (PStr "2026-02-20"), Sample.later_run) /\
   customer_release_notes.main_since None Sample.later_run
     = (Ok (PStr "2026-02-20"), Sample.later_run))
  /\
  (changelog_bot.main_since (Sample.world_with [])
     = (Ok (PStr "2026-02-25"), Sample.world_with []) /\
   customer_release_notes.main_since None (Sample.world_with [])
     = (Ok (PStr "2026-02-25"), Sample.world_with [])).
Proof.
  split; [|split].
  - destruct (start_boundary_precedence Sample.overridden_run) as (H & _ & _).
    destruct (H " 2026-01-15 ") as [H1 _]; [discriminate|].
    destruct (start_boundary_precedence Sample.later_run) as (H' & _ & _).
    destruct (H' "2026-01-15") as [_ H2]; [discriminate|].
    split; [exact (H1 eq_refl) | exact H2].
  - destruct (start_boundary_precedence Sample.later_run) as (_ & H & _).
    destruct (H None (PStr "2026-02-20")) as [H1 H2];
      [now left | vm_compute; reflexivity | reflexivity |].
    split; [exact (H1 eq_refl) | exact H2].
  - destruct (start_boundary_precedence (Sample.world_with [])) as (_ & _ & H).
    destruct (H None PNone) as [H1 H2];
      [now left | reflexivity | reflexivity |].
    split; [exact (H1 eq_refl) | exact H2].
Defined.

(** ** Equality of keys *)

Lemma bin_eqb_spec (m1 e1 m2 e2 e : Z) :
  (e <= e1)%Z -> (e <= e2)%Z ->
  bin_eqb m1 e1 m2 e2 = true <-> (m1 * 2 ^ (e1 - e) = m2 * 2 ^ (e2 - e))%Z.
Proof.
  intros H1 H2. unfold bin_eqb. rewrite Z.eqb_eq.
  set (e0 := Z.min e1 e2).
  assert (He0 : (e <= e0)%Z) by (unfold e0; lia).
  assert (H10 : (e0 <= e1)%Z) by (unfold e0; lia).
  assert (H20 : (e0 <= e2)%Z) by (unfold e0; lia).
  replace (e1 - e)%Z with ((e1 - e0) + (e0 - e))%Z by lia.
  replace (e2 - e)%Z with ((e2 - e0) + (e0 - e))%Z by lia.
  rewrite !Z.pow_add_r by lia. rewrite !Z.mul_assoc.
  assert (Hpos : (2 ^ (e0 - e) <> 0)%Z)
    by (apply Z.pow_nonzero; lia).
  split.
  - intros ->. reflexivity.
  - intros H. now apply Z.mul_cancel_r in H.
Qed.

Lemma bin_eqb_sym (m1 e1 m2 e2 : Z) : bin_eqb m1 e1 m2 e2 = bin_eqb m2 e2 m1 e1.
Proof. unfold bin_eqb. rewrite Z.min_comm. apply Z.eqb_sym. Qed.

Lemma bin_eqb_trans (m1 e1 m2 e2 m3 e3 : Z) :
  bin_eqb m1 e1 m2 e2 = true -> bin_eqb m2 e2 m3 e3 = true ->
  bin_eqb m1 e1 m3 e3 = true.
Proof.
  set (e := Z.min e1 (Z.min e2 e3)).
  rewrite (bin_eqb_spec m1 e1 m2 e2 e), (bin_eqb_spec m2 e2 m3 e3 e),
    (bin_eqb_spec m1 e1 m3 e3 e) by (unfold e; lia).
  congruence.
Qed.

Lemma key_eqb_sym (a b : key) : key_eqb a b = key_eqb b a.
Proof.
  destruct a as [|s|[m1 e1|n1|]], b as [|t|[m2 e2|n2|]]; cbn; try reflexivity.
  - apply String.eqb_sym.
  - apply bin_eqb_sym.
  - now destruct n1, n2.
Qed.

Lemma key_eqb_trans (a b c : key) :
  key_eqb a b = true -> key_eqb b c = true -> key_eqb a c = true.
Proof.
  destruct a as [|s|[m1 e1|n1|]], b as [|t|[m2 e2|n2|]], c as [|u|[m3 e3|n3|]];
    cbn; try discriminate; try reflexivity.
  - rewrite !String.eqb_eq. congruence.
  - apply bin_eqb_trans.
  - now destruct n1, n2, n3.
Qed.

(** ** Resolution of ticket ids *)

Lemma omap_Forall2 {A B : Type} (f : A -> outcome B) (xs : list A) (ys : list B) :
  omap f xs = Ok ys -> Forall2 (fun x y => f x = Ok y) xs ys.
Proof.
  revert ys. induction xs as [|x rest IH]; intros ys H; cbn in H.
  - inversion H. constructor.
  - destruct (f x) as [y|] eqn:Hfx; [|discriminate]. cbn in H.
    destruct (omap f rest) as [ys'|]; [|discriminate]. cbn in H.
    inversion H. constructor; [assumption | now apply IH].
Qed.

Lemma idmap_find_None (k : key) (m : idmap) (k' : key) (v : value) :
  idmap_find k m = None -> In (k', v) m -> key_eqb k k' = false.
Proof.
  induction m as [|[k0 v0] rest IH]; cbn; [contradiction|].
  destruct (key_eqb k k0) eqn:E; [discriminate|].
  intros H [Hin|Hin]; [inversion Hin; now subst | now apply IH].
Qed.

Lemma idmap_put_In (k0 : key) (x : value) (m : idmap) (k : key) (v : value) :
  In (k, v) (idmap_put k0 x m) ->
  In (k, v) m \/ (v = x /\ (k = k0 \/ key_eqb k0 k = true)).
Proof.
  induction m as [|[k1 v1] rest IH]; cbn.
  - intros [H|[]]. inversion H. right. split; [reflexivity | now left].
  - destruct (key_eqb k0 k1) eqn:E; intros [H|H].
    + inversion H; subst. right. split; [reflexivity | now right].
    + left. now right.
    + left. now left.
    + destruct (IH H) as [H'|H']; [left; now right | now right].
Qed.

Lemma idmap_put_persist (k0 : key) (x : value) (m : idmap) (k : key) (v : value) :
  In (k, v) m -> exists v', In (k, v') (idmap_put k0 x m).
Proof.
  induction m as [|[k1 v1] rest IH]; cbn; [contradiction|].
  destruct (key_eqb k0 k1); intros [H|H].
  - inversion H; subst. exists x. now left.
  - exists v. now right.
  - exists v. now left.
  - destruct (IH H) as [v' H']. exists v'. now right.
Qed.

Lemma idmap_put_has (k0 : key) (x : value) (m : idmap) :
  exists k v, In (k, v) (idmap_put k0 x m) /\ (k = k0 \/ key_eqb k0 k = true).
Proof.
  induction m as [|[k1 v1] rest IH]; cbn.
  - exists k0, x. split; [now left | now left].
  - destruct (key_eqb k0 k1) eqn:E.
    + exists k1, x. split; [now left | now right].
    + destruct IH as (k & v & Hin & Hk). exists k, v. split; [now right | assumption].
Qed.

(** An entry of the dict holds one of the items, under a key equal to the
    id of that item. *)
Lemma dict_by_id_sound (xs : list value) (m m' : idmap) (k : key) (v : value) :
  dict_by_id xs m = Ok m' ->
  In (k, v) m' ->
  In (k, v) m \/
  (In v xs /\ exists i k', getitem v "id" = Ok i /\ key_of i = Some k' /\
                           (k = k' \/ key_eqb k' k = true)).
Proof.
  revert m. induction xs as [|x rest IH]; intros m Hm Hin; cbn in Hm.
  - inversion Hm; subst. now left.
  - destruct (getitem x "id") as [i|] eqn:Hi; [|discriminate]. cbn [obind] in Hm.
    unfold idmap_set in Hm.
    destruct (key_of i) as [ki|] eqn:Hki; [|discriminate]. cbn [obind] in Hm.
    destruct (IH _ Hm Hin) as [H|(Hv & H)].
    + destruct (idmap_put_In _ _ _ _ _ H) as [H'|[-> Hk]]; [now left|].
      right. split; [now left|]. exists i, ki. repeat split; assumption.
    + right. split; [now right | assumption].
Qed.

(** The id of every item is, up to equality of keys, a key of the dict. *)
Lemma dict_by_id_complete (xs : list value) (m m' : idmap) :
  dict_by_id xs m = Ok m' ->
  (forall k v, In (k, v) m -> exists v', In (k, v') m') /\
  (forall x, In x xs ->
     exists i k', getitem x "id" = Ok i /\ key_of i = Some k' /\
       exists k v, In (k, v) m' /\ (k = k' \/ key_eqb k' k = true)).
Proof.
  revert m. induction xs as [|x rest IH]; intros m Hm; cbn in Hm.
  - inversion Hm; subst. split; [intros k v H; now exists v | contradiction].
  - destruct (getitem x "id") as [i|] eqn:Hi; [|discriminate]. cbn [obind] in Hm.
    unfold idmap_set in Hm.
    destruct (key_of i) as [ki|] eqn:Hki; [|discriminate]. cbn [obind] in Hm.
    destruct (IH _ Hm) as [Hkeep Hrest]. split.
    + intros k v H. destruct (idmap_put_persist ki x m k v H) as [v' H'].
      now apply (Hkeep k v').
    + intros y [<-|Hy]; [|now apply Hrest].
      exists i, ki. split; [assumption|]. split; [assumption|].
      destruct (idmap_put_has ki x m) as (k & v & Hin & Hk).
      destruct (Hkeep k v Hin) as [v' Hin'].
      exists k, v'. split; assumption.
Qed.

Lemma resolve_resolved (all_tickets : list value) (all_by_id : idmap)
    (tid : value) (k : key) :
  dict_by_id all_tickets [] = Ok all_by_id ->
  key_of tid = Some k ->
  exists t, resolve all_by_id tid = Ok t /\ resolved all_tickets tid t.
Proof.
  intros Hmap Hk. unfold resolve, idmap_get. rewrite Hk.
  destruct (idmap_find k all_by_id) as [t|] eqn:Hfind.
  - exists t. split; [reflexivity|]. left.
    destruct (idmap_find_In _ _ _ Hfind) as (k0 & Hin & Hk0).
    destruct (dict_by_id_sound _ _ _ _ _ Hmap Hin) as [[]|(Ht & i & k' & Hi & Hki & Hkk)].
    split; [assumption|]. unfold matches. rewrite Hk, Hi, Hki.
    destruct Hkk as [<-|Hkk]; [assumption|].
    apply (key_eqb_trans k k0 k'); [assumption|]. now rewrite key_eqb_sym.
  - exists (placeholder tid). split; [reflexivity|]. right.
    split; [reflexivity|]. intros c Hc.
    destruct (dict_by_id_complete _ _ _ Hmap) as [_ Hall].
    destruct (Hall c Hc) as (i & k' & Hi & Hki & k0 & v & Hin & Hkk).
    unfold matches. rewrite Hk, Hi, Hki.
    pose proof (idmap_find_None _ _ _ _ Hfind Hin) as Hno.
    destruct Hkk as [->|Hkk]; [assumption|].
    destruct (key_eqb k k') eqn:E; [|reflexivity].
    rewrite (key_eqb_trans k k' k0 E Hkk) in Hno. discriminate.
Qed.

Lemma resolve_hashable (all_by_id : idmap) (tid t : value) :
  resolve all_by_id tid = Ok t -> exists k, key_of tid = Some k.
Proof.
  unfold resolve, idmap_get. destruct (key_of tid) as [k|]; [|discriminate].
  intros _. now exists k.
Qed.

Lemma part_Ok (v : value) (k : string) (x : value) (l : list value) :
  get v k (PList []) = Ok x -> iter x = Ok l -> part v k = l.
Proof. intros Hx Hl. unfold part. rewrite Hx. cbn [obind]. now rewrite Hl. Qed.








(** ** The fallback of the grouper *)

(** What the grouper returns when no tier decodes the reply: no group, and
    for each fix its id. *)
Lemma fallback_lists_the_ids (fixes : list value) (r : value) :
  ungrouped_fallback (PList fixes) = Ok r ->
  part r "groups" = [] /\
  Forall2 (fun t i => getitem t "id" = Ok i) fixes (part r "ungrouped_fixes").
Proof.
  unfold ungrouped_fallback. cbn [iter obind].
  destruct (omap (fun t => getitem t "id") fixes) as [ids|] eqn:Hids; [|discriminate].
  cbn [obind]. intros H. inversion H; subst r.
  split; [reflexivity|].
  change (part (grouped [] ids) "ungrouped_fixes") with ids.
  now apply omap_Forall2.
Qed.

(** ** Defects *)

(** C4 (code bug).  Drafting the fallback of the grouper raises.  With one
    fix and a grouping reply that neither tier decodes, the grouper returns
    its fallback, whose ungrouped fixes are id strings; the drafter renders
    each with [t['title']], which raises [TypeError] on a string.  So does
    [generate_generic_release_notes], which chains the two, and [main]
    stops before, with [AttributeError], where it prints the ungrouped
    fixes ([ticket.get] on a string); the checkpoint is not written. *)
Theorem draft_of_fallback_raises :
  let w := Sample.world_with [Sample.no_grouping; Sample.says "notes"] in
  (exists fallback w1 w2,
     group_related_tickets Sample.one_fix w = (Ok fallback, w1) /\
     draft_release_notes Sample.one_fix fallback w1 = (Raise TypeError, w2))
  /\
  fst (customer_release_notes.generate_generic_release_notes
         (PList []) (PList [Sample.typo_fix]) w) = Raise TypeError
  /\
  (let run := main (Sample.world_with
                      [Sample.says Sample.decisions_text; Sample.no_grouping;
                       Sample.says "notes"]) in
   fst run = Raise AttributeError /\ state_file (snd run) = None).
Proof.
  intros w. split; [|split].
  - eexists. eexists. eexists. split; vm_compute; reflexivity.
  - vm_compute. reflexivity.
  - split; vm_compute; reflexivity.
Qed.

(** C5 (code bug).  The fallback of the grouper holds ids, not tickets:
    with the fix B and a reply that neither tier decodes, the call returns
    zero groups and the list [["B"]] as ungrouped fixes, where the other
    path of the function returns the ticket itself. *)
Theorem fallback_holds_ids_not_tickets :
  let w := Sample.world_with [Sample.no_grouping] in
  exists r w',
    group_related_tickets Sample.one_fix w = (Ok r, w') /\
    part r "groups" = [] /\
    part r "ungrouped_fixes" = [PStr "B"] /\
    part r "ungrouped_fixes" <> part Sample.one_fix "fixes" /\
    (let w2 := Sample.world_with
                 [Sample.says (Sample.dq "{'groups': [], 'ungrouped_fixes': ['B']}")] in
     exists r2 w2',
       group_related_tickets Sample.one_fix w2 = (Ok r2, w2') /\
       part r2 "ungrouped_fixes" = part Sample.one_fix "fixes").
Proof.
  intros w. eexists. eexists.
  split; [vm_compute; reflexivity|].
  split; [reflexivity|]. split; [reflexivity|]. split; [discriminate|].
  eexists. eexists. split; [vm_compute; reflexivity | reflexivity].
Qed.

(** C7 (code bug).  On an empty ticket list the classifier makes no call
    to the inference service (the world is unchanged), but what it returns
    is an empty list, not the dict of the four keys that its other returns
    build: reading a partition from it as the callers do raises. *)
Theorem empty_input_returns_a_list (w : world) :
  filter_customer_worthy (PList []) w = (Ok (PList []), w) /\
  PList [] <> categorized [] [] [] (PList []) /\
  get (PList []) "features" (PList []) = Raise AttributeError.
Proof. split; [reflexivity|]. split; [discriminate | reflexivity]. Qed.

(** ** Two-tier decoding *)

Lemma after_first_app (c : ascii) (before rest : string) :
  mentions c before = false ->
  re.after_first c (before ++ String c rest) = Some rest.
Proof.
  induction before as [|a before IH]; cbn.
  - now rewrite Ascii.eqb_refl.
  - intros H. apply orb_false_iff in H as [Ha Hb]. rewrite Ha. now apply IH.
Qed.

Lemma upto_last_none (c : ascii) (s : string) :
  mentions c s = false -> re.upto_last c s = None.
Proof.
  induction s as [|a s IH]; cbn; [reflexivity|].
  intros H. apply orb_false_iff in H as [Ha Hs]. now rewrite (IH Hs), Ha.
Qed.

Lemma upto_last_app (c : ascii) (body after : string) :
  mentions c after = false ->
  re.upto_last c (body ++ String c after) = Some (body ++ String c "").
Proof.
  intros H. induction body as [|a body IH]; cbn.
  - now rewrite (upto_last_none c after H), Ascii.eqb_refl.
  - now rewrite IH.
Qed.

Lemma search_delimited_app (opening closing : ascii) (before body after : string) :
  mentions opening before = false ->
  mentions closing after = false ->
  re.search_delimited opening closing
    (before ++ String opening (body ++ String closing after))
  = Some (String opening (body ++ String closing "")).
Proof.
  intros Hb Ha. unfold re.search_delimited.
  now rewrite (after_first_app _ _ _ Hb), (upto_last_app _ _ _ Ha).
Qed.

(** C8 (amended).  Parse fallback.  Let a reply be an array text (from a
    '[' to a ']') with text around it, such that the whole is not itself
    decodable, the text before the array holds no '[' and the text after
    it no ']'.  Then the two-tier decoding yields what decoding the array
    alone yields. *)
Theorem wrapped_array_is_recovered (before body after : string) :
  mentions "[" before = false ->
  mentions "]" after = false ->
  json.decode (before ++ String "[" (body ++ String "]" after)) = None ->
  decode_decisions (before ++ String "[" (body ++ String "]" after))
  = json.decode (String "[" (body ++ String "]" "")).
Proof.
  intros Hb Ha Hwhole. unfold decode_decisions.
  now rewrite Hwhole, (search_delimited_app "[" "]" before body after Hb Ha).
Qed.

(** The theorem on an array with a sentence before and after it. *)
Lemma wrapped_array_is_recovered_witness :
  decode_decisions
    ("Here are the decisions: "
     ++ String "[" (Sample.dq "{'id': 'A', 'decision': 'feature'}"
                    ++ String "]" " Let me know if you need more."))
  = json.decode (String "[" (Sample.dq "{'id': 'A', 'decision': 'feature'}"
                             ++ String "]" "")).
Proof.
  apply (wrapped_array_is_recovered "Here are the decisions: "
           (Sample.dq "{'id': 'A', 'decision': 'feature'}")
           " Let me know if you need more.").
  - reflexivity.
  - reflexivity.
  - vm_compute. reflexivity.
Defined.

(** C8, as stated, fails: with a bracket in the prose the text from the
    first '[' to the last ']' is not the array, and nothing is decoded. *)
Lemma bracket_in_prose_defeats_extraction :
  let array := Sample.dq "[{'id': 'A', 'decision': 'feature'}]" in
  let reply := "Decisions [final]: " ++ array in
  json.decode array
  = Some (PList [PDict [("id", PStr "A"); ("decision", PStr "feature")]]) /\
  re.search_delimited "[" "]" reply = Some ("[final]: " ++ array) /\
  decode_decisions reply = None.
Proof. split; [|split]; vm_compute; reflexivity. Qed.

(** ** Checkpoint store *)

Lemma ascii_not_cont (c : ascii) :
  Nat.ltb (nat_of_ascii c) 128 = true -> is_cont c = false.
Proof.
  destruct c as [b0 b1 b2 b3 b4 b5 b6 [|]]; [|now destruct b6].
  destruct b0, b1, b2, b3, b4, b5, b6; vm_compute; discriminate.
Qed.

Lemma ascii_conts (s : string) :
  is_ascii s = true -> take_conts s = "" /\ drop_conts s = s.
Proof.
  destruct s as [|c r]; [now split|]. cbn. intros H.
  apply andb_true_iff in H as [Hc _]. now rewrite (ascii_not_cont c Hc).
Qed.

Lemma cp_chars_aux_ascii (s : string) (fuel : nat) :
  is_ascii s = true -> String.length s <= fuel ->
  cp_chars_aux fuel s = map (fun c => String c "") (list_ascii_of_string s).
Proof.
  revert fuel. induction s as [|c r IH]; intros fuel Hs Hfuel.
  - now destruct fuel.
  - destruct fuel as [|n]; [cbn in Hfuel; lia|].
    cbn in Hs. apply andb_true_iff in Hs as [Hc Hr].
    cbn [cp_chars_aux list_ascii_of_string map].
    destruct (ascii_conts r Hr) as [-> ->].
    rewrite IH; [reflexivity | assumption | cbn in Hfuel; lia].
Qed.

Lemma scanstring_escape_char (c : ascii) (rest : string) :
  Nat.ltb (nat_of_ascii c) 128 = true ->
  json.scanstring (json.escape_char (String c "") ++ rest)
  = match json.scanstring rest with
    | Some (u, r) => Some (String c u, r)
    | None => None
    end.
Proof.
  destruct c as [b0 b1 b2 b3 b4 b5 b6 b7]. intros H.
  destruct b7.
  { destruct b0, b1, b2, b3, b4, b5, b6; vm_compute in H; discriminate. }
  clear H.
  destruct b0, b1, b2, b3, b4, b5, b6;
    match goal with
    | |- json.scanstring (?e ++ rest) = _ =>
        let v := eval vm_compute in e in
        replace e with v by (vm_compute; reflexivity)
    end;
    cbn [String.append json.scanstring]; reflexivity.
Qed.

Lemma append_empty (s : string) : s ++ "" = s.
Proof. induction s as [|c r IH]; cbn; [reflexivity | now rewrite IH]. Qed.

Lemma append_append (s t u : string) : (s ++ t) ++ u = s ++ (t ++ u).
Proof. induction s as [|c r IH]; cbn; [reflexivity | now rewrite IH]. Qed.

Lemma concat_cons (x : string) (xs : list string) :
  String.concat "" (x :: xs) = x ++ String.concat "" xs.
Proof.
  destruct xs as [|y ys]; cbn [String.concat String.append];
    [now rewrite append_empty | reflexivity].
Qed.

(** The escaped text of an ASCII str, up to the closing quote, scans back
    to the str. *)
Lemma scanstring_escaped (s rest : string) :
  is_ascii s = true ->
  json.scanstring
    (String.concat "" (map json.escape_char (cp_chars s)) ++ String "034" rest)
  = Some (s, rest).
Proof.
  intros Hs. unfold cp_chars. rewrite (cp_chars_aux_ascii s _ Hs (le_n _)).
  induction s as [|c r IH].
  - reflexivity.
  - cbn in Hs. apply andb_true_iff in Hs as [Hc Hr].
    cbn [list_ascii_of_string map]. rewrite concat_cons, append_append.
    rewrite (scanstring_escape_char c _ Hc), (IH Hr). reflexivity.
Qed.



Lemma digit_char_ascii (z : Z) :
  Nat.ltb (nat_of_ascii (datetime.digit_char z)) 128 = true.
Proof.
  unfold datetime.digit_char.
  assert (H : (0 <= z mod 10 < 10)%Z) by (apply Z.mod_pos_bound; lia).
  remember (z mod 10)%Z as m eqn:Hm. clear Hm.
  assert (Hcases : (m = 0 \/ m = 1 \/ m = 2 \/ m = 3 \/ m = 4 \/ m = 5 \/ m = 6
                    \/ m = 7 \/ m = 8 \/ m = 9)%Z) by lia.
  repeat (destruct Hcases as [-> | Hcases]; [reflexivity|]).
  now subst m.
Qed.

Lemma strftime_Ymd_ascii (d : datetime.date) :
  is_ascii (datetime.strftime_Ymd d) = true.
Proof.
  unfold datetime.strftime_Ymd. cbn [is_ascii].
  rewrite !digit_char_ascii. reflexivity.
Qed.

(** The text of the record is an opening, the escaped timestamp and a
    closing. *)
Lemma checkpoint_record_parts (timestamp : string) :
  checkpoint_record timestamp
  = String "{" (String "034" ("last_run" ++ String "034"
      (String ":" (String " " (String "034"
         (String.concat "" (map json.escape_char (cp_chars timestamp))
          ++ String "034" "}")))))).
Proof.
  unfold checkpoint_record, json.dumps_str.
  replace (String.concat "" (map json.escape_char (cp_chars "last_run")))
    with "last_run"%string by (vm_compute; reflexivity).
  cbn [String.append]. now rewrite !append_append.
Qed.

Lemma scanstring_last_run (rest : string) :
  json.scanstring ("last_run" ++ String "034" rest) = Some ("last_run"%string, rest).
Proof. exact (scanstring_escaped "last_run" rest eq_refl). Qed.

(** Reading an object that opens like the record, up to the str that
    follows the colon. *)
Lemma scan_open_record (k : nat) (tail : string) :
  json.scan_once (S (S (S k)))
    (String "{" (String "034" ("last_run" ++ String "034"
       (String ":" (String " " (String "034" tail))))))
  = match json.scanstring tail with
    | Some (t, r) =>
        match json.skip_ws r with
        | String "," r' =>
            json.members (S k) (json.skip_ws r') (dict_set "last_run" (PStr t) [])
        | String "}" r' => Some (PDict (dict_set "last_run" (PStr t) []), r')
        | _ => None
        end
    | None => None
    end.
Proof.
  cbn [json.skip_ws json.is_ws json.scan_once json.members].
  rewrite scanstring_last_run.
  cbn [json.skip_ws json.is_ws json.scan_once].
  destruct (json.scanstring tail) as [[t r]|]; reflexivity.
Qed.

Lemma decode_open_record (tail : string) :
  exists k,
    json.decode
      (String "{" (String "034" ("last_run" ++ String "034"
         (String ":" (String " " (String "034" tail))))))
    = match
        match json.scanstring tail with
        | Some (t, r) =>
            match json.skip_ws r with
            | String "," r' =>
                json.members (S k) (json.skip_ws r')
                  (dict_set "last_run" (PStr t) [])
            | String "}" r' => Some (PDict (dict_set "last_run" (PStr t) []), r')
            | _ => None
            end
        | None => None
        end
      with
      | Some (v, r) =>
          match json.skip_ws r with
          | EmptyString => Some v
          | _ => None
          end
      | None => None
      end.
Proof.
  unfold json.decode.
  assert (Hfuel : exists k,
             2 * String.length
                   (String "{" (String "034" ("last_run" ++ String "034"
                      (String ":" (String " " (String "034" tail))))))
             + 2 = S (S (S k))).
  { cbn [String.length]. eexists. cbn [Nat.mul Nat.add].
    rewrite Nat.add_succ_r. cbn [Nat.add]. reflexivity. }
  destruct Hfuel as [k ->]. exists k.
  change (json.skip_ws (String "{" ?r)) with (String "{" r).
  now rewrite scan_open_record.
Qed.

Lemma decode_checkpoint_whole (timestamp : string) :
  is_ascii timestamp = true ->
  json.decode (checkpoint_record timestamp)
  = Some (PDict [("last_run", PStr timestamp)]).
Proof.
  intros Hs. rewrite checkpoint_record_parts.
  destruct (decode_open_record
              (String.concat "" (map json.escape_char (cp_chars timestamp))
               ++ String "034" "}")) as [k ->].
  now rewrite (scanstring_escaped timestamp "}" Hs).
Qed.

Lemma load_checkpoint_record (timestamp : string) (w : world) :
  is_ascii timestamp = true ->
  state_file w = Some (checkpoint_record timestamp) ->
  load_last_run w = (Ok (PStr timestamp), w).
Proof.
  intros Hs Hfile. unfold load_last_run, json.loads. rewrite Hfile.
  now rewrite (decode_checkpoint_whole timestamp Hs).
Qed.

(** *** A record that was not written to its end *)

Lemma substring_app (n : nat) (a b : string) :
  String.substring 0 n (a ++ b)
  = String.substring 0 n a ++ String.substring 0 (n - String.length a) b.
Proof.
  revert n. induction a as [|c a IH]; intros n.
  - cbn [String.append String.length]. rewrite Nat.sub_0_r. now destruct n.
  - destruct n as [|n]; [now destruct b|].
    cbn [String.append String.length String.substring Nat.sub]. now rewrite IH.
Qed.

Lemma substring_all (n : nat) (s : string) :
  String.length s <= n -> String.substring 0 n s = s.
Proof.
  revert n. induction s as [|c r IH]; intros n H; [now destruct n|].
  destruct n as [|n]; [cbn in H; lia|]. cbn in H |- *. rewrite IH; [reflexivity | lia].
Qed.

Lemma length_app_string (a b : string) :
  String.length (a ++ b) = String.length a + String.length b.
Proof. induction a as [|c a IH]; cbn; [reflexivity | now rewrite IH]. Qed.

(** An escape that is cut short does not scan: the str is not closed. *)
Lemma scanstring_escape_cut (c : ascii) (k : nat) :
  Nat.ltb (nat_of_ascii c) 128 = true ->
  k < String.length (json.escape_char (String c "")) ->
  json.scanstring (String.substring 0 k (json.escape_char (String c ""))) = None.
Proof.
  destruct c as [b0 b1 b2 b3 b4 b5 b6 b7]. intros H.
  destruct b7.
  { destruct b0, b1, b2, b3, b4, b5, b6; vm_compute in H; discriminate. }
  clear H. revert k.
  destruct b0, b1, b2, b3, b4, b5, b6;
    match goal with
    | |- forall k, k < String.length ?e -> _ =>
        let v := eval vm_compute in e in
        replace e with v by (vm_compute; reflexivity)
    end;
    intros k Hk; cbn [String.length] in Hk;
    do 6 (destruct k as [|k]; [reflexivity|]); lia.
Qed.

Lemma scanstring_cut (s : string) (k : nat) :
  is_ascii s = true ->
  json.scanstring
    (String.substring 0 k (String.concat "" (map json.escape_char (cp_chars s))))
  = None.
Proof.
  intros Hs. unfold cp_chars. rewrite (cp_chars_aux_ascii s _ Hs (le_n _)).
  revert k. induction s as [|c r IH]; intros k.
  - now destruct k.
  - cbn in Hs. apply andb_true_iff in Hs as [Hc Hr].
    cbn [list_ascii_of_string map]. rewrite concat_cons, substring_app.
    destruct (Nat.lt_ge_cases k (String.length (json.escape_char (String c ""))))
      as [Hshort|Hlong].
    + replace (k - String.length (json.escape_char (String c ""))) with 0 by lia.
      replace (String.substring 0 0 _) with ""%string
        by (now destruct (String.concat "" _)).
      rewrite append_empty. now apply scanstring_escape_cut.
    + rewrite (substring_all _ _ Hlong), (scanstring_escape_char c _ Hc).
      now rewrite (IH Hr).
Qed.

(** No proper beginning of the record is JSON. *)
Lemma decode_checkpoint_torn (timestamp : string) (n : nat) :
  is_ascii timestamp = true ->
  n < String.length (checkpoint_record timestamp) ->
  json.decode (String.substring 0 n (checkpoint_record timestamp)) = None.
Proof.
  intros Hs Hn. rewrite checkpoint_record_parts in Hn |- *.
  set (stamp := String.concat "" (map json.escape_char (cp_chars timestamp))) in *.
  change (String "{" (String "034" ("last_run" ++ String "034"
            (String ":" (String " " (String "034" (stamp ++ String "034" "}")))))))
    with ((String "{" (String "034" ("last_run" ++ String "034"
             (String ":" (String " " (String "034" "")))))) ++ (stamp ++ String "034" "}"))
    in Hn |- *.
  rewrite length_app_string in Hn. rewrite substring_app.
  change (String.length (String "{" (String "034" ("last_run" ++ String "034"
            (String ":" (String " " (String "034" "")))))))
    with 14 in Hn |- *.
  rewrite length_app_string in Hn. cbn [String.length] in Hn.
  destruct (Nat.lt_ge_cases n 14) as [Hhead|Hbody].
  - replace (n - 14) with 0 by lia.
    replace (String.substring 0 0 (stamp ++ String "034" "}")) with ""%string
      by (now destruct (stamp ++ String "034" "}")).
    rewrite append_empty. clear Hn.
    do 14 (destruct n as [|n]; [vm_compute; reflexivity|]). lia.
  - rewrite substring_all by exact Hbody.
    change ((String "{" (String "034" ("last_run" ++ String "034"
               (String ":" (String " " (String "034" "")))))) ++ ?tail)
      with (String "{" (String "034" ("last_run" ++ String "034"
              (String ":" (String " " (String "034" tail)))))).
    destruct (decode_open_record (String.substring 0 (n - 14) (stamp ++ String "034" "}")))
      as [k ->].
    rewrite substring_app.
    destruct (Nat.le_gt_cases (n - 14) (String.length stamp)) as [Hin|Hout].
    + replace (n - 14 - String.length stamp) with 0 by lia.
      cbn [String.substring]. rewrite append_empty.
      unfold stamp. now rewrite (scanstring_cut timestamp (n - 14) Hs).
    + replace (n - 14 - String.length stamp) with 1 by lia.
      rewrite (substring_all _ stamp) by lia.
      cbn [String.substring]. unfold stamp.
      now rewrite (scanstring_escaped timestamp "" Hs).
Qed.

Lemma save_last_run_run (timestamp : string) (w : world) :
  let run := save_last_run timestamp w in
  fst run = (if state_file_writable (env w) then Ok tt else Raise OSError) /\
  state_file (snd run)
  = match state_file_write (env w) with
    | Written => Some (checkpoint_record timestamp)
    | Refused => state_file w
    | Torn n => Some (String.substring 0 n (checkpoint_record timestamp))
    end /\
  env (snd run) = env w /\
  trace (snd run) = (trace w ++ [OpenForWriting])%list.
Proof.
  unfold save_last_run, state_file_writable, bind, log, ask, write_state_file, lift.
  cbn [env logged].
  destruct (state_file_write (env w)); repeat split; reflexivity.
Qed.

(** ** What leaves the checkpoint alone *)

Lemma quiet_refl (w : world) : quiet w w.
Proof.
  repeat split. exists []. split; [now rewrite app_nil_r | constructor].
Qed.

Lemma quiet_trans (w1 w2 w3 : world) : quiet w1 w2 -> quiet w2 w3 -> quiet w1 w3.
Proof.
  intros (He1 & Hs1 & ev1 & Ht1 & Hf1) (He2 & Hs2 & ev2 & Ht2 & Hf2).
  split; [congruence|]. split; [congruence|].
  exists (ev1 ++ ev2)%list. split.
  - now rewrite Ht2, Ht1, app_assoc.
  - apply Forall_app. now split.
Qed.

Lemma quiet_ret {A : Type} (a : A) : quiet_action (ret a).
Proof. intros w r w' H. inversion H. apply quiet_refl. Qed.

Lemma quiet_lift {A : Type} (c : outcome A) : quiet_action (lift c).
Proof. intros w r w' H. inversion H. apply quiet_refl. Qed.

Lemma quiet_ask {A : Type} (f : environment -> A) : quiet_action (ask f).
Proof. intros w r w' H. inversion H. apply quiet_refl. Qed.

Lemma quiet_log (e : event) : e <> OpenForWriting -> quiet_action (log e).
Proof.
  intros He w r w' H. inversion H. repeat split.
  exists [e]. split; [reflexivity | now constructor].
Qed.

Lemma quiet_bind {A B : Type} (c : M A) (k : A -> M B) :
  quiet_action c -> (forall a, quiet_action (k a)) -> quiet_action (bind c k).
Proof.
  intros Hc Hk w r w' H. unfold bind in H.
  destruct (c w) as [[a|e] w1] eqn:Hcw.
  - apply (quiet_trans w w1 w'); [now apply (Hc w (Ok a)) | now apply (Hk a w1 r)].
  - inversion H; subst. now apply (Hc w (Raise e)).
Qed.

Lemma quiet_next_reply : quiet_action next_reply.
Proof.
  intros w r w' H. unfold next_reply in H.
  destruct (inference w); inversion H; subst.
  - apply quiet_refl.
  - repeat split. exists []. split; [cbn; now rewrite app_nil_r | constructor].
Qed.

Lemma quiet_create_message (p : prompt) : quiet_action (create_message p).
Proof.
  unfold create_message. apply quiet_bind; [apply quiet_log; discriminate|].
  intros _. apply quiet_bind; [apply quiet_next_reply|].
  intros blocks. apply quiet_lift.
Qed.

Ltac quiet_steps :=
  repeat first
    [ apply quiet_ret | apply quiet_lift | apply quiet_ask
    | apply quiet_create_message
    | apply quiet_log; discriminate
    | apply quiet_bind; [|intro]
    | match goal with
      | |- quiet_action (if ?b then _ else _) => destruct b
      | |- quiet_action (match ?x with _ => _ end) => destruct x
      end ].

Lemma quiet_load_last_run : quiet_action load_last_run.
Proof.
  intros w r w' H. unfold load_last_run in H.
  destruct (state_file w); inversion H; apply quiet_refl.
Qed.

Lemma quiet_main_since : quiet_action main_since.
Proof.
  unfold main_since. apply quiet_bind; [apply quiet_ask|]. intros o.
  assert (Hrest : quiet_action
            (bind load_last_run (fun last_run =>
               if truthy last_run then ret last_run
               else bind (ask now) (fun today =>
                      ret (PStr (datetime.strftime_Ymd
                                   (datetime.days_before 7 today)))))))
    by (apply quiet_bind; [apply quiet_load_last_run | intro; quiet_steps]).
  destruct o as [[|c s]|]; [exact Hrest | apply quiet_ret | exact Hrest].
Qed.

Lemma quiet_fetch_completed_issues (since : value) :
  quiet_action (fetch_completed_issues since).
Proof.
  unfold fetch_completed_issues. quiet_steps.
  intros w r w' H. inversion H. apply quiet_refl.
Qed.

Lemma quiet_filter_customer_worthy (issues : value) :
  quiet_action (filter_customer_worthy issues).
Proof. unfold filter_customer_worthy. quiet_steps. Qed.

Lemma quiet_group_related_tickets (categorized_issues : value) :
  quiet_action (group_related_tickets categorized_issues).
Proof. unfold group_related_tickets. quiet_steps. Qed.

Lemma quiet_draft_release_notes (categorized_issues grouped_data : value) :
  quiet_action (draft_release_notes categorized_issues grouped_data).
Proof. unfold draft_release_notes. quiet_steps. Qed.

Lemma quiet_send_to_slack (release_notes : string) (since_date : value)
    (end_date : string) :
  quiet_action (send_to_slack release_notes since_date end_date).
Proof. unfold send_to_slack. quiet_steps. Qed.

Lemma bind_run {A B : Type} (c : M A) (k : A -> M B) (w : world)
    (r : outcome B) (w' : world) :
  bind c k w = (r, w') ->
  (exists e, c w = (Raise e, w') /\ r = Raise e) \/
  (exists a w1, c w = (Ok a, w1) /\ k a w1 = (r, w')).
Proof.
  unfold bind. destruct (c w) as [[a|e] w1]; intros H.
  - right. now exists a, w1.
  - left. inversion H; subst. now exists e.
Qed.

Lemma bind_lift_run {A B : Type} (c : outcome A) (k : A -> M B) (w : world)
    (r : outcome B) (w' : world) :
  bind (lift c) k w = (r, w') ->
  (exists e, c = Raise e /\ r = Raise e /\ w' = w) \/
  (exists a, c = Ok a /\ k a w = (r, w')).
Proof.
  unfold bind, lift. destruct c as [a|e]; intros H.
  - right. now exists a.
  - left. inversion H; subst. now exists e.
Qed.

Lemma main_since_world (w : world) : snd (main_since w) = w.
Proof.
  unfold main_since, bind, ask.
  pose proof (load_last_run_world w) as Hw.
  destruct (START_DATE (env w)) as [[|c s]|]; try reflexivity;
    destruct (load_last_run w) as [[v|e] w1]; cbn in Hw; subst w1; try reflexivity;
    destruct (truthy v); reflexivity.
Qed.

Lemma is_empty_false (v : value) (k : string) (x : value) :
  get v k (PList []) = Ok x -> is_empty x = Ok false -> part v k <> [].
Proof.
  intros Hget Hempty. unfold part. rewrite Hget. cbn [obind].
  unfold is_empty in Hempty.
  destruct x as [| | | |s|l|d]; cbn in Hempty |- *; try discriminate.
  - destruct s as [|c s]; [discriminate|]. unfold cp_chars. cbn. discriminate.
  - destruct l; [discriminate | discriminate].
  - destruct d; [discriminate | discriminate].
Qed.

Lemma main_run (w : world) (r : outcome unit) (w' : world) :
  main w = (r, w') -> quiet w w' \/ delivered_run w r w'.
Proof.
  intros H. unfold main in H.
  apply bind_run in H as [(e & Hc & ->) | (since & w1 & Hsince & H)];
    [left; exact (quiet_main_since _ _ _ Hc)|].
  pose proof (main_since_world w) as Hw1. rewrite Hsince in Hw1. cbn in Hw1. subst w1.
  apply bind_run in H as [(e & Hc & ->) | (issues & w2 & Hfetch & H)];
    [left; exact (quiet_fetch_completed_issues _ _ _ _ Hc)|].
  pose proof (quiet_fetch_completed_issues _ _ _ _ Hfetch) as Hq2.
  apply bind_lift_run in H as [(e & _ & -> & ->) | (n & _ & H)]; [now left|].
  destruct (truthy issues) eqn:Htruthy; cbn [negb] in H;
    [|left; inversion H; now subst].
  apply bind_run in H as [(e & Hc & ->) | (categorized & w3 & Hclassify & H)];
    [left; exact (quiet_trans _ _ _ Hq2 (quiet_filter_customer_worthy _ _ _ _ Hc))|].
  pose proof (quiet_trans _ _ _ Hq2 (quiet_filter_customer_worthy _ _ _ _ Hclassify))
    as Hq3.
  apply bind_lift_run in H as [(e & _ & -> & ->) | (features & Hfeatures & H)];
    [now left|].
  apply bind_lift_run in H as [(e & _ & -> & ->) | (fixes & Hfixes & H)]; [now left|].
  apply bind_lift_run in H as [(e & _ & -> & ->) | (excluded & _ & H)]; [now left|].
  apply bind_lift_run in H as [(e & _ & -> & ->) | (u1 & _ & H)]; [now left|].
  apply bind_lift_run in H as [(e & _ & -> & ->) | (u2 & _ & H)]; [now left|].
  apply bind_lift_run in H as [(e & _ & -> & ->) | (u3 & _ & H)]; [now left|].
  apply bind_lift_run in H as [(e & _ & -> & ->) | (no_features & Hnf & H)];
    [now left|].
  apply bind_lift_run in H as [(e & _ & -> & ->) | (no_fixes & Hnx & H)]; [now left|].
  assert (Hsome : part categorized "features" <> [] \/ part categorized "fixes" <> []
                  \/ andb no_features no_fixes = true).
  { destruct no_features.
    - destruct no_fixes; [now right; right|].
      right. left. now apply (is_empty_false categorized "fixes" fixes).
    - left. now apply (is_empty_false categorized "features" features). }
  destruct (andb no_features no_fixes) eqn:Hnone;
    [left; inversion H; now subst|].
  assert (Hsome' : part categorized "features" <> [] \/ part categorized "fixes" <> [])
    by (destruct Hsome as [?|[?|?]]; [now left | now right | discriminate]).
  apply bind_run in H as [(e & Hc & ->) | (grouped_data & w4 & Hgroup & H)];
    [left; exact (quiet_trans _ _ _ Hq3 (quiet_group_related_tickets _ _ _ _ Hc))|].
  pose proof (quiet_trans _ _ _ Hq3 (quiet_group_related_tickets _ _ _ _ Hgroup))
    as Hq4.
  apply bind_lift_run in H as [(e & _ & -> & ->) | (groups & _ & H)]; [now left|].
  apply bind_lift_run in H as [(e & _ & -> & ->) | (ungrouped & _ & H)]; [now left|].
  apply bind_lift_run in H as [(e & _ & -> & ->) | (u4 & _ & H)]; [now left|].
  apply bind_lift_run in H as [(e & _ & -> & ->) | (u5 & _ & H)]; [now left|].
  apply bind_run in H as [(e & Hc & ->) | (notes & w5 & Hdraft & H)];
    [left; exact (quiet_trans _ _ _ Hq4 (quiet_draft_release_notes _ _ _ _ _ Hc))|].
  pose proof (quiet_trans _ _ _ Hq4 (quiet_draft_release_notes _ _ _ _ _ Hdraft))
    as Hq5.
  unfold bind at 1, ask at 1 in H.
  assert (Henv : env w5 = env w) by apply Hq5. rewrite Henv in H.
  apply bind_run in H as [(e & Hc & ->) | (sent & w6 & Hsend & H)];
    [left; exact (quiet_trans _ _ _ Hq5 (quiet_send_to_slack _ _ _ _ _ _ Hc))|].
  pose proof (quiet_trans _ _ _ Hq5 (quiet_send_to_slack _ _ _ _ _ _ Hsend)) as Hq6.
  right. unfold delivered_run.
  exists since, issues, w2, categorized, w3, grouped_data, w4, notes, w5, sent, w6.
  repeat (split; [assumption|]). assumption.
Qed.

(** A run that reaches the checkpoint update ends as [save_last_run]
    does: with [OSError] when the state file cannot be written. *)
Lemma delivered_run_outcome (w : world) (r : outcome unit) (w' : world) :
  delivered_run w r w' ->
  r = if state_file_writable (env w) then Ok tt else Raise OSError.
Proof.
  unfold delivered_run.
  intros (since & issues & w2 & categorized & w3 & g & w4 & n & w5 & sent & w6
          & _ & _ & _ & _ & _ & _ & _ & _ & Hq & Hsave).
  destruct (save_last_run_run (datetime.strftime_Ymd (now (env w))) w6) as (Hr & _).
  rewrite Hsave in Hr. cbn [fst] in Hr. destruct Hq as (Henv & _).
  now rewrite Henv in Hr.
Qed.

(** A run that has opened the state file for writing has reached the
    checkpoint update. *)
Lemma opened_is_delivered (w : world) (r : outcome unit) (w' : world) :
  main w = (r, w') -> happened OpenForWriting w w' -> delivered_run w r w'.
Proof.
  intros Hmain (events & Htrace & Hin).
  destruct (main_run w r w' Hmain) as [(_ & _ & quiet_events & Hq & Hnone)|Hd];
    [|assumption].
  exfalso. rewrite Htrace in Hq. apply app_inv_head in Hq. subst quiet_events.
  rewrite Forall_forall in Hnone. now apply (Hnone _ Hin).
Qed.

(** A run without an override on a state file that is not JSON stops at
    once. *)
Lemma main_on_undecodable_state_file (w : world) (content : string) :
  START_DATE (env w) = None \/ START_DATE (env w) = Some "" ->
  state_file w = Some content ->
  json.decode content = None ->
  main w = (Raise JSONDecodeError, w).
Proof.
  intros Ho Hfile Hdec. unfold main. unfold bind at 1.
  unfold main_since. unfold bind at 1, ask at 1.
  assert (Hload : load_last_run w = (Raise JSONDecodeError, w)).
  { unfold load_last_run, json.loads. now rewrite Hfile, Hdec. }
  destruct Ho as [-> | ->]; unfold bind at 1; now rewrite Hload.
Qed.

(** C9 (amended).  [save_last_run] handles no error, and neither does
    [main] around it.
    - The call opens the state file for writing and then returns, with
      the record of the timestamp in the file, only if opening, writing
      and closing all succeed.  If [open] raises, [OSError] reaches the
      caller and the file is as it was; if the write or the close raises,
      [OSError] reaches the caller and the file, which [open] has
      emptied, holds the part of the record that was written.
    - A run of [main] that has opened the state file for writing ends as
      the call does: with [OSError] whenever the file cannot be written.
    - When only a proper part of the record of a date was written, the
      file is no JSON: a later run without start-date override ends with
      [JSONDecodeError] before it queries the tracker. *)
Theorem save_last_run_outcome (timestamp : string) (w : world) :
  let run := save_last_run timestamp w in
  let record := checkpoint_record timestamp in
  fst run
  = match state_file_write (env w) with
    | Written => Ok tt
    | Refused | Torn _ => Raise OSError
    end
  /\
  state_file (snd run)
  = match state_file_write (env w) with
    | Written => Some record
    | Refused => state_file w
    | Torn n => Some (String.substring 0 n record)
    end
  /\
  trace (snd run) = (trace w ++ [OpenForWriting])%list
  /\
  (forall r w',
     main w = (r, w') -> happened OpenForWriting w w' ->
     r = match state_file_write (env w) with
         | Written => Ok tt
         | Refused | Torn _ => Raise OSError
         end)
  /\
  (forall n later,
     state_file_write (env w) = Torn n ->
     n < String.length record ->
     is_ascii timestamp = true ->
     state_file later = state_file (snd run) ->
     START_DATE (env later) = None \/ START_DATE (env later) = Some "" ->
     main later = (Raise JSONDecodeError, later)).
Proof.
  intros run record.
  destruct (save_last_run_run timestamp w) as (Hr & Hfile & _ & Htrace).
  fold run in Hr, Hfile, Htrace. fold record in Hfile.
  split; [|split; [exact Hfile | split; [exact Htrace | split]]].
  - rewrite Hr. unfold state_file_writable.
    now destruct (state_file_write (env w)).
  - intros r w' Hmain Hopened.
    rewrite (delivered_run_outcome w r w' (opened_is_delivered w r w' Hmain Hopened)).
    unfold state_file_writable. now destruct (state_file_write (env w)).
  - intros n later Hfate Hn Hascii Hlater Ho.
    rewrite Hfate in Hfile. rewrite Hfile in Hlater.
    apply (main_on_undecodable_state_file later _ Ho Hlater).
    now apply decode_checkpoint_torn.
Qed.

(** The theorem on the sample run whose write is torn after five bytes:
    the run ends with [OSError], the file holds the five bytes, and the
    next run cannot read them. *)
Lemma save_last_run_outcome_witness :
  let w := Sample.torn_run in
  let saved := snd (save_last_run "2026-03-04" w) in
  fst (save_last_run "2026-03-04" w) = Raise OSError /\
  state_file saved = Some (String "{" (String "034" "las")) /\
  fst (main w) = Raise OSError /\
  main saved = (Raise JSONDecodeError, saved).
Proof.
  intros w saved.
  destruct (save_last_run_outcome "2026-03-04" w) as (Hr & Hfile & _ & Hmain & Hnext).
  split; [exact Hr|]. split; [exact Hfile|]. split.
  - apply (Hmain (fst (main w)) (snd (main w))).
    + now destruct (main w).
    + exists [Query (PStr "2026-02-20"); Create ClassifyPrompt; Create GroupPrompt;
              Create DraftPrompt; OpenForWriting].
      split; [vm_compute; reflexivity | cbn; auto 6].
  - apply (Hnext 5 saved); [reflexivity | vm_compute; lia | reflexivity | reflexivity
                            | now left].
Defined.

(** C9, as stated, fails: a state file that cannot be written makes
    [save_last_run] raise, and the run that called it ends with the
    exception. *)
Lemma write_failure_propagates :
  fst (save_last_run "2026-03-04" Sample.read_only_run) = Raise OSError /\
  fst (main Sample.read_only_run) = Raise OSError.
Proof. split; vm_compute; reflexivity. Qed.

(** *** What [main] lists after the classification *)

Lemma dict_lookup_set_other (k k' : string) (v : value) (d : list (string * value)) :
  String.eqb k k' = false -> dict_lookup k (dict_set k' v d) = dict_lookup k d.
Proof.
  intros Hk. induction d as [|[k0 v0] rest IH]; cbn.
  - now rewrite Hk.
  - destruct (String.eqb k' k0) eqn:E; cbn.
    + apply String.eqb_eq in E. subst k0. now rewrite Hk.
    + destruct (String.eqb k k0); [reflexivity | exact IH].
Qed.

Lemma filter_customer_worthy_prompt (issues : value) (w : world) (r : value) (w' : world) :
  truthy issues = true ->
  filter_customer_worthy issues w = (Ok r, w') ->
  exists items texts, iter issues = Ok items /\ omap issue_text items = Ok texts.
Proof.
  intros Hne Hrun. unfold filter_customer_worthy in Hrun. rewrite Hne in Hrun.
  cbn [negb] in Hrun.
  apply bind_Ok in Hrun as (u & w1 & Hprompt & _).
  apply lift_run in Hprompt as [Hprompt _]. symmetry in Hprompt.
  destruct (iter issues) as [items|]; [|discriminate].
  now exists items, u.
Qed.

(** A ticket that the classifier has rendered into its prompt can be
    listed, with any reason attached. *)
Lemma listed_with_reason (issue reason d : value) (text : unit) :
  issue_text issue = Ok text -> with_reason issue reason = Ok d ->
  exists v, listed d = Ok v.
Proof.
  unfold issue_text, with_reason, listed, get_assignee, get_assignee_name.
  intros Htext Hd.
  destruct issue as [| | | | | |fields]; try discriminate.
  inversion Hd; subst d. clear Hd. cbn [getitem get] in Htext |- *.
  rewrite !dict_lookup_set_other by reflexivity.
  destruct (dict_lookup "id" fields); [|discriminate]. cbn [obind] in Htext.
  destruct (dict_lookup "title" fields); [|discriminate]. cbn [obind] in Htext |- *.
  set (assignee := match dict_lookup "assignee" fields with
                   | Some x => x
                   | None => PNone
                   end) in *.
  destruct (truthy assignee); cbn [negb obind]; [|now eexists].
  cbn [negb] in Htext.
  destruct assignee as [| | | | | |person]; try discriminate.
  cbn [get obind]. now eexists.
Qed.

(** What the classifier returns on tickets: the four-key dict, whose
    tickets [main] can list. *)
Lemma classified_listed (issues : value) (w : world) (r : value) (w' : world) :
  truthy issues = true ->
  filter_customer_worthy issues w = (Ok r, w') ->
  (exists n, len issues = Ok n) /\
  exists features fixes excluded decisions,
    r = categorized features fixes excluded decisions /\
    Forall (fun d => exists v, listed d = Ok v) (features ++ fixes ++ excluded).
Proof.
  intros Hne Hrun.
  destruct (filter_customer_worthy_prompt issues w r w' Hne Hrun)
    as (items & texts & Hitems & Htexts).
  split.
  { destruct issues; try discriminate; cbn; now eexists. }
  destruct (filter_customer_worthy_inv issues w r w' Hne Hrun) as (reply & _ & H).
  destruct (decode_decisions (strip reply)) as [decisions|].
  - destruct H as (ds & dm & items' & ps & _ & _ & Hitems' & Hps & ->).
    rewrite Hitems in Hitems'. inversion Hitems'; subst items'.
    exists (select Feature ps), (select Fix ps), (select Excluded ps), decisions.
    split; [reflexivity|].
    assert (Hall : forall c d, In d (select c ps) -> exists v, listed d = Ok v).
    { intros c d Hd. unfold select in Hd. apply in_map_iff in Hd as ([c' d'] & <- & Hd).
      apply filter_In in Hd as [Hd _].
      destruct (omap_from _ _ _ _ Hps Hd) as (issue & Hissue & Hplace).
      destruct (placement_decorates dm issue c' d' Hplace) as [reason Hreason].
      destruct (omap_In _ _ _ issue Htexts Hissue) as (text & Htext & _).
      exact (listed_with_reason issue reason d' text Htext Hreason). }
    rewrite !Forall_app. repeat split; apply Forall_forall; intros d Hd;
      eapply Hall; exact Hd.
  - subst r. exists [], [], [], (PList []). split; [reflexivity | constructor].
Qed.

Lemma print_stage_listed (items : list value) :
  Forall (fun d => exists v, listed d = Ok v) items -> print_stage (PList items) = Ok tt.
Proof.
  intros H. unfold print_stage. cbn [len iter obind].
  destruct (omap_all_Ok listed items H) as [vs Hvs].
  change (omap (fun item => _ <- getitem item "title" ;;
                            _ <- get_assignee_name item ;;
                            get item "reason" (PStr "N/A")) items)
    with (omap listed items).
  now rewrite Hvs.
Qed.

(** Where a run ends when the classification has no feature and no fix. *)
Lemma main_nothing_worthy (w : world) (since issues : value) (w2 : world)
    (categorized : value) (w3 : world) :
  main_since w = (Ok since, w) ->
  fetch_completed_issues since w = (Ok issues, w2) ->
  truthy issues = true ->
  filter_customer_worthy issues w2 = (Ok categorized, w3) ->
  part categorized "features" = [] ->
  part categorized "fixes" = [] ->
  main w = (Ok tt, w3).
Proof.
  intros Hsince Hfetch Htruthy Hclassify Hfeatures Hfixes.
  destruct (classified_listed issues w2 categorized w3 Htruthy Hclassify)
    as ([n Hlen] & features & fixes & excluded & decisions & -> & Hlisted).
  change (part (changelog_bot.categorized features fixes excluded decisions) "features")
    with features in Hfeatures.
  change (part (changelog_bot.categorized features fixes excluded decisions) "fixes")
    with fixes in Hfixes.
  subst features fixes. cbn [app] in Hlisted.
  unfold main.
  unfold bind at 1. rewrite Hsince.
  unfold bind at 1. rewrite Hfetch.
  unfold bind at 1. unfold lift at 1. rewrite Hlen. rewrite Htruthy. cbn [negb].
  unfold bind at 1. rewrite Hclassify.
  unfold bind at 1. unfold lift at 1.
  change (get (changelog_bot.categorized [] [] excluded decisions) "features" (PList []))
    with (Ok (PList [])).
  unfold bind at 1. unfold lift at 1.
  change (get (changelog_bot.categorized [] [] excluded decisions) "fixes" (PList []))
    with (Ok (PList [])).
  unfold bind at 1. unfold lift at 1.
  change (get (changelog_bot.categorized [] [] excluded decisions) "excluded" (PList []))
    with (Ok (PList excluded)).
  cbv beta iota.
  change (print_stage (PList [])) with (@Ok unit tt).
  rewrite (print_stage_listed excluded Hlisted).
  reflexivity.
Qed.

(** C10.  The checkpoint is written only by a run that delivers.  For
    every run of [main]:
    - either the run leaves the state file as it was and never opens it
      for writing, or it has gone through classification with a feature or
      a fix, grouping, drafting and delivery, and ends in [save_last_run]
      of today's date;
    - if the tracker returns no ticket, the run returns right after the
      query, without an exception, and is of the first kind;
    - if the classification of the tickets has no feature and no fix, the
      run returns right after the classification, without an exception,
      and is of the first kind;
    - in a run of the second kind the state file is opened for writing
      once, at the end, and then holds the record of today's date if it can
      be written, is as it was if it cannot be opened, and holds the part
      that was written if the write fails. *)
Theorem checkpoint_only_after_delivery (w : world) (r : outcome unit) (w' : world) :
  main w = (r, w') ->
  (quiet w w' \/ delivered_run w r w')
  /\
  (forall since w2,
     main_since w = (Ok since, w) ->
     fetch_completed_issues since w = (Ok (PList []), w2) ->
     r = Ok tt /\ w' = w2 /\ quiet w w')
  /\
  (forall since issues w2 categorized w3,
     main_since w = (Ok since, w) ->
     fetch_completed_issues since w = (Ok issues, w2) ->
     filter_customer_worthy issues w2 = (Ok categorized, w3) ->
     part categorized "features" = [] ->
     part categorized "fixes" = [] ->
     quiet w w' /\ (truthy issues = true -> r = Ok tt /\ w' = w3))
  /\
  (delivered_run w r w' ->
   exists w6,
     quiet w w6 /\
     trace w' = (trace w6 ++ [OpenForWriting])%list /\
     state_file w'
     = match state_file_write (env w) with
       | Written =>
           Some ("{" ++ json.dumps_str "last_run" ++ ": "
                 ++ json.dumps_str (datetime.strftime_Ymd (now (env w))) ++ "}")
       | Refused => state_file w
       | Torn n =>
           Some (String.substring 0 n
                   ("{" ++ json.dumps_str "last_run" ++ ": "
                    ++ json.dumps_str (datetime.strftime_Ymd (now (env w))) ++ "}"))
       end).
Proof.
  intros Hmain. split; [now apply main_run|]. split; [|split].
  - intros since w2 Hsince Hfetch.
    unfold main, bind in Hmain. rewrite Hsince, Hfetch in Hmain. cbn in Hmain.
    inversion Hmain; subst. split; [reflexivity|]. split; [reflexivity|].
    exact (quiet_fetch_completed_issues _ _ _ _ Hfetch).
  - intros since issues w2 categorized w3 Hsince Hfetch Hclassify Hfeatures Hfixes.
    split.
    + destruct (main_run w r w' Hmain) as [Hq|Hd]; [assumption|].
      exfalso. unfold delivered_run in Hd.
      destruct Hd as (since' & issues' & w2' & categorized' & w3' & g & w4 & n & w5
                      & sent & w6 & Hsince' & Hfetch' & _ & Hclassify' & Hsome & _).
      rewrite Hsince in Hsince'. inversion Hsince'; subst since'.
      rewrite Hfetch in Hfetch'. inversion Hfetch'; subst issues' w2'.
      rewrite Hclassify in Hclassify'. inversion Hclassify'; subst categorized' w3'.
      destruct Hsome as [Hsome|Hsome]; now apply Hsome.
    + intros Htruthy.
      rewrite (main_nothing_worthy w since issues w2 categorized w3 Hsince Hfetch
                 Htruthy Hclassify Hfeatures Hfixes) in Hmain.
      inversion Hmain. now split.
  - intros Hd. unfold delivered_run in Hd.
    destruct Hd as (since & issues & w2 & categorized & w3 & g & w4 & n & w5
                    & sent & w6 & _ & _ & _ & _ & _ & _ & _ & _ & Hq & Hsave).
    exists w6. split; [assumption|].
    destruct (save_last_run_run (datetime.strftime_Ymd (now (env w))) w6)
      as (_ & Hfile & _ & Htrace).
    rewrite Hsave in Hfile, Htrace. cbn [snd] in Hfile, Htrace.
    split; [assumption|]. rewrite Hfile.
    destruct Hq as (Henv & Hstate & _). rewrite Henv, Hstate. reflexivity.
Qed.

(** The theorem on three sample runs: one in which the tracker has no
    ticket, one in which the classification keeps nothing, and one that
    delivers. *)
Lemma checkpoint_only_after_delivery_witness :
  (let w := Sample.idle_run in
   fst (main w) = Ok tt /\
   snd (main w) = snd (fetch_completed_issues (PStr "2026-02-20") w) /\
   quiet w (snd (main w)))
  /\
  (let w := Sample.world_with [Sample.says "[]"] in
   let w2 := snd (fetch_completed_issues (PStr "2026-02-25") w) in
   quiet w (snd (main w)) /\
   fst (main w) = Ok tt /\
   snd (main w) = snd (filter_customer_worthy (PList Sample.three_tickets) w2))
  /\
  (let w := Sample.world_with Sample.full_replies in
   let r := fst (main w) in
   let w' := snd (main w) in
   (quiet w w' \/ delivered_run w r w') /\
   (delivered_run w r w' ->
    exists w6,
      quiet w w6 /\
      trace w' = (trace w6 ++ [OpenForWriting])%list /\
      state_file w' = Some (Sample.dq "{'last_run': '2026-03-04'}"))).
Proof.
  split; [|split].
  - intros w.
    destruct (checkpoint_only_after_delivery w (fst (main w)) (snd (main w)))
      as (_ & Hnone & _); [now destruct (main w)|].
    apply (Hnone (PStr "2026-02-20")); [vm_compute; reflexivity|].
    unfold fetch_completed_issues, bind, log, lift. reflexivity.
  - intros w w2.
    destruct (checkpoint_only_after_delivery w (fst (main w)) (snd (main w)))
      as (_ & _ & Hnothing & _); [now destruct (main w)|].
    destruct (Hnothing (PStr "2026-02-25") (PList Sample.three_tickets) w2
                (Sample.value_of
                   (filter_customer_worthy (PList Sample.three_tickets) w2))
                (snd (filter_customer_worthy (PList Sample.three_tickets) w2)))
      as [Hq Hr]; try (vm_compute; reflexivity).
    split; [exact Hq|]. exact (Hr eq_refl).
  - intros w r w'.
    destruct (checkpoint_only_after_delivery w r w') as (Hkind & _ & _ & Hfile);
      [unfold r, w'; now destruct (main w)|].
    split; [exact Hkind | exact Hfile].
Defined.

(** ** Sample runs *)

(** The scenario of the three tickets: A is a feature, B a fix, C excluded. *)
Example three_tickets_classified :
  let r := Sample.value_of
             (filter_customer_worthy (PList Sample.three_tickets)
                (Sample.world_with [Sample.says Sample.decisions_text])) in
  map (fun t => getitem t "id") (part r "features") = [Ok (PStr "A")] /\
  map (fun t => getitem t "id") (part r "fixes") = [Ok (PStr "B")] /\
  map (fun t => getitem t "id") (part r "excluded") = [Ok (PStr "C")].
Proof. repeat split. Qed.

(** A first run that delivers: the boundary is seven days back, the three
    prompts are sent in order, the checkpoint is written last. *)
Example delivering_run :
  let run := main (Sample.world_with Sample.full_replies) in
  fst run = Ok tt /\
  trace (snd run)
  = [Query (PStr "2026-02-25"); Create ClassifyPrompt; Create GroupPrompt;
     Create DraftPrompt; OpenForWriting] /\
  state_file (snd run) = Some (Sample.dq "{'last_run': '2026-03-04'}") /\
  fst (load_last_run (snd run)) = Ok (PStr "2026-03-04").
Proof. repeat split; vm_compute; reflexivity. Qed.

(** A run in which the tracker has no ticket stops after the query; the
    stored checkpoint is the boundary and stays as it is. *)
Example idle_run_returns_early :
  let run := main Sample.idle_run in
  fst run = Ok tt /\
  trace (snd run) = [Query (PStr "2026-02-20")] /\
  state_file (snd run) = state_file Sample.idle_run.
Proof. repeat split; vm_compute; reflexivity. Qed.

(** A ticket that the decision list does not mention is excluded with the
    sentinel reason. *)
Example unmentioned_ticket_is_excluded :
  let r := Sample.value_of
             (filter_customer_worthy (PList Sample.three_tickets)
                (Sample.world_with [Sample.says Sample.two_decisions_text])) in
  part r "excluded"
  = [PDict [("id", PStr "C"); ("title", PStr "Refactor internal auth schema");
            ("reason", PStr "No reason given")]].
Proof. reflexivity. Qed.

(** A run in which nothing is customer-worthy stops after the classifier. *)
Example nothing_worthy_run :
  let run := main (Sample.world_with [Sample.says "[]"]) in
  fst run = Ok tt /\
  trace (snd run) = [Query (PStr "2026-02-25"); Create ClassifyPrompt] /\
  state_file (snd run) = None.
Proof. repeat split; vm_compute; reflexivity. Qed.

(** A known id resolves to its ticket, an unknown one to the placeholder. *)
Example resolve_known_and_unknown :
  let all_by_id := Sample.index_of Sample.three_tickets in
  resolve all_by_id (PStr "A") = Ok Sample.csv_export /\
  resolve all_by_id (PStr "Z")
  = Ok (PDict [("id", PStr "Z"); ("title", PStr "Unknown")]) /\
  resolve all_by_id (PList [PStr "A"]) = Raise TypeError.
Proof. repeat split. Qed.

(** A decision whose reason is null is enough to stop the grouper: the
    excluded ticket keeps the null, and [.lower()] is called on it. *)
Example null_reason_stops_the_grouper :
  let replies :=
    [Sample.says (Sample.dq "[{'id': 'A', 'decision': 'feature', 'reason': 'New'},
                              {'id': 'C', 'decision': 'exclude', 'reason': null}]");
     Sample.says Sample.grouping_text; Sample.says "notes"] in
  fst (main (Sample.world_with replies)) = Raise AttributeError.
Proof. vm_compute. reflexivity. Qed.

(* ================================================================== *)
(** * Further properties *)
(* ================================================================== *)

(** ** The events of a run *)

Lemma creations_app (e1 e2 : list event) :
  creations (e1 ++ e2) = creations e1 + creations e2.
Proof. unfold creations. now rewrite filter_app, length_app. Qed.

Lemma extends_refl (w : world) : extends w w [].
Proof. repeat split. cbn. now rewrite app_nil_r. Qed.

Lemma extends_trans (w1 w2 w3 : world) (e1 e2 : list event) :
  extends w1 w2 e1 -> extends w2 w3 e2 -> extends w1 w3 (e1 ++ e2).
Proof.
  intros (He1 & Ht1 & Hi1) (He2 & Ht2 & Hi2).
  split; [congruence|]. split.
  - now rewrite Ht2, Ht1, app_assoc.
  - rewrite Hi2, Hi1, creations_app, Nat.add_comm. apply skipn_skipn.
Qed.

Lemma create_message_extends (p : prompt) (w : world) (r : outcome string) (w' : world) :
  create_message p w = (r, w') -> extends w w' [Create p].
Proof.
  unfold create_message, bind, log, next_reply, lift. cbn [inference logged].
  destruct (inference w) as [|[blocks|e] rest] eqn:Hinf; intros H; inversion H;
    repeat split; cbn; now rewrite ?Hinf.
Qed.

Lemma filter_customer_worthy_events (issues : value) (w : world)
    (r : outcome value) (w' : world) :
  filter_customer_worthy issues w = (r, w') ->
  (w' = w /\ (truthy issues = false \/ exists e, r = Raise e)) \/
  extends w w' [Create ClassifyPrompt].
Proof.
  unfold filter_customer_worthy. destruct (truthy issues); cbn [negb].
  - intros H.
    apply bind_lift_run in H as [(e & _ & -> & ->) | (u & _ & H)];
      [left; split; [reflexivity | right; now exists e]|].
    right.
    apply bind_run in H as [(e & Hc & ->) | (reply & w1 & Hc & H)];
      [now apply (create_message_extends _ _ _ _ Hc)|].
    apply create_message_extends in Hc.
    destruct (decode_decisions (strip reply)); inversion H; now subst.
  - intros H. inversion H. left. split; [reflexivity | now left].
Qed.

Lemma group_related_tickets_events (categorized_issues : value) (w : world)
    (r : outcome value) (w' : world) :
  group_related_tickets categorized_issues w = (r, w') ->
  (w' = w /\ ((exists e, r = Raise e) \/ nothing_worthy categorized_issues)) \/
  extends w w' [Create GroupPrompt].
Proof.
  unfold group_related_tickets. intros H.
  apply bind_lift_run in H as [(e & _ & -> & ->) | (features & Hf & H)];
    [left; split; [reflexivity | left; now exists e]|].
  apply bind_lift_run in H as [(e & _ & -> & ->) | (fixes & Hx & H)];
    [left; split; [reflexivity | left; now exists e]|].
  apply bind_lift_run in H as [(e & _ & -> & ->) | (excluded & _ & H)];
    [left; split; [reflexivity | left; now exists e]|].
  destruct (truthy features) eqn:Htf; [|destruct (truthy fixes) eqn:Htx];
    cbn [negb andb] in H.
  3: { inversion H. left. split; [reflexivity|]. right. now exists features, fixes. }
  all: apply bind_lift_run in H as [(e & _ & -> & ->) | (all_tickets & _ & H)];
    [left; split; [reflexivity | left; now exists e]|];
    right;
    apply bind_run in H as [(e & Hc & ->) | (reply & w1 & Hc & H)];
    [now apply (create_message_extends _ _ _ _ Hc)|];
    apply create_message_extends in Hc;
    destruct (decode_grouping (strip reply)); inversion H; now subst.
Qed.

Lemma draft_release_notes_events (categorized_issues grouped_data : value) (w : world)
    (r : outcome string) (w' : world) :
  draft_release_notes categorized_issues grouped_data w = (r, w') ->
  (w' = w /\ ((exists e, r = Raise e) \/ nothing_worthy categorized_issues)) \/
  extends w w' [Create DraftPrompt].
Proof.
  unfold draft_release_notes. intros H.
  apply bind_lift_run in H as [(e & _ & -> & ->) | (groups & _ & H)];
    [left; split; [reflexivity | left; now exists e]|].
  apply bind_lift_run in H as [(e & _ & -> & ->) | (ungrouped & _ & H)];
    [left; split; [reflexivity | left; now exists e]|].
  apply bind_lift_run in H as [(e & _ & -> & ->) | (features & Hf & H)];
    [left; split; [reflexivity | left; now exists e]|].
  apply bind_lift_run in H as [(e & _ & -> & ->) | (fixes & Hx & H)];
    [left; split; [reflexivity | left; now exists e]|].
  destruct (truthy features) eqn:Htf; [|destruct (truthy fixes) eqn:Htx];
    cbn [negb andb] in H.
  3: { inversion H. left. split; [reflexivity|]. right. now exists features, fixes. }
  all: apply bind_lift_run in H as [(e & _ & -> & ->) | (u1 & _ & H)];
    [left; split; [reflexivity | left; now exists e]|];
    apply bind_lift_run in H as [(e & _ & -> & ->) | (u2 & _ & H)];
    [left; split; [reflexivity | left; now exists e]|];
    right;
    apply bind_run in H as [(e & Hc & ->) | (reply & w1 & Hc & H)];
    [now apply (create_message_extends _ _ _ _ Hc)|];
    apply create_message_extends in Hc;
    inversion H; now subst.
Qed.

Lemma fetch_completed_issues_extends (since : value) (w : world)
    (r : outcome value) (w' : world) :
  fetch_completed_issues since w = (r, w') -> extends w w' [Query since].
Proof.
  unfold fetch_completed_issues, bind, log, lift. cbn [env logged].
  destruct (tracker (env w)) as [body|e]; intros H; inversion H; now repeat split.
Qed.

Lemma send_to_slack_run (release_notes : string) (since_date : value)
    (end_date : string) (w : world) :
  exists sent w',
    send_to_slack release_notes since_date end_date w = (Ok sent, w') /\
    extends w w' (posts (SLACK_WEBHOOK_URL (env w))) /\
    state_file w' = state_file w.
Proof.
  unfold send_to_slack, bind, ask, log, ret.
  destruct (SLACK_WEBHOOK_URL (env w)) as [[|c u]|]; cbn;
    eexists; eexists; (split; [reflexivity|]); repeat split;
    cbn; now rewrite ?app_nil_r.
Qed.

Lemma save_last_run_extends (timestamp : string) (w : world)
    (r : outcome unit) (w' : world) :
  save_last_run timestamp w = (r, w') -> extends w w' [OpenForWriting].
Proof.
  unfold save_last_run, bind, log, ask, write_state_file, lift. cbn [env logged].
  destruct (state_file_write (env w)); intros H; inversion H; now repeat split.
Qed.

Lemma is_empty_truthy (x : value) : is_empty x = Ok false -> truthy x = true.
Proof.
  unfold is_empty. destruct x as [| | | |s|l|d]; cbn; try discriminate.
  - destruct s; [discriminate | reflexivity].
  - destruct l; [discriminate | reflexivity].
  - destruct d; [discriminate | reflexivity].
Qed.

(** X1.  The events of a run.  Whatever the world, a run of [main] does, in
    this order and each at most once: the query to the tracker, the
    classification call, the grouping call, the drafting call, the post to a
    configured webhook, the opening of the state file; every call to the
    inference service takes one reply.  The run either stops somewhere in
    the first four, or does all of them; when it stops and returns
    normally, it has stopped after the query or after the classification. *)
Theorem run_events (w : world) (r : outcome unit) (w' : world) :
  main w = (r, w') ->
  exists since events,
    extends w w' events /\
    ((exists n, events = firstn n (pipeline_events since) /\
                (r = Ok tt -> n = 1 \/ n = 2))
     \/
     events = (pipeline_events since ++ posts (SLACK_WEBHOOK_URL (env w))
               ++ [OpenForWriting])%list).
Proof.
  intros H. unfold main in H.
  apply bind_run in H as [(e & Hc & ->) | (since & w1 & Hsince & H)].
  { pose proof (main_since_world w) as Hw. rewrite Hc in Hw. cbn in Hw. subst w'.
    exists PNone, []. split; [apply extends_refl|]. left. exists 0.
    split; [reflexivity | discriminate]. }
  pose proof (main_since_world w) as Hw1. rewrite Hsince in Hw1. cbn in Hw1. subst w1.
  exists since.
  assert (Hstop1 : forall e, extends w w' [Query since] ->
            exists events, extends w w' events /\
              ((exists n, events = firstn n (pipeline_events since) /\
                          (Raise e = Ok tt -> n = 1 \/ n = 2)) \/
               events = (pipeline_events since ++ posts (SLACK_WEBHOOK_URL (env w))
                         ++ [OpenForWriting])%list)).
  { intros e Hx. exists [Query since]. split; [assumption|]. left. exists 1.
    split; [reflexivity | discriminate]. }
  apply bind_run in H as [(e & Hc & ->) | (issues & w2 & Hfetch & H)];
    [apply Hstop1; exact (fetch_completed_issues_extends _ _ _ _ Hc)|].
  pose proof (fetch_completed_issues_extends _ _ _ _ Hfetch) as Hx2.
  apply bind_lift_run in H as [(e & _ & -> & ->) | (n0 & _ & H)];
    [now apply Hstop1|].
  destruct (truthy issues) eqn:Htruthy; cbn [negb] in H.
  2: { inversion H; subst. exists [Query since]. split; [assumption|].
       left. exists 1. split; [reflexivity | now left]. }
  clear Hstop1.
  apply bind_run in H as [(e & Hc & ->) | (categorized & w3 & Hclassify & H)].
  { destruct (filter_customer_worthy_events _ _ _ _ Hc) as [[-> _]|Hx].
    - exists [Query since]. split; [assumption|]. left. exists 1.
      split; [reflexivity | discriminate].
    - exists ([Query since] ++ [Create ClassifyPrompt])%list.
      split; [exact (extends_trans _ _ _ _ _ Hx2 Hx)|]. left. exists 2.
      split; [reflexivity | discriminate]. }
  assert (Hx3 : extends w w3 [Query since; Create ClassifyPrompt]).
  { destruct (filter_customer_worthy_events _ _ _ _ Hclassify)
      as [[_ [Hf|[e He]]]|Hx]; [congruence | discriminate |].
    exact (extends_trans _ _ _ _ _ Hx2 Hx). }
  assert (Hstop2 : forall r0, (r0 = Ok tt \/ exists e, r0 = Raise e) ->
            exists events, extends w w3 events /\
              ((exists n, events = firstn n (pipeline_events since) /\
                          (r0 = Ok tt -> n = 1 \/ n = 2)) \/
               events = (pipeline_events since ++ posts (SLACK_WEBHOOK_URL (env w))
                         ++ [OpenForWriting])%list)).
  { intros r0 _. exists [Query since; Create ClassifyPrompt]. split; [assumption|].
    left. exists 2. split; [reflexivity | now right]. }
  apply bind_lift_run in H as [(e & _ & -> & ->) | (features & Hfeatures & H)];
    [apply Hstop2; right; now exists e|].
  apply bind_lift_run in H as [(e & _ & -> & ->) | (fixes & Hfixes & H)];
    [apply Hstop2; right; now exists e|].
  apply bind_lift_run in H as [(e & _ & -> & ->) | (excluded & _ & H)];
    [apply Hstop2; right; now exists e|].
  apply bind_lift_run in H as [(e & _ & -> & ->) | (u1 & _ & H)];
    [apply Hstop2; right; now exists e|].
  apply bind_lift_run in H as [(e & _ & -> & ->) | (u2 & _ & H)];
    [apply Hstop2; right; now exists e|].
  apply bind_lift_run in H as [(e & _ & -> & ->) | (u3 & _ & H)];
    [apply Hstop2; right; now exists e|].
  apply bind_lift_run in H as [(e & _ & -> & ->) | (no_features & Hnf & H)];
    [apply Hstop2; right; now exists e|].
  apply bind_lift_run in H as [(e & _ & -> & ->) | (no_fixes & Hnx & H)];
    [apply Hstop2; right; now exists e|].
  destruct (andb no_features no_fixes) eqn:Hnone.
  { inversion H; subst. apply Hstop2. now left. }
  clear Hstop2.
  assert (Hworthy : ~ nothing_worthy categorized).
  { intros (f & x & Hf & Hx & Htf & Htx).
    rewrite Hfeatures in Hf. inversion Hf; subst f.
    rewrite Hfixes in Hx. inversion Hx; subst x.
    destruct no_features.
    - destruct no_fixes; [discriminate|].
      apply is_empty_truthy in Hnx. congruence.
    - apply is_empty_truthy in Hnf. congruence. }
  assert (Hraise : forall (e : exn) (evs : list event) (n : nat),
            extends w w' evs -> evs = firstn n (pipeline_events since) ->
            exists events, extends w w' events /\
              ((exists n, events = firstn n (pipeline_events since) /\
                          (Raise e = Ok tt -> n = 1 \/ n = 2)) \/
               events = (pipeline_events since ++ posts (SLACK_WEBHOOK_URL (env w))
                         ++ [OpenForWriting])%list)).
  { intros e evs n Hx Hevs. exists evs. split; [assumption|]. left. exists n.
    split; [assumption | discriminate]. }
  apply bind_run in H as [(e & Hc & ->) | (grouped_data & w4 & Hgroup & H)].
  { destruct (group_related_tickets_events _ _ _ _ Hc) as [[-> _]|Hx].
    - now apply (Hraise e _ 2 Hx3).
    - now apply (Hraise e _ 3 (extends_trans _ _ _ _ _ Hx3 Hx)). }
  assert (Hx4 : extends w w4 [Query since; Create ClassifyPrompt; Create GroupPrompt]).
  { destruct (group_related_tickets_events _ _ _ _ Hgroup)
      as [[_ [[e He]|Hn]]|Hx]; [discriminate | contradiction |].
    exact (extends_trans _ _ _ _ _ Hx3 Hx). }
  apply bind_lift_run in H as [(e & _ & -> & ->) | (groups & _ & H)];
    [now apply (Hraise e _ 3 Hx4)|].
  apply bind_lift_run in H as [(e & _ & -> & ->) | (ungrouped & _ & H)];
    [now apply (Hraise e _ 3 Hx4)|].
  apply bind_lift_run in H as [(e & _ & -> & ->) | (u4 & _ & H)];
    [now apply (Hraise e _ 3 Hx4)|].
  apply bind_lift_run in H as [(e & _ & -> & ->) | (u5 & _ & H)];
    [now apply (Hraise e _ 3 Hx4)|].
  apply bind_run in H as [(e & Hc & ->) | (notes & w5 & Hdraft & H)].
  { destruct (draft_release_notes_events _ _ _ _ _ Hc) as [[-> _]|Hx].
    - now apply (Hraise e _ 3 Hx4).
    - now apply (Hraise e _ 4 (extends_trans _ _ _ _ _ Hx4 Hx)). }
  assert (Hx5 : extends w w5 (pipeline_events since)).
  { destruct (draft_release_notes_events _ _ _ _ _ Hdraft)
      as [[_ [[e He]|Hn]]|Hx]; [discriminate | contradiction |].
    exact (extends_trans _ _ _ _ _ Hx4 Hx). }
  clear Hraise.
  unfold bind at 1, ask at 1 in H.
  destruct (send_to_slack_run notes since (datetime.strftime_Ymd (now (env w5))) w5)
    as (sent & w6 & Hsend & Hx6 & _).
  unfold bind in H. rewrite Hsend in H.
  apply save_last_run_extends in H.
  exists (pipeline_events since ++ posts (SLACK_WEBHOOK_URL (env w))
          ++ [OpenForWriting])%list.
  split; [|now right].
  assert (Henv : env w5 = env w) by apply Hx5. rewrite Henv in Hx6.
  exact (extends_trans _ _ _ _ _ Hx5 (extends_trans _ _ _ _ _ Hx6 H)).
Qed.

(** The sample run that delivers, as a witness. *)
Lemma run_events_witness :
  let w := Sample.world_with Sample.full_replies in
  main w = (fst (main w), snd (main w)) /\
  exists since events,
    extends w (snd (main w)) events /\
    ((exists n, events = firstn n (pipeline_events since) /\
                (fst (main w) = Ok tt -> n = 1 \/ n = 2))
     \/
     events = (pipeline_events since ++ posts (SLACK_WEBHOOK_URL (env w))
               ++ [OpenForWriting])%list).
Proof.
  intros w.
  assert (H : main w = (fst (main w), snd (main w))) by (vm_compute; reflexivity).
  split; [exact H|].
  exact (run_events w (fst (main w)) (snd (main w)) H).
Defined.

(** ** Delivery does not decide anything *)

Lemma blind_ret {A : Type} (a : A) : webhook_blind (ret a).
Proof. intros x w. reflexivity. Qed.

Lemma blind_lift {A : Type} (c : outcome A) : webhook_blind (lift c).
Proof. intros x w. reflexivity. Qed.

Lemma blind_log (e : event) : webhook_blind (log e).
Proof. intros x w. reflexivity. Qed.

Lemma blind_bind {A B : Type} (c : M A) (k : A -> M B) :
  webhook_blind c -> (forall a, webhook_blind (k a)) -> webhook_blind (bind c k).
Proof.
  intros Hc Hk x w. unfold bind. rewrite Hc.
  destruct (c w) as [[a|e] w1]; cbn [fst snd]; [apply Hk | reflexivity].
Qed.

Lemma blind_next_reply : webhook_blind next_reply.
Proof. intros x w. unfold next_reply. cbn. now destruct (inference w). Qed.

Lemma blind_create_message (p : prompt) : webhook_blind (create_message p).
Proof.
  unfold create_message. apply blind_bind; [apply blind_log|]. intros _.
  apply blind_bind; [apply blind_next_reply|]. intros blocks. apply blind_lift.
Qed.

Lemma blind_load_last_run : webhook_blind load_last_run.
Proof. intros x w. unfold load_last_run. cbn. now destruct (state_file w). Qed.

Ltac blind_steps :=
  repeat first
    [ apply blind_ret | apply blind_lift | apply blind_log
    | apply blind_create_message | apply blind_load_last_run
    | apply blind_bind; [|intro]
    | match goal with
      | |- webhook_blind (if ?b then _ else _) => destruct b
      | |- webhook_blind (match ?x with _ => _ end) => destruct x
      | |- webhook_blind (ask _) => intros ? ?; reflexivity
      | |- webhook_blind (fun w => _) => intros ? ?; reflexivity
      end ].

Lemma blind_main_since : webhook_blind main_since.
Proof.
  unfold main_since. apply blind_bind; [intros ? ?; reflexivity|]. intros o.
  assert (Hrest : webhook_blind
            (bind load_last_run (fun last_run =>
               if truthy last_run then ret last_run
               else bind (ask now) (fun today =>
                      ret (PStr (datetime.strftime_Ymd
                                   (datetime.days_before 7 today)))))))
    by blind_steps.
  destruct o as [[|c s]|]; [exact Hrest | apply blind_ret | exact Hrest].
Qed.

Lemma blind_fetch_completed_issues (since : value) :
  webhook_blind (fetch_completed_issues since).
Proof. unfold fetch_completed_issues. blind_steps. Qed.

Lemma blind_filter_customer_worthy (issues : value) :
  webhook_blind (filter_customer_worthy issues).
Proof. unfold filter_customer_worthy. blind_steps. Qed.

Lemma blind_group_related_tickets (categorized_issues : value) :
  webhook_blind (group_related_tickets categorized_issues).
Proof. unfold group_related_tickets. blind_steps. Qed.

Lemma blind_draft_release_notes (categorized_issues grouped_data : value) :
  webhook_blind (draft_release_notes categorized_issues grouped_data).
Proof. unfold draft_release_notes. blind_steps. Qed.

Lemma blind_save_last_run (timestamp : string) : webhook_blind (save_last_run timestamp).
Proof.
  intros x w. unfold save_last_run.
  generalize ("{" ++ json.dumps_str "last_run" ++ ": "
              ++ json.dumps_str timestamp ++ "}").
  intros text. unfold bind, log, ask, write_state_file, lift.
  cbn [env with_webhook logged state_file_write].
  destruct (state_file_write (env w)) as [| |n];
    [| |generalize (String.substring 0 n text); intros part]; reflexivity.
Qed.

(** What [send_to_slack] returns is dropped by its caller, and what it does
    does not depend on the answer. *)
Lemma blind_after_send_to_slack {B : Type} (release_notes : string)
    (since_date : value) (end_date : string) (k : M B) :
  webhook_blind k ->
  webhook_blind (bind (send_to_slack release_notes since_date end_date) (fun _ => k)).
Proof.
  intros Hk x w. unfold bind, send_to_slack, ask, log, ret. cbn.
  destruct (SLACK_WEBHOOK_URL (env w)) as [[|c u]|]; cbn; try apply Hk.
  apply (Hk x (logged (Post (String c u)) w)).
Qed.

Lemma blind_main : webhook_blind main.
Proof.
  unfold main.
  apply blind_bind; [apply blind_main_since|]. intros since.
  apply blind_bind; [apply blind_fetch_completed_issues|]. intros issues.
  apply blind_bind; [apply blind_lift|]. intros _.
  destruct (negb (truthy issues)); [apply blind_ret|].
  apply blind_bind; [apply blind_filter_customer_worthy|]. intros categorized.
  do 8 (apply blind_bind; [apply blind_lift|]; intro).
  match goal with |- webhook_blind (if ?b then _ else _) => destruct b end;
    [apply blind_ret|].
  apply blind_bind; [apply blind_group_related_tickets|]. intros grouped_data.
  do 4 (apply blind_bind; [apply blind_lift|]; intro).
  apply blind_bind; [apply blind_draft_release_notes|]. intros notes.
  apply blind_bind; [intros ? ?; reflexivity|]. intros today.
  apply blind_after_send_to_slack. apply blind_save_last_run.
Qed.

(** X2.  Delivery does not decide anything.  Whatever the webhook answers
    (a status code or an exception), the run ends the same way, does the
    same things in the same order and leaves the same state file; only the
    value that [send_to_slack] returns depends on the answer, and it is true
    exactly when the webhook is configured and answers 200. *)
Theorem webhook_answer_is_immaterial (answer : outcome Z) (w : world) :
  fst (main (with_webhook answer w)) = fst (main w) /\
  trace (snd (main (with_webhook answer w))) = trace (snd (main w)) /\
  state_file (snd (main (with_webhook answer w))) = state_file (snd (main w)) /\
  forall release_notes since_date end_date,
    fst (send_to_slack release_notes since_date end_date (with_webhook answer w))
    = Ok (match SLACK_WEBHOOK_URL (env w), answer with
          | Some (String _ _), Ok code => Z.eqb code 200
          | _, _ => false
          end).
Proof.
  rewrite (blind_main answer w). cbn [fst snd with_webhook trace state_file].
  repeat split.
  intros release_notes since_date end_date.
  unfold send_to_slack, bind, ask, log, ret. cbn.
  destruct (SLACK_WEBHOOK_URL (env w)) as [[|c u]|]; destruct answer; reflexivity.
Qed.

(** ** A state file that cannot be read, a tracker that gives no data *)

(** X3.  Without an override the run reads the state file first, and
    nothing catches what that raises: if the file is not JSON the run ends
    with [JSONDecodeError], if it is JSON but no object with
    [AttributeError], in both cases before anything is done outside; an
    object without the key [last_run] is read as no checkpoint, and the
    boundary is the default one. *)
Theorem unreadable_checkpoint_stops_the_run (w : world) (content : string) :
  START_DATE (env w) = None \/ START_DATE (env w) = Some "" ->
  state_file w = Some content ->
  (json.decode content = None -> main w = (Raise JSONDecodeError, w))
  /\
  (forall v, json.decode content = Some v -> (forall d, v <> PDict d) ->
             main w = (Raise AttributeError, w))
  /\
  (forall d, json.decode content = Some (PDict d) ->
             dict_lookup "last_run" d = None ->
             main_since w
             = (Ok (PStr (datetime.strftime_Ymd
                            (datetime.days_before 7 (now (env w))))), w)).
Proof.
  intros Ho Hfile.
  assert (Hsince : main_since w
                   = bind load_last_run (fun last_run =>
                       if truthy last_run then ret last_run
                       else bind (ask now) (fun today =>
                              ret (PStr (datetime.strftime_Ymd
                                           (datetime.days_before 7 today))))) w).
  { unfold main_since. unfold bind at 1, ask at 1.
    destruct Ho as [-> | ->]; reflexivity. }
  assert (Hload : load_last_run w
                  = ((state <- json.loads content ;; get state "last_run" PNone), w))
    by (unfold load_last_run; now rewrite Hfile).
  split; [|split].
  - intros Hdec. unfold main. unfold bind at 1. rewrite Hsince.
    unfold bind at 1. rewrite Hload. unfold json.loads. now rewrite Hdec.
  - intros v Hdec Hv. unfold main. unfold bind at 1. rewrite Hsince.
    unfold bind at 1. rewrite Hload. unfold json.loads. rewrite Hdec. cbn [obind].
    destruct v; try reflexivity. now destruct (Hv d).
  - intros d Hdec Hkey. rewrite Hsince. unfold bind at 1. rewrite Hload.
    unfold json.loads. rewrite Hdec. cbn [obind get]. rewrite Hkey. reflexivity.
Qed.

(** The run on a state file that holds a line of text. *)
Lemma unreadable_checkpoint_stops_the_run_witness :
  main garbled_run = (Raise JSONDecodeError, garbled_run).
Proof.
  destruct (unreadable_checkpoint_stops_the_run garbled_run "last_run=2026-02-20")
    as (H & _ & _); [now left | reflexivity |].
  apply H. vm_compute. reflexivity.
Defined.

(** X4.  What the run makes of the answer of the tracker.  After the
    query, an exception of the request ends the run; an answer without the
    key [data] (an error answer) counts as no ticket, and the run returns
    without a word; an answer whose [data] is null ends the run with
    [AttributeError].  In none of these cases is anything else done. *)
Theorem tracker_answer_without_tickets (w : world) (since : value) :
  main_since w = (Ok since, w) ->
  (forall e, tracker (env w) = Raise e -> main w = (Raise e, logged (Query since) w))
  /\
  (forall body, tracker (env w) = Ok (PDict body) -> dict_lookup "data" body = None ->
                main w = (Ok tt, logged (Query since) w))
  /\
  (forall body, tracker (env w) = Ok (PDict body) ->
                dict_lookup "data" body = Some PNone ->
                main w = (Raise AttributeError, logged (Query since) w)).
Proof.
  intros Hsince.
  assert (Hmain : forall r,
            fetch_completed_issues since w = (r, logged (Query since) w) ->
            (forall e, r = Raise e -> main w = (Raise e, logged (Query since) w)) /\
            (r = Ok (PList []) -> main w = (Ok tt, logged (Query since) w))).
  { intros r Hfetch. split.
    - intros e ->. unfold main. unfold bind at 1. rewrite Hsince.
      unfold bind at 1. now rewrite Hfetch.
    - intros ->. unfold main. unfold bind at 1. rewrite Hsince.
      unfold bind at 1. now rewrite Hfetch. }
  split; [|split].
  - intros e He. apply (Hmain (Raise e)); [|reflexivity].
    unfold fetch_completed_issues, bind, log, lift. cbn [env logged]. now rewrite He.
  - intros body Hbody Hdata. apply (Hmain (Ok (PList []))); [|reflexivity].
    unfold fetch_completed_issues, bind, log, lift. cbn [env logged].
    rewrite Hbody. cbn [get]. now rewrite Hdata.
  - intros body Hbody Hdata. apply (Hmain (Raise AttributeError)); [|reflexivity].
    unfold fetch_completed_issues, bind, log, lift. cbn [env logged].
    rewrite Hbody. cbn [get]. now rewrite Hdata.
Qed.

(** The run against a tracker that answers with errors only. *)
Lemma tracker_answer_without_tickets_witness :
  main refused_run = (Ok tt, logged (Query (PStr "2026-02-25")) refused_run).
Proof.
  destruct (tracker_answer_without_tickets refused_run (PStr "2026-02-25"))
    as (_ & H & _); [reflexivity|].
  apply (H [("errors", PList [PStr "Authentication required"])]); reflexivity.
Defined.

(** ** Nothing to announce *)

(** X5.  With no feature and no fix there is nothing to group and nothing to
    draft: the grouper returns no group and no ungrouped fix, the drafter
    the empty string, and neither calls the inference service (the world is
    as before); so the generic notes of no feature and no fix are the empty
    string, without a call. *)
Theorem nothing_to_announce (w : world) :
  (forall categorized_issues,
     nothing_worthy categorized_issues ->
     group_related_tickets categorized_issues w = (Ok (grouped [] []), w) /\
     forall groups ungrouped_fixes,
       draft_release_notes categorized_issues (grouped groups ungrouped_fixes) w
       = (Ok "", w))
  /\
  (forall features fixes,
     truthy features = false -> truthy fixes = false ->
     customer_release_notes.generate_generic_release_notes features fixes w
     = (Ok "", w)).
Proof.
  assert (Hparts : forall categorized_issues,
            nothing_worthy categorized_issues ->
            group_related_tickets categorized_issues w = (Ok (grouped [] []), w) /\
            forall groups ungrouped_fixes,
              draft_release_notes categorized_issues (grouped groups ungrouped_fixes) w
              = (Ok "", w)).
  { intros c (features & fixes & Hf & Hx & Htf & Htx).
    assert (Hdict : exists d, c = PDict d)
      by (destruct c; try discriminate; now eexists).
    destruct Hdict as [d ->]. cbn [get] in Hf, Hx.
    injection Hf as Hf. injection Hx as Hx. subst features fixes. split.
    - unfold group_related_tickets, bind, lift. cbn [get].
      now rewrite Htf, Htx.
    - intros groups ungrouped_fixes.
      unfold draft_release_notes, bind, lift, grouped. cbn [get].
      now rewrite Htf, Htx. }
  split; [exact Hparts|].
  intros features fixes Htf Htx.
  unfold customer_release_notes.generate_generic_release_notes.
  set (c := PDict [("features", features); ("fixes", fixes); ("excluded", PList [])]).
  assert (Hn : nothing_worthy c) by (exists features, fixes; now repeat split).
  destruct (Hparts c Hn) as [Hg Hd].
  unfold bind. rewrite Hg. apply Hd.
Qed.

(** The theorem on a classification that excludes its only ticket. *)
Lemma nothing_to_announce_witness :
  let w := Sample.world_with Sample.full_replies in
  let c := categorized [] [] [Sample.auth_schema] (PList []) in
  group_related_tickets c w = (Ok (grouped [] []), w) /\
  draft_release_notes c (grouped [] [Sample.typo]) w = (Ok "", w) /\
  customer_release_notes.generate_generic_release_notes (PList []) PNone w
  = (Ok "", w).
Proof.
  intros w c. destruct (nothing_to_announce w) as [Hparts Hnotes].
  assert (Hc : nothing_worthy c)
    by (exists (PList []), (PList []); repeat split; reflexivity).
  destruct (Hparts c Hc) as [Hg Hd].
  split; [exact Hg|]. split; [apply Hd | apply Hnotes; reflexivity].
Defined.

(** ** The two ways out of the grouper *)

Lemma falsy_has_no_items (c : value) (k : string) (x : value) :
  get c k (PList []) = Ok x -> truthy x = false -> part c k = [].
Proof.
  intros Hget Hfalsy. unfold part. rewrite Hget. cbn [obind].
  destruct x as [| | | |s|l|d]; try reflexivity; cbn in Hfalsy.
  - destruct s; [reflexivity | discriminate].
  - destruct l; [reflexivity | discriminate].
  - destruct d; [reflexivity | discriminate].
Qed.

(** X6.  The fallback of the grouper, in general.  Whenever the grouper
    returns on a reply that neither tier decodes, it returns no group, and
    as ungrouped fixes the ids of the fixes of the classification, one for
    each fix and in their order (the ids, not the tickets). *)
Theorem undecoded_grouping_lists_fix_ids
    (categorized_issues : value) (w : world) (r : value) (w' : world) (reply : string) :
  group_related_tickets categorized_issues w = (Ok r, w') ->
  next_text w = Ok reply ->
  decode_grouping (strip reply) = None ->
  part r "groups" = [] /\
  Forall2 (fun t i => getitem t "id" = Ok i)
    (part categorized_issues "fixes") (part r "ungrouped_fixes").
Proof.
  intros H Hreply Hdec. unfold group_related_tickets in H.
  apply bind_lift_run in H as [(e & _ & He & _) | (features & Hf & H)];
    [discriminate|].
  apply bind_lift_run in H as [(e & _ & He & _) | (fixes & Hx & H)]; [discriminate|].
  apply bind_lift_run in H as [(e & _ & He & _) | (excluded & _ & H)];
    [discriminate|].
  destruct (andb (negb (truthy features)) (negb (truthy fixes))) eqn:Hnone.
  - inversion H; subst. split; [reflexivity|].
    apply andb_true_iff in Hnone as [_ Htx]. apply negb_true_iff in Htx.
    rewrite (falsy_has_no_items _ _ _ Hx Htx). constructor.
  - apply bind_lift_run in H as [(e & _ & He & _) | (all_tickets & _ & H)];
      [discriminate|].
    apply bind_run in H as [(e & _ & He) | (reply' & w1 & Hc & H)]; [discriminate|].
    destruct (create_message_run GroupPrompt w) as (w2 & Hrun & _).
    rewrite Hrun, Hreply in Hc. inversion Hc; subst reply' w1.
    rewrite Hdec in H. apply lift_run in H as [H _]. symmetry in H.
    unfold ungrouped_fallback in H.
    destruct (iter fixes) as [xs|] eqn:Hxs; [|discriminate]. cbn [obind] in H.
    destruct (omap (fun t => getitem t "id") xs) as [ids|] eqn:Hids; [|discriminate].
    cbn [obind] in H. inversion H; subst r.
    split; [reflexivity|].
    rewrite (part_Ok _ _ _ _ Hx Hxs).
    change (part (grouped [] ids) "ungrouped_fixes") with ids.
    now apply omap_Forall2.
Qed.

(** The sample classification with one fix and a reply without braces. *)
Lemma undecoded_grouping_lists_fix_ids_witness :
  let w := Sample.world_with [Sample.no_grouping] in
  let run := group_related_tickets Sample.one_fix w in
  part (Sample.value_of run) "groups" = [] /\
  Forall2 (fun t i => getitem t "id" = Ok i)
    (part Sample.one_fix "fixes") (part (Sample.value_of run) "ungrouped_fixes").
Proof.
  intros w run.
  apply (undecoded_grouping_lists_fix_ids Sample.one_fix w (Sample.value_of run)
           (snd run) "I could not group these tickets.").
  - vm_compute. reflexivity.
  - reflexivity.
  - vm_compute. reflexivity.
Defined.

Lemma renderable_placeholder (tid : value) : renderable (placeholder tid).
Proof.
  exists [("id", tid); ("title", PStr "Unknown")].
  split; [reflexivity|]. split; [discriminate | exact I].
Qed.

Lemma renderable_renders (n : nat) (t : value) :
  renderable t ->
  exists v,
    (_ <- getitem t "title" ;;
     d <- get t "description" PNone ;;
     slice_to n (or_ d (PStr "No description"))) = Ok v.
Proof.
  intros (d & -> & Htitle & Hdesc). cbn [getitem get].
  destruct (dict_lookup "title" d) as [title|]; [|contradiction]. cbn [obind].
  unfold or_.
  destruct (dict_lookup "description" d) as [[| | | |s|l|x]|];
    cbn in Hdesc |- *; try rewrite Hdesc; cbn; try (now eexists).
  - destruct (String.eqb s ""); cbn; now eexists.
  - destruct l; cbn; now eexists.
Qed.

Lemma draft_format_ticket_Ok (t : value) : renderable t -> draft_format_ticket t = Ok tt.
Proof.
  intros Ht. destruct (renderable_renders 1000 t Ht) as [v Hv].
  unfold draft_format_ticket.
  destruct (getitem t "title") as [title|]; [|discriminate]. cbn [obind] in Hv |- *.
  destruct (get t "description" PNone) as [d|]; [|discriminate]. cbn [obind] in Hv |- *.
  now rewrite Hv.
Qed.

Lemma draft_format_tickets_Ok (ts : list value) :
  Forall renderable ts -> exists us, omap draft_format_ticket ts = Ok us.
Proof.
  intros H. apply omap_all_Ok. apply (Forall_impl _ (P := renderable)); [|assumption].
  intros t Ht. exists tt. now apply draft_format_ticket_Ok.
Qed.

Lemma resolve_renderable (all_tickets : list value) (all_by_id : idmap) (tid t : value) :
  Forall renderable all_tickets ->
  dict_by_id all_tickets [] = Ok all_by_id ->
  resolve all_by_id tid = Ok t -> renderable t.
Proof.
  intros Hall Hmap Hr. destruct (resolve_hashable _ _ _ Hr) as [k Hk].
  destruct (resolve_resolved all_tickets all_by_id tid k Hmap Hk) as (t' & Ht' & Hres).
  rewrite Hr in Ht'. inversion Ht'; subst t'.
  destruct Hres as [[Hin _]|[-> _]].
  - rewrite Forall_forall in Hall. now apply Hall.
  - apply renderable_placeholder.
Qed.

Lemma omap_Forall_out {A B : Type} (f : A -> outcome B) (P : B -> Prop)
    (xs : list A) (ys : list B) :
  (forall x y, f x = Ok y -> P y) -> omap f xs = Ok ys -> Forall P ys.
Proof.
  intros Hf H. apply omap_Forall2 in H. induction H; constructor; eauto.
Qed.

Lemma format_enriched_group (all_tickets : list value) (all_by_id : idmap)
    (g g' : value) :
  Forall renderable all_tickets ->
  dict_by_id all_tickets [] = Ok all_by_id ->
  enrich_group all_by_id g = Ok g' ->
  format_group g' = Ok tt.
Proof.
  intros Hall Hmap H. unfold enrich_group in H.
  destruct (getitem g "name") as [name|]; [|discriminate]. cbn [obind] in H.
  destruct (get g "summary" (PStr "")) as [summary|]; [|discriminate].
  cbn [obind] in H.
  destruct (get g "tickets" (PList [])) as [members|]; [|discriminate].
  cbn [obind] in H.
  destruct (iter members) as [tids|]; [|discriminate]. cbn [obind] in H.
  destruct (omap (resolve all_by_id) tids) as [tickets|] eqn:Htickets; [|discriminate].
  cbn [obind] in H. inversion H; subst g'.
  assert (Hts : Forall renderable tickets).
  { apply (omap_Forall_out _ _ _ _ (fun tid t => resolve_renderable all_tickets
             all_by_id tid t Hall Hmap) Htickets). }
  unfold format_group.
  change (get (PDict [("name", name); ("summary", summary); ("tickets", PList tickets)])
            "tickets" (PList []))
    with (Ok (PList tickets)).
  cbn [obind iter].
  destruct (omap_all_Ok
              (fun t => _ <- getitem t "title" ;;
                        d <- get t "description" PNone ;;
                        slice_to 800 (or_ d (PStr "No description"))) tickets)
    as [vs Hvs].
  { apply (Forall_impl _ (P := renderable)); [|assumption].
    intros t Ht. apply (renderable_renders 800 t Ht). }
  rewrite Hvs. reflexivity.
Qed.

(** X7.  Drafting a decoded grouping does not raise.  Let the features, the
    fixes and the candidate tickets be renderable (dicts with a title and a
    description that is a str, null or absent), with a feature or a fix among
    them.  Then whatever the decoded result [enrich] accepts, the drafter
    renders it without an exception and calls the inference service once:
    its outcome is that of the call, the stripped text of the reply or the
    exception of the service. *)
Theorem draft_of_enriched_result
    (features fixes excluded all_tickets : list value) (decisions result : value)
    (grouped_data : value) (w : world) :
  Forall renderable features ->
  Forall renderable fixes ->
  Forall renderable all_tickets ->
  features <> [] \/ fixes <> [] ->
  enrich all_tickets result = Ok grouped_data ->
  exists w',
    draft_release_notes (categorized features fixes excluded decisions) grouped_data w
    = (match next_text w with
       | Ok reply => Ok (strip reply)
       | Raise e => Raise e
       end, w') /\
    extends w w' [Create DraftPrompt].
Proof.
  intros Hfeatures Hfixes Hall Hsome Henrich.
  unfold enrich in Henrich.
  destruct (dict_by_id all_tickets []) as [all_by_id|] eqn:Hmap; [|discriminate].
  cbn [obind] in Henrich.
  destruct (get result "groups" (PList [])) as [groups|]; [|discriminate].
  cbn [obind] in Henrich.
  destruct (iter groups) as [gs|]; [|discriminate]. cbn [obind] in Henrich.
  destruct (omap (enrich_group all_by_id) gs) as [egs|] eqn:Hegs; [|discriminate].
  cbn [obind] in Henrich.
  destruct (get result "ungrouped_fixes" (PList [])) as [ids|]; [|discriminate].
  cbn [obind] in Henrich.
  destruct (iter ids) as [tids|]; [|discriminate]. cbn [obind] in Henrich.
  destruct (omap (resolve all_by_id) tids) as [ungrouped|] eqn:Hungrouped;
    [|discriminate].
  cbn [obind] in Henrich. inversion Henrich; subst grouped_data. clear Henrich.
  assert (Hgroups : exists us, omap format_group egs = Ok us).
  { apply omap_all_Ok.
    apply (omap_Forall_out _ _ _ _
             (fun g g' (H : enrich_group all_by_id g = Ok g') =>
                ex_intro (fun y => format_group g' = Ok y) tt
                  (format_enriched_group all_tickets all_by_id g g' Hall Hmap H))
             Hegs). }
  assert (Hungrouped' : Forall renderable ungrouped).
  { apply (omap_Forall_out _ _ _ _ (fun tid t => resolve_renderable all_tickets
             all_by_id tid t Hall Hmap) Hungrouped). }
  destruct Hgroups as [us1 Hus1].
  destruct (draft_format_tickets_Ok _ Hfeatures) as [us2 Hus2].
  destruct (draft_format_tickets_Ok _ Hfixes) as [us3 Hus3].
  destruct (draft_format_tickets_Ok _ Hungrouped') as [us4 Hus4].
  destruct (create_message_run DraftPrompt w) as (w' & Hrun & Henv & _ & Htrace).
  exists w'.
  assert (Hcall : create_message DraftPrompt w = (next_text w, w') ->
                  extends w w' [Create DraftPrompt])
    by apply create_message_extends.
  split; [|now apply Hcall].
  unfold draft_release_notes, bind, lift, ret, grouped, categorized.
  cbn [get dict_lookup String.eqb Ascii.eqb Bool.eqb].
  assert (Hgo : andb (negb (truthy (PList features))) (negb (truthy (PList fixes)))
                = false).
  { destruct Hsome as [H|H]; [destruct features | destruct fixes];
      try contradiction; cbn; [reflexivity | now rewrite andb_false_r]. }
  rewrite Hgo. cbn [iter obind].
  rewrite Hus1, Hus2, Hus3, Hus4. cbn [obind].
  assert (Hfirst : (if truthy (PList egs) then Ok tt
                    else if truthy (PList features) then Ok tt else Ok tt)
                   = @Ok unit tt)
    by (destruct (truthy (PList egs)), (truthy (PList features)); reflexivity).
  assert (Hsecond : (if truthy (PList ungrouped) then Ok tt
                     else if truthy (PList fixes) then Ok tt else Ok tt)
                    = @Ok unit tt)
    by (destruct (truthy (PList ungrouped)), (truthy (PList fixes)); reflexivity).
  rewrite Hfirst, Hsecond, Hrun.
  now destruct (next_text w).
Qed.

(** The theorem on the sample tickets: A in a group with an id that no
    candidate has, B ungrouped. *)
Lemma draft_of_enriched_result_witness :
  let w := Sample.world_with [Sample.says " *New features* "] in
  let result :=
    PDict [("groups",
            PList [PDict [("name", PStr "Data export");
                          ("tickets", PList [PStr "A"; PInt 7])]]);
           ("ungrouped_fixes", PList [PStr "B"])] in
  exists grouped_data w',
    enrich [Sample.csv_export; Sample.typo_fix] result = Ok grouped_data /\
    draft_release_notes
      (categorized [Sample.csv_export] [Sample.typo_fix] [] (PList [])) grouped_data w
    = (Ok "*New features*", w') /\
    extends w w' [Create DraftPrompt].
Proof.
  intros w result.
  assert (Hcsv : renderable Sample.csv_export)
    by (eexists; split; [reflexivity | split; [discriminate | exact I]]).
  assert (Htypo : renderable Sample.typo_fix)
    by (eexists; split; [reflexivity | split; [discriminate | exact I]]).
  destruct (enrich [Sample.csv_export; Sample.typo_fix] result)
    as [grouped_data|] eqn:Henrich; [|discriminate].
  destruct (draft_of_enriched_result [Sample.csv_export] [Sample.typo_fix] []
              [Sample.csv_export; Sample.typo_fix] (PList []) result grouped_data w)
    as (w' & Hrun & Hext).
  - now constructor.
  - now constructor.
  - now repeat constructor.
  - left. discriminate.
  - exact Henrich.
  - exists grouped_data, w'. split; [reflexivity|]. split; [exact Hrun | exact Hext].
Defined.

(** ** The checkpoint, written and read back *)

(** X8.  The checkpoint round trip.  After [save_last_run] of an ASCII
    timestamp on a state file that can be written, [load_last_run] returns
    that timestamp, and reading leaves the world as it is: what
    [json.dump] writes, [json.load] reads back, quotes, backslashes and
    control characters included. *)
Theorem checkpoint_round_trip (timestamp : string) (w : world) :
  is_ascii timestamp = true ->
  state_file_writable (env w) = true ->
  let w' := snd (save_last_run timestamp w) in
  fst (save_last_run timestamp w) = Ok tt /\
  load_last_run w' = (Ok (PStr timestamp), w').
Proof.
  intros Hs Hw w'.
  destruct (save_last_run_run timestamp w) as (Hr & Hfile & _).
  rewrite Hw in Hr. split; [exact Hr|].
  apply load_checkpoint_record; [assumption|].
  unfold state_file_writable in Hw.
  destruct (state_file_write (env w)); try discriminate. exact Hfile.
Qed.

(** The theorem on a timestamp with a quote, a backslash and a line feed. *)
Lemma checkpoint_round_trip_witness :
  let timestamp := String "034" (String "\" (String "010" "2026-03-04")) in
  let w' := snd (save_last_run timestamp Sample.later_run) in
  fst (save_last_run timestamp Sample.later_run) = Ok tt /\
  load_last_run w' = (Ok (PStr timestamp), w').
Proof.
  intros timestamp.
  apply (checkpoint_round_trip timestamp Sample.later_run); reflexivity.
Defined.

(** X9.  The checkpoint that a run writes is the boundary of the next one.
    If a run of [main] returns without an exception after it has opened
    the state file for writing, then every later run that finds the state
    file it left and no start-date override (unset or empty) fetches since
    the date of that run; so does the customer notes run without
    [--since]. *)
Theorem written_checkpoint_is_the_next_boundary (w w' later : world) :
  main w = (Ok tt, w') ->
  happened OpenForWriting w w' ->
  state_file later = state_file w' ->
  START_DATE (env later) = None \/ START_DATE (env later) = Some "" ->
  let today := PStr (datetime.strftime_Ymd (now (env w))) in
  main_since later = (Ok today, later) /\
  customer_release_notes.main_since None later = (Ok today, later).
Proof.
  intros Hmain Hopened Hlater Hstart today.
  pose proof (opened_is_delivered w (Ok tt) w' Hmain Hopened) as Hd.
  pose proof (delivered_run_outcome w (Ok tt) w' Hd) as Hr.
  unfold delivered_run in Hd.
  destruct Hd as (since & issues & w2 & categorized & w3 & g & w4 & n & w5
                  & sent & w6 & _ & _ & _ & _ & _ & _ & _ & _ & Hq & Hsave).
  destruct (save_last_run_run (datetime.strftime_Ymd (now (env w))) w6)
    as (_ & Hfile & _).
  rewrite Hsave in Hfile. cbn [snd] in Hfile.
  destruct Hq as (Henv & _). rewrite Henv in Hfile.
  unfold state_file_writable in Hr.
  destruct (state_file_write (env w)); try discriminate.
  assert (Hload : load_last_run later = (Ok today, later)).
  { apply load_checkpoint_record; [apply strftime_Ymd_ascii|].
    now rewrite Hlater, Hfile. }
  split.
  - unfold main_since, bind, ask.
    destruct Hstart as [-> | ->]; rewrite Hload; reflexivity.
  - unfold customer_release_notes.main_since, bind. rewrite Hload. reflexivity.
Qed.

(** The theorem on the sample run that delivers, followed by a run on the
    world it leaves. *)
Lemma written_checkpoint_is_the_next_boundary_witness :
  let w := Sample.world_with Sample.full_replies in
  let later := snd (main w) in
  main_since later = (Ok (PStr "2026-03-04"), later) /\
  customer_release_notes.main_since None later = (Ok (PStr "2026-03-04"), later).
Proof.
  intros w later.
  apply (written_checkpoint_is_the_next_boundary w later later).
  - vm_compute. reflexivity.
  - exists [Query (PStr "2026-02-25"); Create ClassifyPrompt; Create GroupPrompt;
            Create DraftPrompt; OpenForWriting].
    split; [vm_compute; reflexivity | cbn; auto 6].
  - reflexivity.
  - left. reflexivity.
Defined.

(** ** The customer notes run *)

Lemma quiet_generate_generic_release_notes (features fixes : value) :
  quiet_action (customer_release_notes.generate_generic_release_notes features fixes).
Proof.
  unfold customer_release_notes.generate_generic_release_notes.
  apply quiet_bind; [apply quiet_group_related_tickets|].
  intros grouped_data. apply quiet_draft_release_notes.
Qed.

Lemma quiet_customer_main_since (since_date : option string) :
  quiet_action (customer_release_notes.main_since since_date).
Proof.
  unfold customer_release_notes.main_since.
  assert (Hrest : quiet_action
            (bind load_last_run (fun last_run =>
               if truthy last_run then ret last_run
               else bind (ask now) (fun today =>
                      ret (PStr (datetime.strftime_Ymd
                                   (datetime.days_before 7 today)))))))
    by (apply quiet_bind; [apply quiet_load_last_run | intro; quiet_steps]).
  destruct since_date as [[|c s]|]; [exact Hrest | apply quiet_ret | exact Hrest].
Qed.

(** X10.  The customer notes run reads the checkpoint and never moves it.
    However a run of the generic flow of [customer_release_notes.main]
    ends, with or without [--since] and [--slack], the state file is as it
    was and has not been opened for writing: only [changelog_bot.main]
    advances the checkpoint. *)
Theorem customer_run_leaves_the_checkpoint
    (since_date : option string) (send_to_slack : bool)
    (w : world) (r : outcome value) (w' : world) :
  customer_release_notes.main since_date send_to_slack w = (r, w') ->
  state_file w' = state_file w /\
  exists events,
    trace w' = (trace w ++ events)%list /\ ~ In OpenForWriting events.
Proof.
  intros H.
  assert (Hq : quiet_action (customer_release_notes.main since_date send_to_slack)).
  { unfold customer_release_notes.main.
    apply quiet_bind; [apply quiet_customer_main_since|]. intros since.
    apply quiet_bind; [apply quiet_fetch_completed_issues|]. intros issues.
    apply quiet_bind; [apply quiet_lift|]. intros _.
    destruct (negb (truthy issues)); [apply quiet_ret|].
    apply quiet_bind; [apply quiet_filter_customer_worthy|]. intros categorized.
    apply quiet_bind; [apply quiet_lift|]. intros features.
    apply quiet_bind; [apply quiet_lift|]. intros fixes.
    apply quiet_bind; [apply quiet_lift|]. intros _.
    apply quiet_bind; [apply quiet_lift|]. intros _.
    destruct (andb (negb (truthy features)) (negb (truthy fixes)));
      [apply quiet_ret|].
    apply quiet_bind; [apply quiet_generate_generic_release_notes|].
    intros release_notes. quiet_steps. }
  destruct (Hq w r w' H) as (_ & Hfile & events & Htrace & Hall).
  split; [exact Hfile|]. exists events. split; [exact Htrace|].
  intros Hin. rewrite Forall_forall in Hall. now apply (Hall _ Hin).
Qed.

(** The theorem on a sample run that goes through to the notes, with
    [--slack] and a checkpoint. *)
Lemma customer_run_leaves_the_checkpoint_witness :
  let w := Sample.read_only_run in
  let w' := snd (customer_release_notes.main None true w) in
  state_file w' = state_file w /\
  exists events,
    trace w' = (trace w ++ events)%list /\ ~ In OpenForWriting events.
Proof.
  intros w w'.
  apply (customer_run_leaves_the_checkpoint None true w
           (fst (customer_release_notes.main None true w)) w').
  unfold w'. now destruct (customer_release_notes.main None true w).
Defined.

Example customer_notes_run :
  let run := customer_release_notes.main None true Sample.read_only_run in
  fst run = Ok (PStr "*New features*") /\
  trace (snd run)
  = [Query (PStr "2026-02-20"); Create ClassifyPrompt; Create GroupPrompt;
     Create DraftPrompt] /\
  state_file (snd run) = Some Sample.checkpoint_text.
Proof. repeat split; vm_compute; reflexivity. Qed.

(** ** Two decisions for one ticket *)

Lemma dict_by_id_app (xs ys : list value) (m dm : idmap) :
  dict_by_id (xs ++ ys) m = Ok dm ->
  exists m1, dict_by_id xs m = Ok m1 /\ dict_by_id ys m1 = Ok dm.
Proof.
  revert m. induction xs as [|x rest IH]; intros m H; cbn in H |- *.
  - now exists m.
  - destruct (getitem x "id") as [i|]; [|discriminate]. cbn [obind] in H |- *.
    destruct (idmap_set i x m) as [m'|]; [|discriminate]. cbn [obind] in H |- *.
    now apply IH.
Qed.

Lemma idmap_find_put_same (k k' : key) (v : value) (m : idmap) :
  key_eqb k k' = true -> idmap_find k (idmap_put k' v m) = Some v.
Proof.
  intros Hk. induction m as [|[k1 v1] rest IH]; cbn.
  - now rewrite Hk.
  - destruct (key_eqb k' k1) eqn:E; cbn.
    + now rewrite (key_eqb_trans k k' k1 Hk E).
    + destruct (key_eqb k k1) eqn:E1; [|exact IH].
      rewrite key_eqb_sym in Hk.
      rewrite (key_eqb_trans k' k k1 Hk E1) in E. discriminate.
Qed.

Lemma idmap_find_put_other (k k' : key) (v : value) (m : idmap) :
  key_eqb k k' = false -> idmap_find k (idmap_put k' v m) = idmap_find k m.
Proof.
  intros Hk. induction m as [|[k1 v1] rest IH]; cbn.
  - now rewrite Hk.
  - destruct (key_eqb k' k1) eqn:E; cbn.
    + destruct (key_eqb k k1) eqn:E1; [|reflexivity].
      rewrite (key_eqb_sym k' k1) in E.
      rewrite (key_eqb_trans k k1 k' E1 E) in Hk. discriminate.
    + destruct (key_eqb k k1); [reflexivity | exact IH].
Qed.

(** Items with other ids leave the entry of an id as it is. *)
Lemma dict_by_id_others (xs : list value) (m dm : idmap) (id : value) (k : key) :
  dict_by_id xs m = Ok dm ->
  key_of id = Some k ->
  (forall x, In x xs -> matches id x = false) ->
  idmap_find k dm = idmap_find k m.
Proof.
  intros Hdm Hk. revert m Hdm.
  induction xs as [|x rest IH]; intros m Hdm Hothers; cbn in Hdm.
  - now inversion Hdm.
  - destruct (getitem x "id") as [i|] eqn:Hi; [|discriminate]. cbn [obind] in Hdm.
    unfold idmap_set in Hdm.
    destruct (key_of i) as [ki|] eqn:Hki; [|discriminate]. cbn [obind] in Hdm.
    rewrite (IH _ Hdm (fun y Hy => Hothers y (or_intror Hy))).
    apply idmap_find_put_other.
    specialize (Hothers x (or_introl eq_refl)). unfold matches in Hothers.
    now rewrite Hk, Hi, Hki in Hothers.
Qed.

(** X11.  Of two decisions for one ticket, the later one counts.  When the
    decision list has several entries whose id is the same dict key as the
    id of a ticket (an equal value: 7 and 7.0, or two decimal texts of the
    same double), [decision_map.get] gives the last of them: the dict
    comprehension overwrites.  The same holds for the tickets that the
    grouper indexes by id. *)
Theorem last_decision_wins (earlier later : list value) (d id : value) :
  (exists decision_map, dict_by_id (earlier ++ d :: later) [] = Ok decision_map) ->
  matches id d = true ->
  (forall d', In d' later -> matches id d' = false) ->
  decision_for (PList (earlier ++ d :: later)) id = Ok d /\
  forall all_by_id,
    dict_by_id (earlier ++ d :: later) [] = Ok all_by_id ->
    resolve all_by_id id = Ok d.
Proof.
  intros [dm Hdm] Hd Hlater.
  assert (Hfind : forall m, dict_by_id (earlier ++ d :: later) [] = Ok m ->
                            exists k, key_of id = Some k /\ idmap_find k m = Some d).
  { intros m Hm. apply dict_by_id_app in Hm as (m1 & _ & Hm).
    cbn in Hm. unfold matches in Hd.
    destruct (key_of id) as [k|] eqn:Hk; [|discriminate].
    destruct (getitem d "id") as [i|] eqn:Hi; [|discriminate].
    cbn [obind] in Hm. unfold idmap_set in Hm.
    destruct (key_of i) as [ki|] eqn:Hki; [|discriminate]. cbn [obind] in Hm.
    exists k. split; [reflexivity|].
    rewrite (dict_by_id_others later _ m id k Hm Hk Hlater).
    now apply idmap_find_put_same. }
  split.
  - unfold decision_for. cbn [iter obind]. rewrite Hdm. cbn [obind].
    destruct (Hfind dm Hdm) as (k & Hk & Hfound).
    unfold idmap_get. now rewrite Hk, Hfound.
  - intros all_by_id Hmap. destruct (Hfind all_by_id Hmap) as (k & Hk & Hfound).
    unfold resolve, idmap_get. now rewrite Hk, Hfound.
Qed.

(** The theorem on a reply that first features the ticket 0.1 and then
    excludes it, the id written with more digits the second time; both
    texts are read as the same double. *)
Lemma last_decision_wins_witness :
  let feature := Sample.decoded (Sample.dq "{'id': 0.1, 'decision': 'feature'}") in
  let exclusion :=
    Sample.decoded (Sample.dq "{'id': 0.1000000000000000055, 'decision': 'exclude'}") in
  let other := Sample.decoded (Sample.dq "{'id': 7.0, 'decision': 'fix'}") in
  let id := Sample.decoded "1e-1" in
  decision_for (PList [feature; exclusion; other]) id = Ok exclusion /\
  forall all_by_id,
    dict_by_id [feature; exclusion; other] [] = Ok all_by_id ->
    resolve all_by_id id = Ok exclusion.
Proof.
  intros feature exclusion other id.
  apply (last_decision_wins [feature] [other] exclusion id).
  - eexists. vm_compute. reflexivity.
  - vm_compute. reflexivity.
  - intros d' [<-|[]]. vm_compute. reflexivity.
Defined.

(** ** The comments of a ticket in the prompt *)

Lemma cp_len_app (s t : string) : cp_len (s ++ t) = cp_len s + cp_len t.
Proof.
  induction s as [|c r IH]; cbn; [reflexivity|].
  destruct (is_cont c); now rewrite IH.
Qed.

Lemma cp_len_take_conts (s : string) : cp_len (take_conts s) = 0.
Proof.
  induction s as [|c r IH]; cbn; [reflexivity|].
  destruct (is_cont c) eqn:E; cbn; [now rewrite E | reflexivity].
Qed.

Lemma cp_chars_aux_small (fuel : nat) (s : string) :
  Forall (fun cp => cp_len cp <= 1) (cp_chars_aux fuel s).
Proof.
  revert s. induction fuel as [|n IH]; intros s; [constructor|].
  destruct s as [|c r]; [constructor|]. cbn [cp_chars_aux].
  constructor; [|apply IH].
  cbn. rewrite cp_len_take_conts. destruct (is_cont c); lia.
Qed.

Lemma cp_len_concat (l : list string) :
  Forall (fun cp => cp_len cp <= 1) l -> cp_len (String.concat "" l) <= List.length l.
Proof.
  induction 1 as [|cp rest Hcp _ IH]; [cbn; lia|].
  rewrite concat_cons, cp_len_app. cbn [List.length]. lia.
Qed.

Lemma Forall_firstn {A : Type} (P : A -> Prop) (n : nat) (l : list A) :
  Forall P l -> Forall P (firstn n l).
Proof.
  intros H. revert n. induction H as [|x rest Hx _ IH]; intros [|n]; cbn;
    constructor; [assumption | apply IH].
Qed.

(** [len(s[:n]) <= n] *)
Lemma cp_len_cp_take (n : nat) (s : string) : cp_len (cp_take n s) <= n.
Proof.
  unfold cp_take, cp_chars.
  etransitivity; [apply cp_len_concat, Forall_firstn, cp_chars_aux_small|].
  apply firstn_le_length.
Qed.

Lemma slice_to_size (n : nat) (v v' : value) : slice_to n v = Ok v' -> size v' <= n.
Proof.
  unfold size. destruct v as [| | | |s|l|d]; cbn; try discriminate;
    intros H; inversion H; cbn; [apply cp_len_cp_take | apply firstn_le_length].
Qed.

Lemma total_size_app (xs ys : list (value * value)) :
  total_size (xs ++ ys) = total_size xs + total_size ys.
Proof. unfold total_size. now rewrite map_app, list_sum_app. Qed.

(** The invariant of the loop of [get_comments]: [total_chars] is the size
    of what has been collected and is within [max_chars]. *)
Lemma comment_texts_loop_budget (max_chars : nat) (comments : list value)
    (total_chars : nat) (acc texts : list (value * value)) :
  comment_texts_loop max_chars comments total_chars acc = Ok texts ->
  total_size acc = total_chars ->
  total_chars <= max_chars ->
  Forall (fun t => truthy (snd t) = true /\ size (snd t) <= 300) acc ->
  total_size texts <= max_chars /\
  List.length texts <= List.length acc + List.length comments /\
  Forall (fun t => truthy (snd t) = true /\ size (snd t) <= 300) texts.
Proof.
  revert total_chars acc.
  induction comments as [|c rest IH]; intros total_chars acc H Hsum Hmax Hacc;
    cbn [comment_texts_loop] in H.
  - inversion H; subst texts. cbn [List.length]. repeat split; [lia | lia | assumption].
  - destruct (get c "user" PNone) as [user_obj|]; [|discriminate]. cbn [obind] in H.
    destruct (if truthy user_obj then get user_obj "name" (PStr "Unknown")
              else Ok (PStr "Unknown")) as [user|]; [|discriminate].
    cbn [obind] in H.
    destruct (get c "body" PNone) as [b|]; [|discriminate]. cbn [obind] in H.
    destruct (slice_to 300 (or_ b (PStr ""))) as [body|] eqn:Hbody; [|discriminate].
    cbn [obind] in H.
    destruct (truthy body) eqn:Htruthy; cbn [negb] in H.
    + destruct (len body) as [n|] eqn:Hn; [|discriminate]. cbn [obind] in H.
      destruct (Nat.ltb max_chars (total_chars + n)) eqn:Hover.
      * inversion H; subst texts. cbn [List.length]. repeat split; [lia | lia | assumption].
      * apply Nat.ltb_ge in Hover.
        assert (Hsize : size body = n) by (unfold size; now rewrite Hn).
        destruct (IH (total_chars + n) (acc ++ [(user, body)])%list H) as (H1 & H2 & H3).
        { rewrite total_size_app. unfold total_size at 2. cbn. lia. }
        { exact Hover. }
        { apply Forall_app. split; [assumption|]. constructor; [|constructor].
          cbn [snd]. split; [assumption|]. apply (slice_to_size _ _ _ Hbody). }
        rewrite length_app in H2. cbn [List.length] in H2 |- *.
        repeat split; [assumption | lia | assumption].
    + destruct (IH total_chars acc H Hsum Hmax Hacc) as (H1 & H2 & H3).
      cbn [List.length]. repeat split; [assumption | lia | assumption].
Qed.

(** [get_comments], which keeps no text, raises when [comment_texts] does. *)
Lemma get_comments_loop_texts (max_chars : nat) (comments : list value)
    (total_chars : nat) (acc : list (value * value)) :
  get_comments_loop max_chars comments total_chars
  = (_ <- comment_texts_loop max_chars comments total_chars acc ;; Ok tt).
Proof.
  revert total_chars acc. induction comments as [|c rest IH]; intros total_chars acc;
    cbn [get_comments_loop comment_texts_loop]; [reflexivity|].
  destruct (get c "user" PNone) as [user_obj|]; [|reflexivity]. cbn [obind].
  destruct (if truthy user_obj then get user_obj "name" (PStr "Unknown")
            else Ok (PStr "Unknown")) as [user|]; [|reflexivity].
  cbn [obind].
  destruct (get c "body" PNone) as [b|]; [|reflexivity]. cbn [obind].
  destruct (slice_to 300 (or_ b (PStr ""))) as [body|]; [|reflexivity]. cbn [obind].
  destruct (truthy body); cbn [negb]; [|apply IH].
  destruct (len body) as [n|]; [|reflexivity]. cbn [obind].
  destruct (Nat.ltb max_chars (total_chars + n)); [reflexivity | apply IH].
Qed.

(** X12.  The budget of the comments.  Whatever comments a ticket has, the
    classification prompt takes at most five of them, each cut to 300
    characters and none empty, and at most 800 characters of them in all;
    and the rendering of the ticket raises exactly when collecting them
    does. *)
Theorem comments_budget (issue : value) :
  get_comments issue = (_ <- comment_texts issue ;; Ok tt) /\
  forall texts,
    comment_texts issue = Ok texts ->
    List.length texts <= 5 /\
    total_size texts <= 800 /\
    Forall (fun t => truthy (snd t) = true /\ size (snd t) <= 300) texts.
Proof.
  split.
  - unfold get_comments, comment_texts.
    destruct (get issue "comments" (PDict [])) as [o|]; [|reflexivity]. cbn [obind].
    destruct (get o "nodes" (PList [])) as [comments|]; [|reflexivity]. cbn [obind].
    destruct (negb (truthy comments)); [reflexivity|].
    destruct (slice_to 5 comments) as [first5|]; [|reflexivity]. cbn [obind].
    destruct (iter first5) as [cs|]; [|reflexivity]. cbn [obind].
    apply get_comments_loop_texts.
  - intros texts H. unfold comment_texts in H.
    destruct (get issue "comments" (PDict [])) as [o|]; [|discriminate].
    cbn [obind] in H.
    destruct (get o "nodes" (PList [])) as [comments|]; [|discriminate].
    cbn [obind] in H.
    destruct (negb (truthy comments)).
    { inversion H; subst texts. cbn. repeat split; [lia | lia | constructor]. }
    destruct comments as [| | | |s|l|d]; try discriminate; cbn [slice_to iter obind] in H.
    + (* a str has no comments to give: its characters have no [get] *)
      destruct (cp_chars (cp_take 5 s)) as [|c rest]; cbn in H; [|discriminate].
      inversion H; subst texts. cbn. repeat split; [lia | lia | constructor].
    + destruct (comment_texts_loop_budget 800 (firstn 5 l) 0 [] texts H)
        as (H1 & H2 & H3); [reflexivity | lia | constructor |].
      pose proof (firstn_le_length 5 l) as Hfive.
      cbn [List.length] in H2. repeat split; [lia | assumption | assumption].
Qed.

(** The theorem on a ticket with six comments: an empty one, one of 400
    characters, four short ones. *)
Lemma comments_budget_witness :
  let comment (body : string) : value :=
    PDict [("user", PDict [("name", PStr "Dana")]); ("body", PStr body)] in
  let long := String.concat "" (repeat "0123456789"%string 40) in
  let issue :=
    PDict [("id", PStr "A");
           ("comments",
            PDict [("nodes",
                    PList [comment ""; comment long; comment "Shipped.";
                           comment "Verified."; comment "Docs updated.";
                           comment "Closing."])])] in
  exists texts,
    comment_texts issue = Ok texts /\
    List.length texts = 4 /\
    total_size texts = 330 /\
    List.length texts <= 5 /\
    total_size texts <= 800 /\
    Forall (fun t => truthy (snd t) = true /\ size (snd t) <= 300) texts.
Proof.
  intros comment long issue.
  destruct (comment_texts issue) as [texts|] eqn:H; [|discriminate].
  exists texts. split; [reflexivity|].
  split; [vm_compute in H; inversion H; reflexivity|].
  split; [vm_compute in H; inversion H; reflexivity|].
  destruct (comments_budget issue) as [_ Hbudget]. exact (Hbudget texts H).
Defined.

(** ** The command line of the customer notes *)

Lemma drawn_from_refl (args : list string) (o : customer_release_notes.options) :
  drawn_from args o o.
Proof. unfold drawn_from. repeat split; now left. Qed.

(** One turn of the loop: the options after it are drawn from the
    arguments, and so is what the rest of the loop draws from the rest. *)
Lemma drawn_from_step (head rest args : list string)
    (o0 o1 o : customer_release_notes.options) :
  args = (head ++ rest)%list ->
  drawn_from args o0 o1 ->
  drawn_from rest o1 o ->
  drawn_from args o0 o.
Proof.
  intros -> (Hc1 & Hs1 & Hk1 & Hd1) (Hc & Hs & Hk & Hd).
  unfold drawn_from. repeat split.
  - destruct Hc as [Hc|(c & Hc & Hin)]; [rewrite Hc; exact Hc1|].
    right. exists c. split; [assumption|]. apply in_or_app. now right.
  - destruct Hs as [Hs|(x & before & after & Hs & Hrest)]; [rewrite Hs; exact Hs1|].
    right. exists x, (head ++ before)%list, after. split; [assumption|].
    now rewrite Hrest, app_assoc.
  - destruct Hk as [Hk|Hin]; [rewrite Hk; exact Hk1|].
    right. apply in_or_app. now right.
  - destruct Hd as [Hd|Hin]; [rewrite Hd; exact Hd1|].
    right. apply in_or_app. now right.
Qed.

Lemma parse_args_drawn (int : string -> outcome Z) (args : list string) :
  (forall o0 o,
     customer_release_notes.parse_args int args o0 = Ok o -> drawn_from args o0 o) /\
  (forall arg o0 o,
     customer_release_notes.parse_args int (arg :: args) o0 = Ok o ->
     drawn_from (arg :: args) o0 o).
Proof.
  assert (Hlast : forall arg rest,
            (forall o0 o, customer_release_notes.parse_args int rest o0 = Ok o ->
                          drawn_from rest o0 o) ->
            forall o0 o,
              (if String.eqb arg "--slack" then
                 customer_release_notes.parse_args int rest
                   {| customer_release_notes.customer := customer_release_notes.customer o0;
                      customer_release_notes.days := customer_release_notes.days o0;
                      customer_release_notes.since := customer_release_notes.since o0;
                      customer_release_notes.send_slack := true |}
               else if negb (String.prefix "--" arg) then
                 customer_release_notes.parse_args int rest
                   {| customer_release_notes.customer := Some arg;
                      customer_release_notes.days := customer_release_notes.days o0;
                      customer_release_notes.since := customer_release_notes.since o0;
                      customer_release_notes.send_slack :=
                        customer_release_notes.send_slack o0 |}
               else customer_release_notes.parse_args int rest o0) = Ok o ->
              drawn_from (arg :: rest) o0 o).
  { intros arg rest IH o0 o H.
    destruct (String.eqb arg "--slack") eqn:Eslack.
    - apply String.eqb_eq in Eslack. subst arg.
      refine (drawn_from_step ["--slack"%string] rest _ o0 _ o eq_refl _ (IH _ _ H)).
      unfold drawn_from. cbn. repeat split; try (now left). right. now left.
    - destruct (negb (String.prefix "--" arg)).
      + refine (drawn_from_step [arg] rest _ o0 _ o eq_refl _ (IH _ _ H)).
        unfold drawn_from. cbn. repeat split; try (now left).
        right. exists arg. split; [reflexivity | now left].
      + refine (drawn_from_step [arg] rest _ o0 _ o eq_refl _ (IH _ _ H)).
        apply drawn_from_refl. }
  induction args as [|next rest [IH0 IH1]].
  - split.
    + intros o0 o H. cbn in H. inversion H. apply drawn_from_refl.
    + intros arg o0 o H. cbn [customer_release_notes.parse_args] in H.
      apply Hlast; [|exact H].
      intros o1 o' H'. cbn in H'. inversion H'. apply drawn_from_refl.
  - split; [exact (IH1 next)|].
    intros arg o0 o H. cbn [customer_release_notes.parse_args] in H.
    destruct (String.eqb arg "--customer") eqn:Ecustomer.
    { apply String.eqb_eq in Ecustomer. subst arg.
      refine (drawn_from_step ["--customer"%string; next] rest _ o0 _ o eq_refl _ (IH0 _ _ H)).
      unfold drawn_from. cbn. repeat split; try (now left).
      right. exists next. split; [reflexivity | right; now left]. }
    destruct (String.eqb arg "--days") eqn:Edays.
    { apply String.eqb_eq in Edays. subst arg.
      destruct (int next) as [d|]; [|discriminate]. cbn [obind] in H.
      refine (drawn_from_step ["--days"%string; next] rest _ o0 _ o eq_refl _ (IH0 _ _ H)).
      unfold drawn_from. cbn. repeat split; try (now left). right. now left. }
    destruct (String.eqb arg "--since") eqn:Esince.
    { apply String.eqb_eq in Esince. subst arg.
      refine (drawn_from_step ["--since"%string; next] rest _ o0 _ o eq_refl _ (IH0 _ _ H)).
      unfold drawn_from. cbn. repeat split; try (now left).
      right. now exists next, [], rest. }
    apply Hlast; [|exact H]. exact (IH1 next).
Qed.

(** X13.  The command line invents nothing.  When the argument loop of
    [customer_release_notes] ends, the customer is one of the arguments,
    the start date is the argument right after a [--since], the notes go to
    the chat only if [--slack] is among the arguments, and the number of
    days is 30 unless [--days] is. *)
Theorem parse_args_draws_from_the_arguments
    (int : string -> outcome Z) (args : list string)
    (o : customer_release_notes.options) :
  customer_release_notes.parse_args int args customer_release_notes.defaults = Ok o ->
  (forall c, customer_release_notes.customer o = Some c -> In c args) /\
  (forall s, customer_release_notes.since o = Some s ->
     exists before after, args = (before ++ "--since"%string :: s :: after)%list) /\
  (customer_release_notes.send_slack o = true -> In "--slack"%string args) /\
  (customer_release_notes.days o <> 30%Z -> In "--days"%string args).
Proof.
  intros H. destruct (parse_args_drawn int args) as [Hdrawn _].
  destruct (Hdrawn _ _ H) as (Hc & Hs & Hk & Hd). cbn in Hc, Hs, Hk, Hd.
  repeat split.
  - intros c Hcustomer. destruct Hc as [Hc|(c' & Hc & Hin)]; [congruence|].
    rewrite Hc in Hcustomer. now inversion Hcustomer; subst.
  - intros s Hsince. destruct Hs as [Hs|(s' & before & after & Hs & Hargs)];
      [congruence|].
    rewrite Hs in Hsince. inversion Hsince; subst. now exists before, after.
  - intros Hslack. destruct Hk as [Hk|Hin]; [congruence | assumption].
  - intros Hdays. destruct Hd as [Hd|Hin]; [contradiction | assumption].
Qed.

(** The theorem on a command line with a customer, a start date and the
    flag for the chat. *)
Lemma parse_args_draws_from_the_arguments_witness :
  let int (s : string) : outcome Z := Raise TypeError in
  let args := ["acme"; "--since"; "2026-02-01"; "--slack"]%string in
  exists o,
    customer_release_notes.parse_args int args customer_release_notes.defaults = Ok o /\
    (forall c, customer_release_notes.customer o = Some c -> In c args) /\
    (forall s, customer_release_notes.since o = Some s ->
       exists before after, args = (before ++ "--since"%string :: s :: after)%list) /\
    (customer_release_notes.send_slack o = true -> In "--slack"%string args) /\
    (customer_release_notes.days o <> 30%Z -> In "--days"%string args).
Proof.
  intros int args. eexists. split; [reflexivity|].
  apply (parse_args_draws_from_the_arguments int args). reflexivity.
Defined.

(** X14.  Only [--days] can stop the command line.  On arguments without
    [--days] the argument loop ends without an exception, whatever the
    arguments, and leaves the number of days as it was. *)
Theorem parse_args_without_days
    (int : string -> outcome Z) (args : list string)
    (o0 : customer_release_notes.options) :
  ~ In "--days"%string args ->
  exists o,
    customer_release_notes.parse_args int args o0 = Ok o /\
    customer_release_notes.days o = customer_release_notes.days o0.
Proof.
  assert (Hboth : forall args,
            ~ In "--days"%string args ->
            (forall o0, exists o,
               customer_release_notes.parse_args int args o0 = Ok o /\
               customer_release_notes.days o = customer_release_notes.days o0) /\
            (forall arg o0, arg <> "--days"%string -> exists o,
               customer_release_notes.parse_args int (arg :: args) o0 = Ok o /\
               customer_release_notes.days o = customer_release_notes.days o0)).
  { clear args o0. intros args.
    induction args as [|next rest IH]; intros Hno.
    - split; [intros o0; now exists o0|].
      intros arg o0 Harg. cbn [customer_release_notes.parse_args].
      destruct (String.eqb arg "--slack"); [now eexists|].
      destruct (negb (String.prefix "--" arg)); now eexists.
    - assert (Hnext : next <> "--days"%string) by (intros ->; apply Hno; now left).
      assert (Hrest : ~ In "--days"%string rest) by (intros Hin; apply Hno; now right).
      destruct (IH Hrest) as [IH0 IH1].
      split; [intros o0; now apply IH1|].
      intros arg o0 Harg. cbn [customer_release_notes.parse_args].
      destruct (String.eqb arg "--customer");
        [destruct (IH0 {| customer_release_notes.customer := Some next;
                          customer_release_notes.days := customer_release_notes.days o0;
                          customer_release_notes.since := customer_release_notes.since o0;
                          customer_release_notes.send_slack :=
                            customer_release_notes.send_slack o0 |})
           as (o & Ho & Hd); now exists o|].
      destruct (String.eqb arg "--days") eqn:Edays;
        [apply String.eqb_eq in Edays; contradiction|].
      destruct (String.eqb arg "--since");
        [destruct (IH0 {| customer_release_notes.customer :=
                            customer_release_notes.customer o0;
                          customer_release_notes.days := customer_release_notes.days o0;
                          customer_release_notes.since := Some next;
                          customer_release_notes.send_slack :=
                            customer_release_notes.send_slack o0 |})
           as (o & Ho & Hd); now exists o|].
      destruct (String.eqb arg "--slack");
        [destruct (IH1 next
                     {| customer_release_notes.customer :=
                          customer_release_notes.customer o0;
                        customer_release_notes.days := customer_release_notes.days o0;
                        customer_release_notes.since := customer_release_notes.since o0;
                        customer_release_notes.send_slack := true |} Hnext)
           as (o & Ho & Hd); now exists o|].
      destruct (negb (String.prefix "--" arg));
        [destruct (IH1 next
                     {| customer_release_notes.customer := Some arg;
                        customer_release_notes.days := customer_release_notes.days o0;
                        customer_release_notes.since := customer_release_notes.since o0;
                        customer_release_notes.send_slack :=
                          customer_release_notes.send_slack o0 |} Hnext)
           as (o & Ho & Hd); now exists o|].
      now apply IH1. }
  intros Hno. destruct (Hboth args Hno) as [H _]. apply H.
Qed.

(** The theorem on a command line whose [--since] takes the flag that
    follows it as the date. *)
Lemma parse_args_without_days_witness :
  let int (s : string) : outcome Z := Raise TypeError in
  exists o,
    customer_release_notes.parse_args int ["--since"; "--slack"; "--customer"]%string
      customer_release_notes.defaults = Ok o /\
    customer_release_notes.days o
    = customer_release_notes.days customer_release_notes.defaults.
Proof.
  intros int.
  apply (parse_args_without_days int ["--since"; "--slack"; "--customer"]%string
           customer_release_notes.defaults).
  intros [H|[H|[H|[]]]]; discriminate.
Defined.

(** A flag that takes a value takes the next argument even when that is a
    flag; as the last argument it is skipped. *)
Example since_takes_the_next_argument :
  customer_release_notes.parse_args (fun _ => Raise TypeError)
    ["--since"; "--slack"; "--customer"]%string customer_release_notes.defaults
  = Ok {| customer_release_notes.customer := None;
          customer_release_notes.days := 30;
          customer_release_notes.since := Some "--slack"%string;
          customer_release_notes.send_slack := false |}.
Proof. reflexivity. Qed.

(** ** Slices of a str *)

Lemma conts_app (s : string) : take_conts s ++ drop_conts s = s.
Proof.
  induction s as [|c r IH]; cbn; [reflexivity|].
  destruct (is_cont c); cbn; [now rewrite IH | reflexivity].
Qed.

Lemma drop_conts_length (s : string) : String.length (drop_conts s) <= String.length s.
Proof.
  induction s as [|c r IH]; cbn; [lia|]. destruct (is_cont c); cbn; lia.
Qed.

Lemma drop_conts_whole (s : string) : whole (drop_conts s).
Proof.
  induction s as [|c r IH]; cbn; [exact I|].
  destruct (is_cont c) eqn:E; [exact IH | exact E].
Qed.

Lemma cp_len_drop_conts (s : string) : cp_len (drop_conts s) = cp_len s.
Proof.
  induction s as [|c r IH]; cbn; [reflexivity|].
  destruct (is_cont c) eqn:E; [exact IH | cbn; now rewrite E].
Qed.

(** The characters of a str, put together, are the str. *)
Lemma concat_cp_chars_aux (fuel : nat) (s : string) :
  String.length s <= fuel -> String.concat "" (cp_chars_aux fuel s) = s.
Proof.
  revert s. induction fuel as [|n IH]; intros s Hlen.
  - destruct s; [reflexivity | cbn in Hlen; lia].
  - destruct s as [|c r]; [reflexivity|]. cbn [cp_chars_aux].
    rewrite concat_cons, IH.
    + cbn. now rewrite conts_app.
    + pose proof (drop_conts_length r). cbn in Hlen. lia.
Qed.

(** A whole str has as many characters as [len] says. *)
Lemma cp_chars_aux_length (fuel : nat) (s : string) :
  String.length s <= fuel -> whole s ->
  List.length (cp_chars_aux fuel s) = cp_len s.
Proof.
  revert s. induction fuel as [|n IH]; intros s Hlen Hwhole.
  - destruct s; [reflexivity | cbn in Hlen; lia].
  - destruct s as [|c r]; [reflexivity|]. cbn in Hwhole.
    cbn [cp_chars_aux List.length cp_len]. rewrite Hwhole.
    rewrite IH, cp_len_drop_conts; [reflexivity | | apply drop_conts_whole].
    pose proof (drop_conts_length r). cbn in Hlen. lia.
Qed.

(** [s[:n] == s] when [len(s) <= n]. *)
Lemma cp_take_all (n : nat) (s : string) :
  whole s -> cp_len s <= n -> cp_take n s = s.
Proof.
  intros Hwhole Hlen. unfold cp_take, cp_chars.
  rewrite firstn_all2.
  - now apply concat_cp_chars_aux.
  - now rewrite (cp_chars_aux_length _ s (le_n _) Hwhole).
Qed.

(** ** The ticket listing of fetch_tickets.py *)

Lemma concat_app_strings (l1 l2 : list string) :
  String.concat "" (l1 ++ l2) = String.concat "" l1 ++ String.concat "" l2.
Proof.
  induction l1 as [|x rest IH]; [reflexivity|].
  cbn [app]. now rewrite !concat_cons, IH, append_append.
Qed.

(** [s[:n]] is a beginning of [s]. *)
Lemma cp_take_prefix (n : nat) (s : string) : exists rest, s = cp_take n s ++ rest.
Proof.
  exists (String.concat "" (skipn n (cp_chars s))).
  unfold cp_take. rewrite <- concat_app_strings, firstn_skipn.
  unfold cp_chars. now rewrite concat_cp_chars_aux.
Qed.

Lemma cp_chars_aux_exact (fuel : nat) (s : string) :
  whole s -> Forall (fun cp => cp_len cp = 1) (cp_chars_aux fuel s).
Proof.
  revert s. induction fuel as [|n IH]; intros s Hwhole; [constructor|].
  destruct s as [|c r]; [constructor|]. cbn [cp_chars_aux].
  constructor; [|apply IH, drop_conts_whole].
  cbn in Hwhole |- *. now rewrite Hwhole, cp_len_take_conts.
Qed.

Lemma cp_len_concat_exact (l : list string) :
  Forall (fun cp => cp_len cp = 1) l -> cp_len (String.concat "" l) = List.length l.
Proof.
  induction 1 as [|cp rest Hcp _ IH]; [reflexivity|].
  rewrite concat_cons, cp_len_app. cbn [List.length]. lia.
Qed.

(** [len(s[:n]) == n] when [s] has [n] characters or more. *)
Lemma cp_len_cp_take_exact (n : nat) (s : string) :
  whole s -> n <= cp_len s -> cp_len (cp_take n s) = n.
Proof.
  intros Hwhole Hn. unfold cp_take, cp_chars.
  rewrite cp_len_concat_exact by (apply Forall_firstn, cp_chars_aux_exact, Hwhole).
  rewrite length_firstn, (cp_chars_aux_length _ s (le_n _) Hwhole). lia.
Qed.

(** X15.  The description line of the ticket listing.  A ticket whose
    description is absent, null or empty has no description line.  A
    ticket with a description of at most 150 characters is listed with
    the description as it is; one with a longer description is listed with
    the first 150 characters of it and three dots.  A description line
    never has more than 153 characters. *)
Theorem description_line_is_short (issue d : value) :
  get issue "description" PNone = Ok d ->
  (truthy d = false -> fetch_tickets.description_line issue = Ok None)
  /\
  (forall s,
     d = PStr s -> s <> ""%string -> whole s ->
     (cp_len s <= 150 ->
      fetch_tickets.description_line issue = Ok (Some (PStr s)))
     /\
     (150 < cp_len s ->
      exists head rest,
        s = head ++ rest /\ cp_len head = 150 /\
        fetch_tickets.description_line issue = Ok (Some (PStr (head ++ "...")))))
  /\
  (forall line,
     fetch_tickets.description_line issue = Ok (Some line) -> size line <= 153).
Proof.
  intros Hd. split; [|split].
  - intros Hfalsy. unfold fetch_tickets.description_line.
    rewrite Hd. cbn [obind]. now rewrite Hfalsy.
  - intros s -> Hs Hwhole.
    assert (Hitem : getitem issue "description" = Ok (PStr s)).
    { destruct issue as [| | | | | |fields]; try discriminate.
      cbn [get getitem] in Hd |- *.
      destruct (dict_lookup "description" fields); inversion Hd; reflexivity. }
    assert (Htruthy : truthy (PStr s) = true) by (destruct s; [contradiction | reflexivity]).
    unfold fetch_tickets.description_line. rewrite Hd. cbn [obind].
    rewrite Htruthy, Hitem. cbn [obind slice_to len]. split.
    + intros Hshort. apply Nat.ltb_ge in Hshort. rewrite Hshort.
      apply Nat.ltb_ge in Hshort. now rewrite cp_take_all.
    + intros Hlong. destruct (cp_take_prefix 150 s) as [rest Hrest].
      exists (cp_take 150 s), rest. split; [exact Hrest|].
      split; [apply cp_len_cp_take_exact; [assumption | lia]|].
      apply Nat.ltb_lt in Hlong. now rewrite Hlong.
  - intros line H. unfold fetch_tickets.description_line in H.
    rewrite Hd in H. cbn [obind] in H.
    destruct (truthy d); [|discriminate].
    destruct (getitem issue "description") as [description|]; [|discriminate].
    cbn [obind] in H.
    destruct (slice_to 150 description) as [desc|] eqn:Hslice; [|discriminate].
    cbn [obind] in H.
    destruct (len description) as [n|]; [|discriminate]. cbn [obind] in H.
    pose proof (slice_to_size _ _ _ Hslice) as Hsize.
    destruct (Nat.ltb 150 n).
    + destruct (fetch_tickets.add_dots desc) as [desc'|] eqn:Hdots; [|discriminate].
      cbn [obind] in H. inversion H; subst line.
      unfold size in Hsize |- *.
      destruct desc as [| | | |t|l|x]; try discriminate; cbn in Hdots, Hsize;
        inversion Hdots; subst desc'; cbn.
      * rewrite cp_len_app. cbn. lia.
      * rewrite length_app. cbn. lia.
    + inversion H; subst line. lia.
Qed.

(** The theorem on a ticket with a description of 200 characters. *)
Lemma description_line_is_short_witness :
  let long := String.concat "" (repeat "0123456789"%string 20) in
  let issue := PDict [("title", PStr "Add CSV export"); ("description", PStr long)] in
  (exists head rest,
     long = head ++ rest /\ cp_len head = 150 /\
     fetch_tickets.description_line issue = Ok (Some (PStr (head ++ "...")))) /\
  (forall line,
     fetch_tickets.description_line issue = Ok (Some line) -> size line <= 153).
Proof.
  intros long issue.
  destruct (description_line_is_short issue (PStr long) eq_refl) as (_ & Hstr & Hsize).
  split; [|exact Hsize].
  destruct (Hstr long eq_refl) as [_ Hlong].
  - vm_compute. discriminate.
  - vm_compute. reflexivity.
  - apply Hlong. vm_compute. lia.
Defined.

(** X16.  The ticket listing only reads.  However a run of
    [fetch_tickets.main] ends, it has sent one query to the tracker, for
    the tickets since the date 30 days before today, and nothing else: no
    call to the inference service, no post, and the state file is neither
    read nor written. *)
Theorem listing_only_reads (w : world) (r : outcome (list (option value))) (w' : world) :
  fetch_tickets.main w = (r, w') ->
  extends w w'
    [Query (PStr (datetime.strftime_Ymd (datetime.days_before 30 (now (env w)))))] /\
  state_file w' = state_file w /\
  forall content,
    fetch_tickets.main
      {| env := env w; state_file := content; inference := inference w;
         trace := trace w |}
    = (r, {| env := env w'; state_file := content; inference := inference w';
             trace := trace w' |}).
Proof.
  unfold fetch_tickets.main, fetch_tickets.fetch_completed_issues,
    fetch_tickets.run_query, bind, ask, log, lift, ret.
  cbn [env logged trace inference state_file].
  generalize (datetime.strftime_Ymd (datetime.days_before 30 (now (env w)))).
  intros since H.
  destruct (tracker (env w)) as [result|e].
  - destruct (_ <- get result "data" (PDict []) ;; _) as [issues|e];
      [destruct (negb (truthy issues))|];
      inversion H; subst; cbn; repeat split; reflexivity.
  - inversion H; subst; cbn; repeat split; reflexivity.
Qed.

(** The theorem on the sample tracker, whose tickets have no date. *)
Lemma listing_only_reads_witness :
  let w := Sample.later_run in
  let r := fst (fetch_tickets.main w) in
  let w' := snd (fetch_tickets.main w) in
  r = Raise KeyError /\
  extends w w' [Query (PStr "2026-02-02")] /\
  state_file w' = state_file w /\
  forall content,
    fetch_tickets.main
      {| env := env w; state_file := content; inference := inference w;
         trace := trace w |}
    = (r, {| env := env w'; state_file := content; inference := inference w';
             trace := trace w' |}).
Proof.
  intros w r w'. split; [vm_compute; reflexivity|].
  apply (listing_only_reads w r w').
  unfold r, w'. now destruct (fetch_tickets.main w).
Defined.

(** ** Replies of the wrong shape *)

(** X17.  A classification reply that is JSON but no array stops the run.
    When the whole reply decodes, the bracket pattern is not tried; and if
    what it decodes to is an object with a key (the array wrapped in an
    object, say), a str, a number, a boolean or null, then building the
    decision map raises [TypeError], which nothing catches: the classifier
    has made its call and returns nothing. *)
Theorem reply_that_is_no_array
    (issues : value) (w : world) (reply : string) (decisions : value) :
  truthy issues = true ->
  (exists texts, (items <- iter issues ;; omap issue_text items) = Ok texts) ->
  next_text w = Ok reply ->
  decode_decisions (strip reply) = Some decisions ->
  no_array decisions ->
  exists w',
    filter_customer_worthy issues w = (Raise TypeError, w') /\
    extends w w' [Create ClassifyPrompt].
Proof.
  intros Htruthy [texts Htexts] Hreply Hdecoded Hshape.
  destruct (create_message_run ClassifyPrompt w) as (w' & Hrun & _).
  exists w'. split; [|now apply (create_message_extends _ _ _ _ Hrun)].
  unfold filter_customer_worthy. rewrite Htruthy. cbn [negb].
  unfold bind at 1. unfold lift at 1. rewrite Htexts.
  unfold bind at 1. rewrite Hrun, Hreply, Hdecoded.
  unfold lift. f_equal.
  destruct decisions as [|b|z|f|[|c s]|l|[|[k x] d]]; try contradiction; reflexivity.
Qed.

(** The theorem on a reply that wraps the decisions in an object. *)
Lemma reply_that_is_no_array_witness :
  let reply := Sample.dq "{'decisions': [{'id': 'A', 'decision': 'feature'}]}" in
  let w := Sample.world_with [Sample.says reply] in
  exists w',
    filter_customer_worthy (PList Sample.three_tickets) w = (Raise TypeError, w') /\
    extends w w' [Create ClassifyPrompt].
Proof.
  intros reply w.
  apply (reply_that_is_no_array (PList Sample.three_tickets) w reply
           (PDict [("decisions",
                    PList [PDict [("id", PStr "A"); ("decision", PStr "feature")]])])).
  - reflexivity.
  - eexists. vm_compute. reflexivity.
  - reflexivity.
  - vm_compute. reflexivity.
  - exact I.
Defined.

(** X18.  A grouping reply that is JSON but no object stops the run.  When
    the reply decodes to anything but an object (an array of groups, say),
    the grouper has built its index of the candidate tickets and then
    reads [result.get]: [AttributeError], which nothing catches; the
    fallback of the ungrouped fixes is for replies that do not decode. *)
Theorem grouping_that_is_no_object
    (features fixes excluded all_tickets : list value) (decisions : value)
    (all_by_id : idmap) (w : world) (reply : string) (result : value) :
  features <> [] \/ fixes <> [] ->
  candidate_tickets (PList features) (PList fixes) (PList excluded) = Ok all_tickets ->
  dict_by_id all_tickets [] = Ok all_by_id ->
  next_text w = Ok reply ->
  decode_grouping (strip reply) = Some result ->
  (forall d, result <> PDict d) ->
  exists w',
    group_related_tickets (categorized features fixes excluded decisions) w
    = (Raise AttributeError, w') /\
    extends w w' [Create GroupPrompt].
Proof.
  intros Hsome Hcandidates Hindex Hreply Hdecoded Hshape.
  destruct (create_message_run GroupPrompt w) as (w' & Hrun & _).
  exists w'. split; [|now apply (create_message_extends _ _ _ _ Hrun)].
  unfold group_related_tickets, categorized.
  cbn [get dict_lookup String.eqb Ascii.eqb Bool.eqb].
  unfold bind at 1. unfold lift at 1.
  unfold bind at 1. unfold lift at 1.
  unfold bind at 1. unfold lift at 1.
  assert (Hgo : andb (negb (truthy (PList features))) (negb (truthy (PList fixes)))
                = false).
  { destruct Hsome as [H|H]; [destruct features | destruct fixes];
      try contradiction; cbn; [reflexivity | now rewrite andb_false_r]. }
  rewrite Hgo.
  unfold bind at 1. unfold lift at 1. rewrite Hcandidates.
  unfold bind at 1. rewrite Hrun, Hreply, Hdecoded.
  unfold lift, enrich. rewrite Hindex. cbn [obind].
  destruct result as [|b|z|f|s|l|d]; try reflexivity.
  now exfalso; apply (Hshape d).
Qed.

(** The theorem on the sample fix and a reply that is an array. *)
Lemma grouping_that_is_no_object_witness :
  let w := Sample.world_with [Sample.says (Sample.dq "[{'name': 'Fixes', 'tickets': ['B']}]")] in
  exists w',
    group_related_tickets Sample.one_fix w = (Raise AttributeError, w') /\
    extends w w' [Create GroupPrompt].
Proof.
  intros w.
  apply (grouping_that_is_no_object [] [Sample.typo_fix] [] [Sample.typo_fix] (PList [])
           (Sample.index_of [Sample.typo_fix]) w
           (Sample.dq "[{'name': 'Fixes', 'tickets': ['B']}]")
           (PList [PDict [("name", PStr "Fixes"); ("tickets", PList [PStr "B"])]])).
  - right. discriminate.
  - reflexivity.
  - reflexivity.
  - reflexivity.
  - vm_compute. reflexivity.
  - discriminate.
Defined.
